(** * ChatConsumer: connection lifecycle of the WebSocket chat server

    A shallow embedding of [app/chat/consumers.py] and the properties of
    its connection lifecycle: message counting, session recovery, the
    shared heartbeat task and the graceful shutdown.

    Conventions of the embedding.
    - A consumer object is named by a natural number (its identity); the
      instance attributes live in a heap [consumers], the class attributes
      of [ChatConsumer] are fields of the [world].
    - A handler ([connect], [receive], [disconnect], [graceful_shutdown])
      is a computation in a state-and-exception monad over the [world];
      one invocation runs without another handler in between.  The
      heartbeat loop is cut at its two [await]s and runs one segment per
      step, so that every other handler can run while it sleeps.
    - Everything observable from outside the process (frames sent, closes,
      channel-layer and cache calls, log records) is appended to [trace].
    - [json.loads], [bytes.decode], the channel layer, the cache and the
      socket belong to libraries: a text frame is given by what
      [json.loads] makes of it, a query string by what [decode] makes of
      it, the cache by the contract of Django's cache API, and whether a
      socket still takes a frame, and whether the Redis behind the
      channel layer and the cache answers the calls of [connect] and
      [disconnect], are inputs of the handler.  [accept], [close] and
      the [group_send] of the heartbeat return normally.
    - A Python string is held as its UTF-8 encoding.
    - Time is an integer number of milliseconds. *)

From stdpp Require Import base option list gmap strings.
From Stdlib Require Import ZArith String Ascii Lia.

Local Open Scope Z_scope.
Local Set Warnings "-register-all".

(** ** Values exchanged with the client *)

(** Python values as [json.loads] builds them ([dict] items in insertion
    order, keys pairwise distinct) and as [json.dumps] takes them. *)
Inductive json : Type :=
| JNull
| JBool (b : bool)
| JInt (n : Z)
| JFloat (repr : string)
| JStr (s : string)
| JArr (items : list json)
| JObj (items : list (string * json)).

(** The outcome of [json.loads(text_data)] on a text frame: the value it
    returns, or the exception it raises, which is [JSONDecodeError] for a
    text that is not JSON, [ValueError] for an integer literal beyond the
    digit limit of the interpreter and [RecursionError] for a nesting
    beyond its recursion limit. *)
Inductive loads_result : Type :=
| Decoded (v : json)
| NotJSON
| TooManyDigits
| NestedTooDeep.

(** The outcome of [self.scope.get('query_string', b'').decode()]: the
    text, or [UnicodeDecodeError] for bytes that are not UTF-8. *)
Inductive decode_result : Type :=
| Text (query_params : string)
| NotUTF8.

Inductive exn : Type :=
| JSONDecodeError
| ValueError
| RecursionError
| UnicodeDecodeError
| AttributeError
| TypeError
| IndexError
| KeyError
| ConnectionClosed
| RedisError
| TimeoutError
| CancelledError.

(** [except Exception] does not catch [asyncio.CancelledError], which
    derives from [BaseException]. *)
Definition is_Exception (e : exn) : bool :=
  match e with
  | CancelledError => false
  | _ => true
  end.

Inductive result (A : Type) : Type :=
| Ok (a : A)
| Raise (e : exn).
Arguments Ok {A} a.
Arguments Raise {A} e.

(** Whether the transport still takes frames for a connection. *)
Inductive socket : Type := SockOpen | SockGone.

(** Whether the Redis behind the channel layer and behind the cache
    answers the calls one invocation of a handler makes. *)
Record backend : Type := Backend {
  layer_up : bool;
  cache_up : bool
}.

Inductive error_type : Type :=
| connection_error
| disconnect_error
| invalid_json
| receive_error.

Global Instance error_type_eq_dec : EqDecision error_type.
Proof. solve_decision. Defined.

Inductive log_level : Type := DEBUG | INFO | WARNING | ERROR.

(** One constructor per logging call of the module. *)
Inductive log_record : Type :=
| RejectingNewConnection
| RecoveredSession (session_id : string) (count : Z)
| WebSocketConnected (c : nat) (session_id : option string) (count : Z) (active : nat)
| ConnectionError (e : exn)
| WebSocketDisconnected (c : nat) (session_id : option string) (close_code : Z)
    (count : Z) (duration : Z) (active : nat)
| DisconnectError (e : exn)
| MessageReceived (c : nat) (session_id : option string) (count : Z) (message_length : nat)
| ReceiveError (e : exn)
| HeartbeatSent (active : nat)
| HeartbeatError (e : exn)
| StartingGracefulShutdown (active : nat)
| GracefulShutdownCompleted (duration : Z).

Inductive effect : Type :=
| Accept (c : nat)
| Close (c : nat) (code : Z)
| Send (c : nat) (text_data : json)
| SendFailed (c : nat) (text_data : json)
| GroupAdd (group : string) (c : nat)
| GroupDiscard (group : string) (c : nat)
| GroupSend (group : string) (message : json)
| CacheGet (key : string)
| CacheSet (key : string) (value : Z) (timeout : Z)
| Log (level : log_level) (record : log_record).

(** ** State *)

(** Instance attributes set by [__init__].  [own_heartbeat_task] is the
    entry [heartbeat_task] of the instance dictionary: [None] while the
    instance has no such entry (attribute lookup then falls through to the
    class), [Some v] once [self.heartbeat_task = v] has run. *)
Record consumer : Type := Consumer {
  session_id : option string;
  message_count : Z;
  connection_start : Z;
  connection_id : string;
  graceful_close : bool;
  own_heartbeat_task : option (option nat)
}.

Definition init (connection_uuid : string) : consumer :=
  {| session_id := None;
     message_count := 0;
     connection_start := 0;
     connection_id := connection_uuid;
     graceful_close := false;
     own_heartbeat_task := None |}.

(** The Prometheus collectors the consumer touches. *)
Record metrics : Type := Metrics {
  websocket_connections : Z;
  websocket_messages : Z;
  websocket_errors : error_type → Z;
  websocket_heartbeats : Z;
  websocket_shutdown_duration : list Z;
  websocket_connection_duration : list Z
}.

(** Where the coroutine of an [asyncio] task running [heartbeat_loop] is
    suspended. *)
Inductive hb_pc : Type :=
| HbCreated
| HbSleeping (wake_at : Z)
| HbSending
| HbDone.

Record task : Type := Task {
  pc : hb_pc;
  cancel_requested : bool
}.

Record world : Type := World {
  (* class attributes of ChatConsumer *)
  active_connections : gset nat;
  shutdown_initiated : bool;
  heartbeat_task : option nat;
  (* the consumer instances *)
  consumers : gmap nat consumer;
  (* asyncio tasks created for heartbeat_loop, by creation order *)
  tasks : list task;
  (* django.core.cache: key -> (value, expiry time) *)
  cache : gmap string (Z * Z);
  collectors : metrics;
  now : Z;
  trace : list effect
}.

Definition metrics0 : metrics :=
  {| websocket_connections := 0;
     websocket_messages := 0;
     websocket_errors := λ _, 0;
     websocket_heartbeats := 0;
     websocket_shutdown_duration := [];
     websocket_connection_duration := [] |}.

(** The process right after the module is imported, at time [epoch]. *)
Definition initial (epoch : Z) : world :=
  {| active_connections := ∅;
     shutdown_initiated := false;
     heartbeat_task := None;
     consumers := ∅;
     tasks := [];
     cache := ∅;
     collectors := metrics0;
     now := epoch;
     trace := [] |}.

(** *** Field updates *)

Definition with_active (f : gset nat → gset nat) (w : world) : world :=
  {| active_connections := f (active_connections w);
     shutdown_initiated := shutdown_initiated w;
     heartbeat_task := heartbeat_task w;
     consumers := consumers w;
     tasks := tasks w;
     cache := cache w;
     collectors := collectors w;
     now := now w;
     trace := trace w |}.

Definition with_shutdown (b : bool) (w : world) : world :=
  {| active_connections := active_connections w;
     shutdown_initiated := b;
     heartbeat_task := heartbeat_task w;
     consumers := consumers w;
     tasks := tasks w;
     cache := cache w;
     collectors := collectors w;
     now := now w;
     trace := trace w |}.

Definition with_consumers (f : gmap nat consumer → gmap nat consumer) (w : world) : world :=
  {| active_connections := active_connections w;
     shutdown_initiated := shutdown_initiated w;
     heartbeat_task := heartbeat_task w;
     consumers := f (consumers w);
     tasks := tasks w;
     cache := cache w;
     collectors := collectors w;
     now := now w;
     trace := trace w |}.

Definition with_tasks (f : list task → list task) (w : world) : world :=
  {| active_connections := active_connections w;
     shutdown_initiated := shutdown_initiated w;
     heartbeat_task := heartbeat_task w;
     consumers := consumers w;
     tasks := f (tasks w);
     cache := cache w;
     collectors := collectors w;
     now := now w;
     trace := trace w |}.

Definition with_cache (f : gmap string (Z * Z) → gmap string (Z * Z)) (w : world) : world :=
  {| active_connections := active_connections w;
     shutdown_initiated := shutdown_initiated w;
     heartbeat_task := heartbeat_task w;
     consumers := consumers w;
     tasks := tasks w;
     cache := f (cache w);
     collectors := collectors w;
     now := now w;
     trace := trace w |}.

Definition with_collectors (f : metrics → metrics) (w : world) : world :=
  {| active_connections := active_connections w;
     shutdown_initiated := shutdown_initiated w;
     heartbeat_task := heartbeat_task w;
     consumers := consumers w;
     tasks := tasks w;
     cache := cache w;
     collectors := f (collectors w);
     now := now w;
     trace := trace w |}.

Definition with_now (t : Z) (w : world) : world :=
  {| active_connections := active_connections w;
     shutdown_initiated := shutdown_initiated w;
     heartbeat_task := heartbeat_task w;
     consumers := consumers w;
     tasks := tasks w;
     cache := cache w;
     collectors := collectors w;
     now := t;
     trace := trace w |}.

Definition with_trace (f : list effect → list effect) (w : world) : world :=
  {| active_connections := active_connections w;
     shutdown_initiated := shutdown_initiated w;
     heartbeat_task := heartbeat_task w;
     consumers := consumers w;
     tasks := tasks w;
     cache := cache w;
     collectors := collectors w;
     now := now w;
     trace := f (trace w) |}.

Definition set_session_id (v : option string) (s : consumer) : consumer :=
  {| session_id := v;
     message_count := message_count s;
     connection_start := connection_start s;
     connection_id := connection_id s;
     graceful_close := graceful_close s;
     own_heartbeat_task := own_heartbeat_task s |}.

Definition set_message_count (v : Z) (s : consumer) : consumer :=
  {| session_id := session_id s;
     message_count := v;
     connection_start := connection_start s;
     connection_id := connection_id s;
     graceful_close := graceful_close s;
     own_heartbeat_task := own_heartbeat_task s |}.

Definition set_connection_start (v : Z) (s : consumer) : consumer :=
  {| session_id := session_id s;
     message_count := message_count s;
     connection_start := v;
     connection_id := connection_id s;
     graceful_close := graceful_close s;
     own_heartbeat_task := own_heartbeat_task s |}.

Definition set_graceful_close (v : bool) (s : consumer) : consumer :=
  {| session_id := session_id s;
     message_count := message_count s;
     connection_start := connection_start s;
     connection_id := connection_id s;
     graceful_close := v;
     own_heartbeat_task := own_heartbeat_task s |}.

Definition set_own_heartbeat_task (v : option nat) (s : consumer) : consumer :=
  {| session_id := session_id s;
     message_count := message_count s;
     connection_start := connection_start s;
     connection_id := connection_id s;
     graceful_close := graceful_close s;
     own_heartbeat_task := Some v |}.

Global Instance consumer_inhabited : Inhabited consumer := populate (init "").

(** ** Handlers as computations *)

(** A computation reads and writes the [world] and either returns a value
    or raises; what it wrote before raising stays written. *)
Definition M (A : Type) : Type := world → result A * world.

Global Instance M_ret : MRet M := λ A a w, (Ok a, w).

Global Instance M_bind : MBind M := λ A B f m w,
  match m w with
  | (Ok a, w') => f a w'
  | (Raise e, w') => (Raise e, w')
  end.

Definition raise {A : Type} (e : exn) : M A := λ w, (Raise e, w).

(** [try: body except ...:], where [handler e] is the matching [except]
    clause, if there is one.  A handler that raises is not caught again. *)
Definition try_except {A : Type} (body : M A) (handler : exn → option (M A)) : M A :=
  λ w,
    match body w with
    | (Ok a, w') => (Ok a, w')
    | (Raise e, w') =>
        match handler e with
        | Some h => h w'
        | None => (Raise e, w')
        end
    end.

Definition gets {A : Type} (f : world → A) : M A := λ w, (Ok (f w), w).

Definition modify (f : world → world) : M unit := λ w, (Ok (), f w).

(** [self.<attr>] and [self.<attr> = v] on the instance [c]. *)
Definition attr {A : Type} (f : consumer → A) (c : nat) : M A :=
  gets (λ w, f (consumers w !!! c)).

Definition setattr (g : consumer → consumer) (c : nat) : M unit :=
  modify (with_consumers (alter g c)).

Definition emit (e : effect) : M unit := modify (with_trace (λ t, t ++ [e])).

Definition log (level : log_level) (record : log_record) : M unit :=
  emit (Log level record).

(** [await self.send(text_data=json.dumps(v))]. *)
Definition send (c : nat) (sock : socket) (v : json) : M unit :=
  match sock with
  | SockOpen => emit (Send c v)
  | SockGone => emit (SendFailed c v) ;; raise ConnectionClosed
  end.

(** [await self.close(code=code)]. *)
Definition close (c : nat) (code : Z) : M unit := emit (Close c code).

(** *** Collectors *)

Definition inc_messages (m : metrics) : metrics :=
  {| websocket_connections := websocket_connections m;
     websocket_messages := websocket_messages m + 1;
     websocket_errors := websocket_errors m;
     websocket_heartbeats := websocket_heartbeats m;
     websocket_shutdown_duration := websocket_shutdown_duration m;
     websocket_connection_duration := websocket_connection_duration m |}.

Definition add_connections (d : Z) (m : metrics) : metrics :=
  {| websocket_connections := websocket_connections m + d;
     websocket_messages := websocket_messages m;
     websocket_errors := websocket_errors m;
     websocket_heartbeats := websocket_heartbeats m;
     websocket_shutdown_duration := websocket_shutdown_duration m;
     websocket_connection_duration := websocket_connection_duration m |}.

Definition inc_errors (k : error_type) (m : metrics) : metrics :=
  {| websocket_connections := websocket_connections m;
     websocket_messages := websocket_messages m;
     websocket_errors := λ k', if decide (k' = k) then websocket_errors m k' + 1
                               else websocket_errors m k';
     websocket_heartbeats := websocket_heartbeats m;
     websocket_shutdown_duration := websocket_shutdown_duration m;
     websocket_connection_duration := websocket_connection_duration m |}.

Definition inc_heartbeats (m : metrics) : metrics :=
  {| websocket_connections := websocket_connections m;
     websocket_messages := websocket_messages m;
     websocket_errors := websocket_errors m;
     websocket_heartbeats := websocket_heartbeats m + 1;
     websocket_shutdown_duration := websocket_shutdown_duration m;
     websocket_connection_duration := websocket_connection_duration m |}.

Definition observe_shutdown_duration (d : Z) (m : metrics) : metrics :=
  {| websocket_connections := websocket_connections m;
     websocket_messages := websocket_messages m;
     websocket_errors := websocket_errors m;
     websocket_heartbeats := websocket_heartbeats m;
     websocket_shutdown_duration := websocket_shutdown_duration m ++ [d];
     websocket_connection_duration := websocket_connection_duration m |}.

(** [track_websocket_duration] of [metrics.py]. *)
Definition track_websocket_duration (d : Z) (m : metrics) : metrics :=
  {| websocket_connections := websocket_connections m;
     websocket_messages := websocket_messages m;
     websocket_errors := websocket_errors m;
     websocket_heartbeats := websocket_heartbeats m;
     websocket_shutdown_duration := websocket_shutdown_duration m;
     websocket_connection_duration := websocket_connection_duration m ++ [d] |}.

Definition collect (f : metrics → metrics) : M unit := modify (with_collectors f).

(** ** receive *)

Definition json_loads (text_data : loads_result) : M json :=
  match text_data with
  | Decoded v => mret v
  | NotJSON => raise JSONDecodeError
  | TooManyDigits => raise ValueError
  | NestedTooDeep => raise RecursionError
  end.

Fixpoint assoc (key : string) (items : list (string * json)) : option json :=
  match items with
  | [] => None
  | (k, v) :: rest => if decide (k = key) then Some v else assoc key rest
  end.

(** [data.get(key, dflt)]: only a [dict] has the method. *)
Definition dict_get (data : json) (key : string) (dflt : json) : M json :=
  match data with
  | JObj items => mret (default dflt (assoc key items))
  | _ => raise AttributeError
  end.

(** A byte that continues a character of a UTF-8 text: [10xxxxxx]. *)
Definition continues (a : ascii) : bool :=
  match a with
  | Ascii _ _ _ _ _ _ false true => true
  | _ => false
  end.

(** The number of code points of a text, which is what [len] counts. *)
Fixpoint code_points (s : string) : nat :=
  match s with
  | EmptyString => 0
  | String a s' => (if continues a then 0 else 1) + code_points s'
  end.

(** [len(v)]: numbers, booleans and [None] have no length. *)
Definition len_of (v : json) : option nat :=
  match v with
  | JStr s => Some (code_points s)
  | JArr items => Some (List.length items)
  | JObj items => Some (List.length items)
  | _ => None
  end.

Definition py_len (v : json) : M nat :=
  match len_of v with
  | Some n => mret n
  | None => raise TypeError
  end.

Definition count_reply (n : Z) : json := JObj [("count", JInt n)].
Definition error_reply (text : string) : json := JObj [("error", JStr text)].
Definition goodbye (total : Z) : json := JObj [("bye", JBool true); ("total", JInt total)].

Definition receive (c : nat) (sock : socket) (text_data : loads_result) : M unit :=
  try_except
    (data ← json_loads text_data;
     message ← dict_get data "message" (JStr "");
     n ← attr message_count c;
     setattr (set_message_count (n + 1)) c ;;
     collect inc_messages ;;
     n' ← attr message_count c;
     send c sock (count_reply n') ;;
     (* the arguments of logger.debug are evaluated whatever the level *)
     sid ← attr session_id c;
     message_length ← py_len message;
     log DEBUG (MessageReceived c sid n' message_length))
    (λ e,
       match e with
       | JSONDecodeError =>
           Some (collect (inc_errors invalid_json) ;;
                 send c sock (error_reply "Invalid JSON"))
       | _ =>
           if is_Exception e then
             Some (collect (inc_errors receive_error) ;;
                   log ERROR (ReceiveError e) ;;
                   send c sock (error_reply "Internal error"))
           else None
       end).

(** ** connect *)

(** [pat in s]. *)
Fixpoint str_contains (pat s : string) : bool :=
  if String.prefix pat s then true
  else match s with
       | EmptyString => false
       | String _ s' => str_contains pat s'
       end.

(** [s.split(sep)] for a non-empty [sep]: [piece] is the text read since
    the last separator, [skip] the number of characters of a separator
    still to be passed over. *)
Fixpoint split_from (sep : string) (skip : nat) (piece s : string) : list string :=
  match s with
  | EmptyString => [piece]
  | String a s' =>
      match skip with
      | S k => split_from sep k piece s'
      | O =>
          if String.prefix sep s
          then piece :: split_from sep (String.length sep - 1) "" s'
          else split_from sep 0 (piece +:+ String a "") s'
      end
  end.

Definition str_split (sep s : string) : list string := split_from sep 0 "" s.

(** [l[i]]. *)
Definition subscript {A : Type} (l : list A) (i : nat) : M A :=
  match l !! i with
  | Some x => mret x
  | None => raise IndexError
  end.

Definition SESSION_TIMEOUT : Z := 300.

Definition milliseconds (seconds : Z) : Z := seconds * 1000.

Definition cache_key (session : string) : string := "ws_session:" +:+ session.

(** [cache.get(key)]: [None] for a key that is absent or has expired. *)
Definition cache_get (key : string) (w : world) : option Z :=
  match cache w !! key with
  | Some (value, expires) => if now w <? expires then Some value else None
  | None => None
  end.

Definition get_cached_session (session : string) : M (option Z) :=
  let key := cache_key session in
  emit (CacheGet key) ;;
  gets (cache_get key).

Definition cache_session (session : string) (count : Z) : M unit :=
  let key := cache_key session in
  emit (CacheSet key count SESSION_TIMEOUT) ;;
  modify (λ w, with_cache (λ m, <[key := (count, now w + milliseconds SESSION_TIMEOUT)]> m) w).

(** [self.heartbeat_task] read through the instance [c]: the entry of the
    instance if it has one, the class attribute otherwise. *)
Definition self_heartbeat_task (c : nat) : M (option nat) :=
  gets (λ w, match own_heartbeat_task (consumers w !!! c) with
             | Some v => v
             | None => heartbeat_task w
             end).

(** [asyncio.create_task(self.heartbeat_loop())]. *)
Definition create_task : M nat :=
  tid ← gets (λ w, List.length (tasks w));
  modify (with_tasks (λ ts, ts ++ [Task HbCreated false])) ;;
  mret tid.

(** [task.cancel()]: no effect on a task that is done. *)
Definition request_cancel (t : task) : task :=
  match pc t with
  | HbDone => t
  | _ => Task (pc t) true
  end.

Definition cancel (tid : nat) : M unit := modify (with_tasks (alter request_cancel tid)).

(** A call that goes to Redis: it is made if Redis answers, and raises
    without effect if it does not. *)
Definition via_redis {A : Type} (up : bool) (call : M A) : M A :=
  if up then call else raise RedisError.

(** [self.scope.get('query_string', b'').decode()]. *)
Definition decode (query_string : decode_result) : M string :=
  match query_string with
  | Text query_params => mret query_params
  | NotUTF8 => raise UnicodeDecodeError
  end.

Definition connect (c : nat) (query_string : decode_result) (new_uuid : string)
    (io : backend) : M unit :=
  try_except
    (rejecting ← gets shutdown_initiated;
     if (rejecting : bool) then
       log WARNING RejectingNewConnection ;;
       close c 1001
     else
       t ← gets now;
       setattr (set_connection_start t) c ;;
       query_params ← decode query_string;
       (if str_contains "session_uuid=" query_params then
          rest ← subscript (str_split "session_uuid=" query_params) 1;
          session ← subscript (str_split "&" rest) 0;
          setattr (set_session_id (Some session)) c ;;
          cached_count ← via_redis (cache_up io) (get_cached_session session);
          match cached_count with
          | Some n =>
              setattr (set_message_count n) c ;;
              log INFO (RecoveredSession session n)
          | None => mret ()
          end
        else setattr (set_session_id (Some new_uuid)) c) ;;
       emit (Accept c) ;;
       modify (with_active (λ a, {[c]} ∪ a)) ;;
       collect (add_connections 1) ;;
       via_redis (layer_up io) (emit (GroupAdd "broadcast" c)) ;;
       active ← gets (λ w, size (active_connections w));
       running ← self_heartbeat_task c;
       (if bool_decide (active = 1%nat) && negb (bool_decide (is_Some running)) then
          tid ← create_task;
          setattr (set_own_heartbeat_task (Some tid)) c
        else mret ()) ;;
       session ← attr session_id c;
       count ← attr message_count c;
       active ← gets (λ w, size (active_connections w));
       log INFO (WebSocketConnected c session count active))
    (λ e,
       if is_Exception e then
         Some (collect (inc_errors connection_error) ;;
               log ERROR (ConnectionError e) ;;
               close c 1011)
       else None).

(** ** disconnect *)

(** Truth value of [self.session_id]: [None] and the empty string are false. *)
Definition truthy_session (session : option string) : option string :=
  match session with
  | Some s => if bool_decide (s = "") then None else Some s
  | None => None
  end.

Definition disconnect (c : nat) (sock : socket) (close_code : Z) (io : backend) : M unit :=
  try_except
    (modify (with_active (λ a, a ∖ {[c]})) ;;
     collect (add_connections (-1)) ;;
     start ← attr connection_start c;
     t ← gets now;
     let duration := t - start in
     (if bool_decide (start ≠ 0) then collect (track_websocket_duration duration)
      else mret ()) ;;
     via_redis (layer_up io) (emit (GroupDiscard "broadcast" c)) ;;
     session ← attr session_id c;
     count ← attr message_count c;
     match truthy_session session with
     | Some s =>
         if 0 <? count then via_redis (cache_up io) (cache_session s count) else mret ()
     | None => mret ()
     end ;;
     graceful ← attr graceful_close c;
     (if negb graceful && negb (close_code =? 1001) then
        try_except (send c sock (goodbye count)) (λ _, Some (mret ()))
      else mret ()) ;;
     active ← gets (λ w, size (active_connections w));
     running ← self_heartbeat_task c;
     match running with
     | Some tid =>
         if bool_decide (active = 0%nat) then
           cancel tid ;;
           setattr (set_own_heartbeat_task None) c
         else mret ()
     | None => mret ()
     end ;;
     log INFO (WebSocketDisconnected c session close_code count
                 (if bool_decide (start ≠ 0) then duration else 0) active))
    (λ e,
       if is_Exception e then
         Some (collect (inc_errors disconnect_error) ;;
               log ERROR (DisconnectError e))
       else None).

(** ** broadcast_message *)

Definition broadcast_event (timestamp : string) : json :=
  JObj [("type", JStr "broadcast_message"); ("message", JObj [("ts", JStr timestamp)])].

Definition broadcast_message (c : nat) (sock : socket) (event : json) : M unit :=
  message ← match event with
            | JObj items =>
                match assoc "message" items with
                | Some v => mret v
                | None => raise KeyError
                end
            | _ => raise TypeError
            end;
  send c sock message.

(** ** heartbeat_loop *)

Definition HEARTBEAT_INTERVAL : Z := 30.

Definition set_pc (tid : nat) (p : hb_pc) : M unit :=
  modify (with_tasks (alter (λ t, Task p (cancel_requested t)) tid)).

(** The loop condition: sleep again, or leave the loop. *)
Definition loop_head (tid : nat) : M unit :=
  w ← gets id;
  if negb (bool_decide (active_connections w = ∅)) && negb (shutdown_initiated w)
  then set_pc tid (HbSleeping (now w + milliseconds HEARTBEAT_INTERVAL))
  else set_pc tid HbDone.

(** One segment of the task [tid], from where its coroutine is suspended
    to its next [await] or to its end.  A cancellation requested meanwhile
    surfaces at the [await] as [CancelledError], which leaves the loop.
    [timestamp] is what [datetime.now(timezone.utc).isoformat()] returns
    should the segment read the clock. *)
Definition heartbeat_loop (tid : nat) (timestamp : string) : M unit :=
  found ← gets (λ w, tasks w !! tid);
  match found with
  | None => mret ()
  | Some t =>
      match pc t with
      | HbCreated =>
          if cancel_requested t then set_pc tid HbDone else loop_head tid
      | HbSleeping wake_at =>
          if cancel_requested t then set_pc tid HbDone
          else
            t_now ← gets now;
            if t_now <? wake_at then mret ()
            else
              stopping ← gets shutdown_initiated;
              if (stopping : bool) then set_pc tid HbDone
              else
                collect inc_heartbeats ;;
                emit (GroupSend "broadcast" (broadcast_event timestamp)) ;;
                set_pc tid HbSending
      | HbSending =>
          if cancel_requested t then set_pc tid HbDone
          else
            active ← gets (λ w, size (active_connections w));
            log DEBUG (HeartbeatSent active) ;;
            loop_head tid
      | HbDone => mret ()
      end
  end.

(** ** graceful_shutdown *)

Definition SHUTDOWN_WAIT : Z := 9.

(** The loop over [list(cls.active_connections)]; a pending
    [consumer.close(code=1001)] is kept as the pair of its arguments. *)
Fixpoint say_goodbye (socks : nat → socket) (snapshot : list nat)
    (pending : list (nat * Z)) : M (list (nat * Z)) :=
  match snapshot with
  | [] => mret pending
  | consumer :: rest =>
      setattr (set_graceful_close true) consumer ;;
      total ← attr message_count consumer;
      try_except (send consumer (socks consumer) (goodbye total)) (λ _, Some (mret ())) ;;
      say_goodbye socks rest (pending ++ [(consumer, 1001)])
  end.

(** When [asyncio.gather] of the pending closes, [return_exceptions=True], is done:
    [close_latency c] is the time the close of [c] takes to return or to
    fail, [None] if it does neither. *)
Fixpoint gather_done (close_latency : nat → option Z) (pending : list (nat * Z)) : option Z :=
  match pending with
  | [] => Some 0
  | (c, _) :: rest =>
      match close_latency c, gather_done close_latency rest with
      | Some d, Some m => Some (Z.max d m)
      | _, _ => None
      end
  end.

Fixpoint start_all (pending : list (nat * Z)) : M unit :=
  match pending with
  | [] => mret ()
  | (c, code) :: rest => close c code ;; start_all rest
  end.

Definition sleep (d : Z) : M unit := modify (λ w, with_now (now w + d) w).

(** [await asyncio.wait_for(asyncio.gather(...), timeout)]. *)
Definition wait_for_gather (close_latency : nat → option Z) (pending : list (nat * Z))
    (timeout : Z) : M unit :=
  start_all pending ;;
  match gather_done close_latency pending with
  | Some d =>
      if d <? milliseconds timeout then sleep d
      else sleep (milliseconds timeout) ;; raise TimeoutError
  | None => sleep (milliseconds timeout) ;; raise TimeoutError
  end.

Definition graceful_shutdown (socks : nat → socket) (close_latency : nat → option Z) : M unit :=
  shutdown_start ← gets now;
  modify (with_shutdown true) ;;
  active ← gets (λ w, size (active_connections w));
  log INFO (StartingGracefulShutdown active) ;;
  running ← gets heartbeat_task;
  match running with
  | Some tid => cancel tid
  | None => mret ()
  end ;;
  snapshot ← gets (λ w, elements (active_connections w));
  pending ← say_goodbye socks snapshot [];
  match pending with
  | [] => mret ()
  | _ => wait_for_gather close_latency pending SHUTDOWN_WAIT
  end ;;
  t ← gets now;
  let shutdown_duration := t - shutdown_start in
  collect (observe_shutdown_duration shutdown_duration) ;;
  log INFO (GracefulShutdownCompleted shutdown_duration).

(** ** The running process *)

(** What can happen next: time passes, the server hands a new socket, a
    frame or a close to a consumer, the channel layer delivers a broadcast,
    the process is told to stop, or the event loop resumes a heartbeat
    task. *)
Inductive event : Type :=
| Tick (dt : N)
| Connects (c : nat) (connection_uuid : string) (query_string : decode_result)
    (new_uuid : string) (io : backend)
| Receives (c : nat) (sock : socket) (text_data : loads_result)
| Disconnects (c : nat) (sock : socket) (close_code : Z) (io : backend)
| Delivers (c : nat) (sock : socket) (event : json)
| Sigterm (socks : nat → socket) (close_latency : nat → option Z)
| Resumes (tid : nat) (timestamp : string).

Definition exec (m : M unit) (w : world) : world := snd (m w).

Definition step (e : event) (w : world) : world :=
  match e with
  | Tick dt => with_now (now w + Z.of_N dt) w
  | Connects c connection_uuid query_string new_uuid io =>
      match consumers w !! c with
      | Some _ => w
      | None =>
          exec (connect c query_string new_uuid io)
               (with_consumers (λ h, <[c := init connection_uuid]> h) w)
      end
  | Receives c sock text_data => exec (receive c sock text_data) w
  | Disconnects c sock close_code io => exec (disconnect c sock close_code io) w
  | Delivers c sock event => exec (broadcast_message c sock event) w
  | Sigterm socks close_latency => exec (graceful_shutdown socks close_latency) w
  | Resumes tid timestamp => exec (heartbeat_loop tid timestamp) w
  end.

Definition run (events : list event) (w : world) : world :=
  foldl (λ w e, step e w) w events.

Definition reachable (w : world) : Prop := ∃ epoch events, w = run events (initial epoch).

(** The heartbeat tasks that have not finished. *)
Definition active_task (t : task) : bool :=
  match pc t with
  | HbDone => false
  | _ => true
  end.

Definition active_heartbeats (w : world) : nat :=
  List.length (List.filter active_task (tasks w)).

(** The heartbeats published so far. *)
Definition is_publish (e : effect) : bool :=
  match e with
  | GroupSend _ _ => true
  | _ => false
  end.

Definition published (w : world) : list effect := List.filter is_publish (trace w).

(** ** What the properties are stated with *)

(** [data.get('message', '')] on a decoded object. *)
Definition message_of (items : list (string * json)) : json :=
  default (JStr "") (assoc "message" items).

Definition is_object (v : json) : bool :=
  match v with
  | JObj _ => true
  | _ => false
  end.

(** A frame that decodes to an object whose [message] is absent or has a
    length (a string, an array or an object). *)
Definition countable (frame : loads_result) : bool :=
  match frame with
  | Decoded (JObj items) => bool_decide (is_Some (len_of (message_of items)))
  | _ => false
  end.

(** The frames delivered to the client of [c], oldest first. *)
Definition sent_to (c : nat) (tr : list effect) : list json :=
  omap (λ e, match e with
             | Send c' v => if decide (c' = c) then Some v else None
             | _ => None
             end) tr.

(** The frames the server tried to send to [c], delivered or not. *)
Definition attempts_to (c : nat) (tr : list effect) : list json :=
  omap (λ e, match e with
             | Send c' v | SendFailed c' v => if decide (c' = c) then Some v else None
             | _ => None
             end) tr.

(** The codes with which the server closed [c]. *)
Definition closes_of (c : nat) (tr : list effect) : list Z :=
  omap (λ e, match e with
             | Close c' code => if decide (c' = c) then Some code else None
             | _ => None
             end) tr.

Definition cache_reads (tr : list effect) : list string :=
  omap (λ e, match e with CacheGet key => Some key | _ => None end) tr.

Definition cache_writes (tr : list effect) : list (string * Z * Z) :=
  omap (λ e, match e with
             | CacheSet key value timeout => Some (key, value, timeout)
             | _ => None
             end) tr.

Definition count_of (c : nat) (w : world) : option Z :=
  message_count <$> consumers w !! c.

(** The replies a connection whose count is [n] owes to [frames]. *)
Fixpoint expected_replies (n : Z) (frames : list loads_result) : list json :=
  match frames with
  | [] => []
  | NotJSON :: rest => error_reply "Invalid JSON" :: expected_replies n rest
  | Decoded _ :: rest => count_reply (n + 1) :: expected_replies (n + 1) rest
  | _ :: rest => error_reply "Internal error" :: expected_replies n rest
  end.

Definition is_count_reply (v : json) : bool :=
  match v with
  | JObj [("count", JInt _)] => true
  | _ => false
  end.

(** The session identifier [connect] reads from the query string. *)
Definition session_of_query (query_string : string) : option string :=
  if str_contains "session_uuid=" query_string then
    rest ← str_split "session_uuid=" query_string !! 1%nat;
    str_split "&" rest !! 0%nat
  else None.

(** What [disconnect] stores for a consumer: its session and count, if
    the session is neither [None] nor empty and the count is positive. *)
Definition persisted (s : consumer) : option (string * Z) :=
  match truthy_session (session_id s) with
  | Some session => if 0 <? message_count s then Some (session, message_count s) else None
  | None => None
  end.

(** Whether [disconnect] gets past its calls to the channel layer and to
    the cache: [group_discard] must answer, and so must [cache.set] if
    there is a record to store. *)
Definition runs_through (io : backend) (s : consumer) : bool :=
  layer_up io && (cache_up io || match persisted s with
                                | Some _ => false
                                | None => true
                                end).

(** The goodbye [disconnect] attempts, if any. *)
Definition farewell (c : nat) (sock : socket) (close_code : Z) (s : consumer) : list effect :=
  if negb (graceful_close s) && negb (close_code =? 1001) then
    [match sock with
     | SockOpen => Send c (goodbye (message_count s))
     | SockGone => SendFailed c (goodbye (message_count s))
     end]
  else [].

(** The task whose cancellation [disconnect] of [c] requests, if any. *)
Definition cancelled_by_disconnect (c : nat) (s : consumer) (w : world) : option nat :=
  match own_heartbeat_task s with
  | Some v => if bool_decide (size (active_connections w ∖ {[c]}) = 0%nat) then v else None
  | None => if bool_decide (size (active_connections w ∖ {[c]}) = 0%nat)
            then heartbeat_task w else None
  end.

(** Whether [connect] of [c] creates a heartbeat task. *)
Definition starts_heartbeat (c : nat) (s : consumer) (w : world) : bool :=
  bool_decide (size ({[c]} ∪ active_connections w) = 1%nat)
  && negb (bool_decide (is_Some (match own_heartbeat_task s with
                                 | Some v => v
                                 | None => heartbeat_task w
                                 end))).

(** Whether [connect], outside a shutdown, gets as far as [accept] and
    the registration: the query string must decode, and the cache must
    answer if a session is to be looked up. *)
Definition admitted (query_string : decode_result) (io : backend) : bool :=
  match query_string with
  | Text query_params => cache_up io || negb (str_contains "session_uuid=" query_params)
  | NotUTF8 => false
  end.

(** The count [connect] recovers for a query string, if any. *)
Definition recovered (query_string : string) (w : world) : option Z :=
  session ← session_of_query query_string; cache_get (cache_key session) w.

(** The goodbye [graceful_shutdown] attempts on the connection [c]. *)
Definition goodbye_effect (socks : nat → socket) (w : world) (c : nat) : effect :=
  match socks c with
  | SockOpen => Send c (goodbye (message_count (consumers w !!! c)))
  | SockGone => SendFailed c (goodbye (message_count (consumers w !!! c)))
  end.

(** When the closes of [snapshot] are all done within the wait of
    [graceful_shutdown]: after [d] milliseconds, or [None] if the wait
    times out. *)
Definition closing_time (close_latency : nat → option Z) (snapshot : list nat) : option Z :=
  match gather_done close_latency (map (λ c, (c, 1001)) snapshot) with
  | Some d => if d <? milliseconds SHUTDOWN_WAIT then Some d else None
  | None => None
  end.

Definition is_completion (e : effect) : bool :=
  match e with
  | Log _ (GracefulShutdownCompleted _) => true
  | _ => false
  end.

(** ** Relations between worlds *)

(** [keeps R m]: running [m] takes a world to an [R]-related one, whether
    [m] returns or raises. *)
Definition keeps (R : relation world) {A : Type} (m : M A) : Prop :=
  ∀ w, R w (m w).2.

(** A relation between worlds that no handler can leave: it tolerates
    every update a handler makes, as long as no heartbeat is published,
    the heartbeat counter is not touched and the shutdown flag is not
    lowered. *)
Class Frame (R : relation world) : Prop := {
  frame_preorder :: PreOrder R;
  frame_consumers : ∀ f w, R w (with_consumers f w);
  frame_active : ∀ f w, R w (with_active f w);
  frame_tasks : ∀ f w, R w (with_tasks f w);
  frame_cache : ∀ f w, R w (with_cache f w);
  frame_now : ∀ t w, R w (with_now t w);
  frame_shutdown : ∀ w, R w (with_shutdown true w);
  frame_emit : ∀ e w, is_publish e = false → R w (with_trace (λ t, t ++ [e]) w);
  frame_collect : ∀ f w,
    (∀ m, websocket_heartbeats (f m) = websocket_heartbeats m) →
    R w (with_collectors f w)
}.

Definition same_class_task (w w' : world) : Prop := heartbeat_task w' = heartbeat_task w.

(** Once the flag is set it stays set, nothing more is published and
    the heartbeat counter stands still. *)
Definition quiet_after_shutdown (w w' : world) : Prop :=
  shutdown_initiated w = true →
  shutdown_initiated w' = true
  ∧ published w' = published w
  ∧ websocket_heartbeats (collectors w') = websocket_heartbeats (collectors w).

(** ** Scenarios *)

(** Redis answers. *)
Definition redis_up : backend := Backend true true.

(** An open connection right after its handshake. *)
Definition fresh_connection : world :=
  step (Connects 1 "c-1" (Text "") "s-1" redis_up) (initial 1).

Definition chat (text : string) : loads_result := Decoded (JObj [("message", JStr text)]).

(** A process with one open connection that has been told to stop. *)
Definition stopping : world :=
  step (Sigterm (λ _, SockOpen) (λ _, Some 5)) fresh_connection.

(** A connection that counted three messages in the session [S1]. *)
Definition three_messages : world :=
  run (Connects 1 "c-1" (Text "session_uuid=S1") "s-1" redis_up
       :: map (Receives 1 SockOpen) [chat "a"; chat "b"; chat "c"]) (initial 1).

(** A second socket has arrived: its consumer is instantiated and
    [connect] has not run yet. *)
Definition second_socket : world :=
  with_consumers (λ h, <[2%nat := init "c-2"]> h) fresh_connection.

(** One connection, its heartbeat task asleep. *)
Definition heartbeat_asleep : world := step (Resumes 0 "t0") fresh_connection.

(** Two connections come and go, the one that created the heartbeat task
    leaving first. *)
Definition registry_emptied : world :=
  run [Connects 1 "c-1" (Text "") "s-1" redis_up; Resumes 0 "t0";
       Connects 2 "c-2" (Text "") "s-2" redis_up;
       Disconnects 1 SockGone 1000 redis_up; Disconnects 2 SockGone 1000 redis_up]
      (initial 1).

(** ** Further notions *)

(** A frame that decodes to a JSON object, whatever its members. *)
Definition decodes_to_object (frame : loads_result) : bool :=
  match frame with
  | Decoded v => is_object v
  | _ => false
  end.

(** The name of the query parameter, without the equals sign. *)
Definition SESSION_PARAMETER : string := "session_uuid".

(** The heartbeat counter and the list of published heartbeats grow
    together. *)
Definition heartbeats_accounted (w w' : world) : Prop :=
  websocket_heartbeats (collectors w') - Z.of_nat (List.length (published w'))
  = websocket_heartbeats (collectors w) - Z.of_nat (List.length (published w)).

(** Everything published to the channel layer is a heartbeat for the
    group [broadcast]. *)
Definition only_heartbeats (w : world) : Prop :=
  ∀ e, e ∈ published w → ∃ timestamp, e = GroupSend "broadcast" (broadcast_event timestamp).

Definition publishes_heartbeats (w w' : world) : Prop :=
  only_heartbeats w → only_heartbeats w'.

(** ** Relations kept under conditions on the update *)

(** A relation between worlds that every update a handler makes keeps,
    provided the update of an instance attribute, of the registry, of the
    cache or of a collector, or the effect appended to the trace, meets
    the condition named for it. *)
Class Rules (R : relation world)
    (attr_ok : (consumer → consumer) → nat → Prop)
    (active_ok : (gset nat → gset nat) → Prop)
    (cache_ok : (gmap string (Z * Z) → gmap string (Z * Z)) → Prop)
    (collect_ok : (metrics → metrics) → Prop)
    (emit_ok : effect → Prop) : Prop := {
  rules_preorder :: PreOrder R;
  rules_setattr : ∀ g c w, attr_ok g c → R w (with_consumers (alter g c) w);
  rules_active : ∀ f w, active_ok f → R w (with_active f w);
  rules_cache : ∀ f w, cache_ok f → R w (with_cache f w);
  rules_collect : ∀ f w, collect_ok f → R w (with_collectors f w);
  rules_emit : ∀ e w, emit_ok e → R w (with_trace (λ t, t ++ [e]) w);
  rules_tasks : ∀ f w, R w (with_tasks f w);
  rules_now : ∀ t w, R w (with_now t w);
  rules_shutdown : ∀ w, R w (with_shutdown true w)
}.

(** The effects [graceful_shutdown] has: frames and closes towards the
    clients, and log records. *)
Definition to_client_or_log (e : effect) : bool :=
  match e with
  | Send _ _ | SendFailed _ _ | Close _ _ | Log _ _ => true
  | _ => false
  end.

(** The attribute (or attributes) [f] of the consumer [c] is the same in
    both worlds. *)
Definition same_attr {A : Type} (f : consumer → A) (c : nat) (w w' : world) : Prop :=
  f <$> consumers w' !! c = f <$> consumers w !! c.

(** The same consumer instances exist in both worlds. *)
Definition same_instances (w w' : world) : Prop :=
  dom (consumers w') = dom (consumers w).

(** The registry and the gauge of active connections are the same in
    both worlds. *)
Definition same_registry (w w' : world) : Prop :=
  active_connections w' = active_connections w
  ∧ websocket_connections (collectors w') = websocket_connections (collectors w).

(** The number of frames of [events] that reach the connection [c] and
    decode to an object. *)
Definition is_object_for (c : nat) (e : event) : bool :=
  match e with
  | Receives c' _ frame => bool_decide (c' = c) && decodes_to_object frame
  | _ => false
  end.

Definition objects_received (c : nat) (events : list event) : Z :=
  Z.of_nat (List.length (List.filter (is_object_for c) events)).

(** The gauge of active connections shows the size of the registry, and
    every registered connection has its consumer instance. *)
Definition gauge_in_step (w : world) : Prop :=
  websocket_connections (collectors w) = Z.of_nat (size (active_connections w))
  ∧ active_connections w ⊆ dom (consumers w).

(** [disconnect] is called for connections that are registered only. *)
Definition of_registered (e : event) (w : world) : bool :=
  match e with
  | Disconnects c _ _ _ => bool_decide (c ∈ active_connections w)
  | _ => true
  end.

Fixpoint orderly (events : list event) (w : world) : bool :=
  match events with
  | [] => true
  | e :: rest => of_registered e w && orderly rest (step e w)
  end.

(** What [__init__] and [connect] fix for a connection. *)
Definition identity (s : consumer) : option string * string * Z :=
  (session_id s, connection_id s, connection_start s).

(** The consumer [c], once marked as told goodbye, stays marked. *)
Definition stays_marked (c : nat) (w w' : world) : Prop :=
  graceful_close <$> consumers w !! c = Some true →
  graceful_close <$> consumers w' !! c = Some true.

(** ** The lifespan protocol and the probes *)

(** What [config/asgi.py] does on the lifespan channel: the messages it
    sends to the ASGI server and the records of its logger. *)
Inductive asgi_effect : Type :=
| AsgiSend (type : string)
| AsgiLog (message : string).

(** The process as the lifespan handler and the probes of
    [config/urls.py] see it: the gauges [app_ready] and [app_healthy] of
    [chat/metrics.py], which start at 0, and the chat consumers. *)
Record server : Type := Server {
  app_ready : Z;
  app_healthy : Z;
  asgi_trace : list asgi_effect;
  chat_process : world
}.

Definition booting (w : world) : server :=
  {| app_ready := 0; app_healthy := 0; asgi_trace := []; chat_process := w |}.

Definition set_app_ready (v : Z) (sv : server) : server :=
  {| app_ready := v; app_healthy := app_healthy sv; asgi_trace := asgi_trace sv;
     chat_process := chat_process sv |}.

Definition set_app_healthy (v : Z) (sv : server) : server :=
  {| app_ready := app_ready sv; app_healthy := v; asgi_trace := asgi_trace sv;
     chat_process := chat_process sv |}.

Definition asgi_emit (e : asgi_effect) (sv : server) : server :=
  {| app_ready := app_ready sv; app_healthy := app_healthy sv;
     asgi_trace := asgi_trace sv ++ [e]; chat_process := chat_process sv |}.

Definition with_chat_process (f : world → world) (sv : server) : server :=
  {| app_ready := app_ready sv; app_healthy := app_healthy sv;
     asgi_trace := asgi_trace sv; chat_process := f (chat_process sv) |}.

(** [lifespan] up to its [yield]. *)
Definition lifespan_startup (sv : server) : server :=
  set_app_healthy 1 (set_app_ready 1 (asgi_emit (AsgiLog "Application starting up...") sv)).

(** [lifespan] after its [yield], run when the body of the [async with]
    is left normally. *)
Definition lifespan_shutdown (socks : nat → socket) (close_latency : nat → option Z)
    (sv : server) : result unit * server :=
  let sv1 := set_app_ready 0 (asgi_emit (AsgiLog "Application shutting down...") sv) in
  match graceful_shutdown socks close_latency (chat_process sv1) with
  | (Ok _, w') =>
      (Ok (), asgi_emit (AsgiLog "Application shutdown complete")
                (with_chat_process (λ _, exec (sleep 500) w') sv1))
  | (Raise e, w') => (Raise e, with_chat_process (λ _, w') sv1)
  end.

(** The loop of [LifespanApp.__call__] over the messages [receive()]
    returns, in order; [None] when the loop is still waiting after the
    last of them. *)
Fixpoint serve_lifespan (messages : list string) (sv : server) : option server :=
  match messages with
  | [] => None
  | type :: rest =>
      if bool_decide (type = "lifespan.startup") then
        serve_lifespan rest (asgi_emit (AsgiSend "lifespan.startup.complete") sv)
      else if bool_decide (type = "lifespan.shutdown") then
        Some (asgi_emit (AsgiSend "lifespan.shutdown.complete") sv)
      else serve_lifespan rest sv
  end.

(** [LifespanApp.__call__] for a scope of type [lifespan].  [during] is
    what happens to the chat consumers while the loop waits for its
    messages; the loop and the consumers touch no common state. *)
Definition LifespanApp_call (messages : list string) (during : list event)
    (socks : nat → socket) (close_latency : nat → option Z) (sv : server)
    : option (result unit * server) :=
  sv1 ← serve_lifespan messages (lifespan_startup sv);
  Some (lifespan_shutdown socks close_latency (with_chat_process (run during) sv1)).

(** What a probe needs from outside the process: whether the database
    answers [SELECT 1] or the cursor raises, whether the cache gives back
    what was just set or raises, and whether [STATIC_ROOT] exists. *)
Inductive outcome (A : Type) : Type :=
| Fine (a : A)
| Fails (error : string).
Arguments Fine {A} a.
Arguments Fails {A} error.

Record surroundings : Type := Surroundings {
  database : outcome unit;
  redis : outcome bool;
  static_files : bool
}.

Record response : Type := Response {
  status_code : Z;
  content : list (string * json)
}.

(** [health_check] of [config/urls.py]; [timestamp] is [time.time()]. *)
Definition health_check (timestamp : string) (sv : server) : response :=
  if app_healthy sv =? 1 then
    Response 200 [("status", JStr "healthy"); ("timestamp", JFloat timestamp);
                  ("service", JStr "django-websocket")]
  else
    Response 503 [("status", JStr "unhealthy"); ("timestamp", JFloat timestamp)].

(** [readiness_check] of [config/urls.py].  The entry the probe sets in
    the cache and reads back is under the key [readiness_check], which is
    no session key; [redis env] is what the comparison of the value read
    back gives. *)
Definition readiness_check (env : surroundings) (timestamp : string) (sv : server)
    : response :=
  let failed error :=
    Response 503 [("ready", JBool false); ("error", JStr error);
                  ("timestamp", JFloat timestamp)] in
  let ready := app_ready sv =? 1 in
  match database env with
  | Fails error => failed error
  | Fine _ =>
      match redis env with
      | Fails error => failed error
      | Fine cached =>
          let all_ready := ready && true && cached && static_files env in
          Response (if all_ready then 200 else 503)
            [("ready", JBool all_ready);
             ("checks", JObj [("app_ready", JBool ready); ("database", JBool true);
                              ("redis", JBool cached);
                              ("static_files", JBool (static_files env))]);
             ("timestamp", JFloat timestamp)]
      end
  end.

(** ** Where session records come from *)

Definition is_cache_set (e : effect) : bool :=
  match e with
  | CacheSet _ _ _ => true
  | _ => false
  end.

(** The cache and the list of its writes are the same in both worlds. *)
Definition same_cache (w w' : world) : Prop :=
  cache w' = cache w ∧ cache_writes (trace w') = cache_writes (trace w).

Definition is_disconnect (e : event) : bool :=
  match e with
  | Disconnects _ _ _ _ => true
  | _ => false
  end.

(** * Properties *)

(** ** Running a handler *)

Ltac run_handler :=
  cbv beta iota zeta delta
    [try_except mbind M_bind mret M_ret attr setattr gets modify emit log send
     close collect raise json_loads dict_get py_len subscript exec
     get_cached_session cache_session self_heartbeat_task create_task cancel
     set_pc loop_head sleep].

(** Running the first computation of a sequence. *)
Lemma bind_ok {A B} (m : M A) (k : A → M B) w a w1 :
  m w = (Ok a, w1) → (m ≫= k) w = k a w1.
Proof. intros H. unfold mbind, M_bind. by rewrite H. Qed.

Lemma bind_raise {A B} (m : M A) (k : A → M B) w e w1 :
  m w = (Raise e, w1) → (m ≫= k) w = (Raise e, w1).
Proof. intros H. unfold mbind, M_bind. by rewrite H. Qed.

Ltac step := erewrite bind_ok by reflexivity; cbv beta.

Ltac fields :=
  cbn [now active_connections heartbeat_task trace collectors tasks cache consumers
       shutdown_initiated with_shutdown with_trace with_tasks with_collectors
       with_now with_cache with_consumers with_active].

Ltac fields_in H :=
  cbn [now active_connections heartbeat_task trace collectors tasks cache consumers
       shutdown_initiated with_shutdown with_trace with_tasks with_collectors
       with_now with_cache with_consumers with_active] in H.

(** A send whose failure is swallowed by a bare [except]. *)
Lemma swallowed_send c sock v w :
  try_except (send c sock v) (λ _, Some (mret ())) w
  = (Ok (), with_trace (λ t, t ++ [match sock with
                                   | SockOpen => Send c v
                                   | SockGone => SendFailed c v
                                   end]) w).
Proof. by destruct sock. Qed.

Lemma lookup_total_Some (h : gmap nat consumer) c s :
  h !! c = Some s → h !!! c = s.
Proof. intros H. by rewrite lookup_total_alt, H. Qed.

Lemma lookup_total_alter_Some (h : gmap nat consumer) g c s :
  h !! c = Some s → alter g c h !!! c = g s.
Proof. intros H. by rewrite lookup_total_alter_eq, H. Qed.

Lemma lookup_alter_Some (h : gmap nat consumer) g c s :
  h !! c = Some s → alter g c h !! c = Some (g s).
Proof. intros H. by rewrite lookup_alter_eq, H. Qed.

(** ** receive *)

Lemma receive_countable c items n_len w s :
  consumers w !! c = Some s →
  len_of (message_of items) = Some n_len →
  receive c SockOpen (Decoded (JObj items)) w =
    (Ok (),
     with_trace (λ t, t ++ [Send c (count_reply (message_count s + 1));
                            Log DEBUG (MessageReceived c (session_id s)
                                         (message_count s + 1) n_len)])
       (with_collectors inc_messages
          (with_consumers (alter (set_message_count (message_count s + 1)) c) w))).
Proof.
  intros Hs Hlen. destruct w as [ac si ht h ts ca co t tr]. cbn in Hs.
  unfold receive. run_handler. cbn.
  fold (message_of items). rewrite Hlen.
  rewrite (lookup_total_Some _ _ _ Hs), (lookup_total_alter_Some _ _ _ _ Hs).
  cbn. unfold with_trace. cbn. by rewrite <- app_assoc.
Qed.

Lemma receive_not_json c w :
  receive c SockOpen NotJSON w =
    (Ok (),
     with_trace (λ t, t ++ [Send c (error_reply "Invalid JSON")])
       (with_collectors (inc_errors invalid_json) w)).
Proof. reflexivity. Qed.

Lemma receive_not_object c v w :
  is_object v = false →
  receive c SockOpen (Decoded v) w =
    (Ok (),
     with_trace (λ t, t ++ [Log ERROR (ReceiveError AttributeError);
                            Send c (error_reply "Internal error")])
       (with_collectors (inc_errors receive_error) w)).
Proof.
  intros Hv. destruct w as [ac si ht h ts ca co t tr].
  destruct v; try discriminate Hv;
    unfold receive; run_handler; cbn; unfold with_trace; cbn;
    by rewrite <- app_assoc.
Qed.

Lemma sent_to_app c tr1 tr2 : sent_to c (tr1 ++ tr2) = sent_to c tr1 ++ sent_to c tr2.
Proof. apply omap_app. Qed.

Lemma attempts_to_app c tr1 tr2 :
  attempts_to c (tr1 ++ tr2) = attempts_to c tr1 ++ attempts_to c tr2.
Proof. apply omap_app. Qed.

Lemma closes_of_app c tr1 tr2 : closes_of c (tr1 ++ tr2) = closes_of c tr1 ++ closes_of c tr2.
Proof. apply omap_app. Qed.

Lemma cache_reads_app tr1 tr2 : cache_reads (tr1 ++ tr2) = cache_reads tr1 ++ cache_reads tr2.
Proof. apply omap_app. Qed.

Lemma cache_writes_app tr1 tr2 :
  cache_writes (tr1 ++ tr2) = cache_writes tr1 ++ cache_writes tr2.
Proof. apply omap_app. Qed.

Lemma sent_to_self c v : sent_to c [Send c v] = [v].
Proof. unfold sent_to. cbn. by rewrite decide_True. Qed.

Lemma countable_inv frame :
  countable frame = true →
  ∃ items n_len, frame = Decoded (JObj items) ∧ len_of (message_of items) = Some n_len.
Proof.
  destruct frame as [v| | |]; try discriminate. destruct v; try discriminate.
  cbn. intros H. apply bool_decide_eq_true in H as [n_len H]. eauto.
Qed.

(** One frame, as a step of the process. *)
Lemma receives_countable_step c frame w s :
  consumers w !! c = Some s →
  countable frame = true →
  consumers (step (Receives c SockOpen frame) w) !! c
    = Some (set_message_count (message_count s + 1) s)
  ∧ sent_to c (trace (step (Receives c SockOpen frame) w))
    = sent_to c (trace w) ++ [count_reply (message_count s + 1)]
  ∧ closes_of c (trace (step (Receives c SockOpen frame) w)) = closes_of c (trace w).
Proof.
  intros Hs Hf.
  destruct (countable_inv _ Hf) as (items & n_len & -> & Hlen).
  unfold step, exec. rewrite (receive_countable _ _ _ _ _ Hs Hlen).
  cbn [snd trace with_trace with_collectors with_consumers consumers].
  rewrite (lookup_alter_Some _ _ _ _ Hs), sent_to_app, closes_of_app.
  unfold sent_to at 2. cbn. rewrite decide_True by done.
  unfold closes_of at 2. cbn. by rewrite app_nil_r.
Qed.

Lemma receives_not_json_step c w :
  consumers (step (Receives c SockOpen NotJSON) w) = consumers w
  ∧ sent_to c (trace (step (Receives c SockOpen NotJSON) w))
    = sent_to c (trace w) ++ [error_reply "Invalid JSON"]
  ∧ closes_of c (trace (step (Receives c SockOpen NotJSON) w)) = closes_of c (trace w).
Proof.
  unfold step, exec. rewrite receive_not_json.
  cbn [snd trace with_trace with_collectors with_consumers consumers].
  rewrite sent_to_app, closes_of_app, sent_to_self.
  unfold closes_of at 2. cbn. by rewrite app_nil_r.
Qed.

Lemma run_cons e events w : run (e :: events) w = run events (step e w).
Proof. reflexivity. Qed.

Lemma run_app events1 events2 w :
  run (events1 ++ events2) w = run events2 (run events1 w).
Proof. unfold run. apply foldl_app. Qed.

Lemma receives_run c frames : ∀ w s,
  consumers w !! c = Some s →
  Forall (λ f, countable f = true ∨ f = NotJSON) frames →
  count_of c (run (map (Receives c SockOpen) frames) w)
    = Some (message_count s + Z.of_nat (List.length (List.filter countable frames)))
  ∧ sent_to c (trace (run (map (Receives c SockOpen) frames) w))
    = sent_to c (trace w) ++ expected_replies (message_count s) frames
  ∧ closes_of c (trace (run (map (Receives c SockOpen) frames) w))
    = closes_of c (trace w).
Proof.
  induction frames as [|f frames IH]; intros w s Hs Hall.
  - cbn. unfold count_of. rewrite Hs. cbn. rewrite Z.add_0_r, app_nil_r. done.
  - apply Forall_cons in Hall as [Hf Hall].
    cbn [map]. rewrite run_cons. destruct Hf as [Hf | ->].
    + destruct (receives_countable_step c f w s Hs Hf) as (Hs' & Hsent & Hclose).
      destruct (IH _ _ Hs' Hall) as (Hcount & Hsent' & Hclose').
      rewrite Hcount, Hsent', Hclose', Hsent, Hclose. cbn [List.filter].
      rewrite Hf. destruct (countable_inv _ Hf) as (items & n_len & -> & _).
      cbn [message_count set_message_count expected_replies List.length].
      rewrite <- app_assoc. cbn [app]. repeat split; try done. f_equal. lia.
    + destruct (receives_not_json_step c w) as (Hs' & Hsent & Hclose).
      rewrite <- Hs' in Hs.
      destruct (IH _ _ Hs Hall) as (Hcount & Hsent' & Hclose').
      rewrite Hcount, Hsent', Hclose', Hsent, Hclose.
      cbn [List.filter countable expected_replies].
      rewrite <- app_assoc. done.
Qed.

Lemma is_count_reply_count n : is_count_reply (count_reply n) = true.
Proof. reflexivity. Qed.

Lemma count_replies_of_expected frames : ∀ n,
  Forall (λ f, countable f = true ∨ f = NotJSON) frames →
  List.filter is_count_reply (expected_replies n frames) =
    map (λ i, count_reply (n + Z.of_nat i))
        (seq 1 (List.length (List.filter countable frames))).
Proof.
  induction frames as [|f frames IH]; intros n Hall; [done|].
  apply Forall_cons in Hall as [Hf Hall]. destruct Hf as [Hf | ->].
  - destruct (countable_inv _ Hf) as (items & n_len & -> & _).
    cbn [expected_replies List.filter]. rewrite Hf, is_count_reply_count.
    cbn [List.length seq map]. rewrite IH by done. f_equal.
    rewrite <- (seq_shift _ 1), map_map.
    apply map_ext. intros i. f_equal. lia.
  - cbn [expected_replies List.filter countable]. apply IH, Hall.
Qed.

(** C1 (as amended).  On an open connection [c] whose count is
    [message_count s]: a text frame that decodes to a JSON object whose
    [message] is absent or has a length makes [receive] raise the count
    by exactly one and reply [{"count": <new count>}]; a frame on which
    [json.loads] raises [JSONDecodeError] is answered by
    [{"error": "Invalid JSON"}] with the count unchanged; either way
    [receive] returns normally and closes nothing.  Hence over a sequence
    of such frames with [K] countable ones the count replies are
    [{"count": n+1}], ..., [{"count": n+K}] in this order, [n] being the
    count at the start, and each undecodable frame gets the error reply
    at its place. *)
Theorem C1_receive_counts_objects (c : nat) (w : world) (s : consumer) :
  consumers w !! c = Some s →
  (∀ frame, countable frame = true →
     ∃ w', receive c SockOpen frame w = (Ok (), w')
       ∧ count_of c w' = Some (message_count s + 1)
       ∧ sent_to c (trace w') = sent_to c (trace w) ++ [count_reply (message_count s + 1)]
       ∧ closes_of c (trace w') = closes_of c (trace w))
  ∧ (∃ w', receive c SockOpen NotJSON w = (Ok (), w')
       ∧ count_of c w' = Some (message_count s)
       ∧ sent_to c (trace w') = sent_to c (trace w) ++ [error_reply "Invalid JSON"]
       ∧ closes_of c (trace w') = closes_of c (trace w))
  ∧ (∀ frames, Forall (λ f, countable f = true ∨ f = NotJSON) frames →
       let w' := run (map (Receives c SockOpen) frames) w in
       let K := List.length (List.filter countable frames) in
       count_of c w' = Some (message_count s + Z.of_nat K)
       ∧ sent_to c (trace w') = sent_to c (trace w) ++ expected_replies (message_count s) frames
       ∧ List.filter is_count_reply (expected_replies (message_count s) frames)
         = map (λ i, count_reply (message_count s + Z.of_nat i)) (seq 1 K)
       ∧ closes_of c (trace w') = closes_of c (trace w)).
Proof.
  intros Hs. split; [|split].
  - intros frame Hf.
    destruct (receives_countable_step c frame w s Hs Hf) as (Hs' & Hsent & Hclose).
    destruct (countable_inv _ Hf) as (items & n_len & -> & Hlen).
    unfold step, exec in Hs', Hsent, Hclose.
    rewrite (receive_countable _ _ _ _ _ Hs Hlen) in *.
    eexists. split; [reflexivity|]. unfold count_of.
    cbn [snd] in *. rewrite Hs'. split; [reflexivity|]. split; assumption.
  - destruct (receives_not_json_step c w) as (Hs' & Hsent & Hclose).
    unfold step, exec in Hs', Hsent, Hclose. rewrite receive_not_json in *.
    eexists. split; [reflexivity|]. unfold count_of.
    cbn [snd] in *. rewrite Hs', Hs. split; [reflexivity|]. split; assumption.
  - intros frames Hall. cbn zeta.
    destruct (receives_run c frames w s Hs Hall) as (Hcount & Hsent & Hclose).
    repeat split; try done. by apply count_replies_of_expected.
Qed.

Lemma C1_receive_counts_objects_witness :
  consumers fresh_connection !! 1%nat
    = Some {| session_id := Some "s-1"; message_count := 0; connection_start := 1;
              connection_id := "c-1"; graceful_close := false;
              own_heartbeat_task := Some (Some 0%nat) |}
  ∧ sent_to 1 (trace (run (map (Receives 1 SockOpen) [chat "a"; NotJSON; chat "b"])
                          fresh_connection))
    = [count_reply 1; error_reply "Invalid JSON"; count_reply 2].
Proof.
  split; [reflexivity|].
  destruct (C1_receive_counts_objects 1 fresh_connection _ eq_refl) as (_ & _ & Hrun).
  destruct (Hrun [chat "a"; NotJSON; chat "b"]) as (_ & Hsent & _).
  - repeat (apply Forall_cons_2; [first [left; reflexivity | right; reflexivity]|]).
    apply Forall_nil_2.
  - exact Hsent.
Defined.

(** C1 as the specification words it fails on a frame that decodes to
    JSON which is not an object: the bare number [42] leaves the count at
    0 and is answered by the internal-error frame. *)
Lemma C1_bare_number_is_not_counted :
  let w' := step (Receives 1 SockOpen (Decoded (JInt 42))) fresh_connection in
  count_of 1 fresh_connection = Some 0
  ∧ count_of 1 w' = Some 0
  ∧ sent_to 1 (trace w') = [error_reply "Internal error"]
  ∧ ¬ (count_of 1 w' = Some 1 ∧ sent_to 1 (trace w') = [count_reply 1]).
Proof.
  cbn zeta. repeat split; try reflexivity.
  intros [H _]. vm_compute in H. discriminate H.
Qed.

(** C10.  A text frame that decodes to JSON which is not an object (a
    number, a string, an array, a boolean, [null]) makes [receive], on an
    open connection, reply [{"error": "Internal error"}] and nothing else,
    leave every consumer (so every count) as it was, add one to the error
    counter under [receive_error] and to no other collector, return
    normally and close nothing. *)
Theorem C10_receive_non_object (c : nat) (v : json) (w : world) :
  is_object v = false →
  ∃ w', receive c SockOpen (Decoded v) w = (Ok (), w')
    ∧ sent_to c (trace w') = sent_to c (trace w) ++ [error_reply "Internal error"]
    ∧ consumers w' = consumers w
    ∧ websocket_errors (collectors w') receive_error
      = websocket_errors (collectors w) receive_error + 1
    ∧ websocket_errors (collectors w') invalid_json
      = websocket_errors (collectors w) invalid_json
    ∧ websocket_messages (collectors w') = websocket_messages (collectors w)
    ∧ closes_of c (trace w') = closes_of c (trace w)
    ∧ active_connections w' = active_connections w.
Proof.
  intros Hv. rewrite (receive_not_object _ _ _ Hv). eexists. split; [reflexivity|].
  cbn [trace with_trace with_collectors consumers collectors active_connections].
  rewrite sent_to_app, closes_of_app.
  unfold sent_to at 2, closes_of at 2. cbn. rewrite decide_True by done.
  rewrite app_nil_r. done.
Qed.

Lemma C10_receive_non_object_witness :
  is_object (JArr [JInt 1; JStr "two"]) = false
  ∧ ∃ w', receive 1 SockOpen (Decoded (JArr [JInt 1; JStr "two"])) fresh_connection = (Ok (), w')
      ∧ sent_to 1 (trace w') = [error_reply "Internal error"]
      ∧ count_of 1 w' = Some 0.
Proof.
  split; [reflexivity|].
  destruct (C10_receive_non_object 1 (JArr [JInt 1; JStr "two"]) fresh_connection eq_refl)
    as (w' & Hrun & Hsent & Hcons & _).
  exists w'. split; [exact Hrun|]. split; [exact Hsent|].
  unfold count_of. rewrite Hcons. reflexivity.
Defined.

(** ** disconnect *)

Ltac heap_lookups H :=
  rewrite ?(lookup_total_Some _ _ _ H), ?(lookup_total_alter_Some _ _ _ _ H).

Lemma disconnect_run c sock code io w s :
  consumers w !! c = Some s →
  ∃ w', disconnect c sock code io w = (Ok (), w')
    ∧ trace w' = trace w
        ++ (if layer_up io then [GroupDiscard "broadcast" c] else [])
        ++ (if layer_up io && cache_up io then
              match persisted s with
              | Some (session, n) => [CacheSet (cache_key session) n SESSION_TIMEOUT]
              | None => []
              end
            else [])
        ++ (if runs_through io s then
              farewell c sock code s
              ++ [Log INFO (WebSocketDisconnected c (session_id s) code (message_count s)
                              (if bool_decide (connection_start s ≠ 0)
                               then now w - connection_start s else 0)
                              (size (active_connections w ∖ {[c]})))]
            else [Log ERROR (DisconnectError RedisError)])
    ∧ cache w' = (if layer_up io && cache_up io then
                    match persisted s with
                    | Some (session, n) =>
                        <[cache_key session := (n, now w + milliseconds SESSION_TIMEOUT)]>
                          (cache w)
                    | None => cache w
                    end
                  else cache w)
    ∧ active_connections w' = active_connections w ∖ {[c]}
    ∧ tasks w' = (if runs_through io s then
                    match cancelled_by_disconnect c s w with
                    | Some tid => alter request_cancel tid (tasks w)
                    | None => tasks w
                    end
                  else tasks w)
    ∧ shutdown_initiated w' = shutdown_initiated w
    ∧ heartbeat_task w' = heartbeat_task w
    ∧ now w' = now w
    ∧ websocket_heartbeats (collectors w') = websocket_heartbeats (collectors w)
    ∧ websocket_connections (collectors w') = websocket_connections (collectors w) - 1
    ∧ count_of c w' = Some (message_count s)
    ∧ (∀ c', consumers w !! c' = None → consumers w' !! c' = None)
    ∧ websocket_errors (collectors w') disconnect_error
      = websocket_errors (collectors w) disconnect_error
        + (if runs_through io s then 0 else 1)
    ∧ websocket_connection_duration (collectors w')
      = websocket_connection_duration (collectors w)
        ++ (if bool_decide (connection_start s ≠ 0)
            then [now w - connection_start s] else []).
Proof.
  intros Hs. destruct w as [ac si ht h ts ca co t tr]. cbn in Hs.
  assert (Hother : ∀ g c', h !! c' = None → alter g c h !! c' = None).
  { intros g c' Hnone. rewrite lookup_alter_ne; [done|]. intros ->. congruence. }
  unfold disconnect, runs_through, persisted, farewell, cancelled_by_disconnect, count_of,
    via_redis.
  destruct io as [[|] [|]]; run_handler; cbn; heap_lookups Hs.
  all: destruct (bool_decide (connection_start s ≠ 0)); cbn; heap_lookups Hs.
  all: (destruct (truthy_session (session_id s)); [destruct (0 <? message_count s)|]); cbn;
    heap_lookups Hs.
  all: (destruct (negb (graceful_close s) && negb (code =? 1001)); [destruct sock|]); cbn;
    heap_lookups Hs.
  all: destruct (own_heartbeat_task s) as [[tid|]|]; [| |destruct ht as [tid|]]; cbn.
  all: try (destruct (bool_decide (size (ac ∖ {[c]}) = 0%nat)); cbn).
  all: eexists; (split; [reflexivity|]); cbn.
  all: rewrite <- ?app_assoc; cbn [app].
  all: rewrite ?app_nil_r, ?lookup_alter_eq, ?Hs; cbn.
  all: repeat split; try done; try lia; try apply Hother.
  all: by rewrite ?app_nil_r, <- ?app_assoc.
Qed.

(** ** Query strings *)

Lemma split_from_cons sep s : ∀ skip piece,
  ∃ first more, split_from sep skip piece s = first :: more.
Proof.
  induction s as [|a s IH]; intros skip piece; cbn [split_from]; [eauto|].
  destruct skip as [|k]; [|apply IH].
  destruct (String.prefix sep (String a s)); [eauto|apply IH].
Qed.

Lemma split_from_found sep s : ∀ piece,
  sep ≠ "" → str_contains sep s = true →
  ∃ first rest more, split_from sep 0 piece s = first :: rest :: more.
Proof.
  induction s as [|a s IH]; intros piece Hsep Hin.
  - destruct sep; [done|discriminate Hin].
  - cbn [str_contains] in Hin. cbn [split_from].
    destruct (String.prefix sep (String a s)) eqn:Hp.
    + destruct (split_from_cons sep s (String.length sep - 1) "") as (x & l & ->). eauto.
    + apply IH; done.
Qed.

Lemma str_app_nil_r s : s +:+ "" = s.
Proof.
  induction s as [|a s IH]; [reflexivity|].
  change (String a (s +:+ "") = String a s). by rewrite IH.
Qed.

Lemma str_app_assoc s1 s2 s3 : (s1 +:+ s2) +:+ s3 = s1 +:+ (s2 +:+ s3).
Proof.
  induction s1 as [|a s1 IH]; [reflexivity|].
  change (String a ((s1 +:+ s2) +:+ s3) = String a (s1 +:+ (s2 +:+ s3))). by rewrite IH.
Qed.

Lemma split_from_absent sep s : ∀ piece,
  str_contains sep s = false → split_from sep 0 piece s = [piece +:+ s].
Proof.
  induction s as [|a s IH]; intros piece Hin.
  - cbn. by rewrite str_app_nil_r.
  - cbn [str_contains] in Hin. cbn [split_from].
    destruct (String.prefix sep (String a s)); [discriminate Hin|].
    rewrite IH by done. by rewrite str_app_assoc.
Qed.

Lemma prefix_append p s : String.prefix p (p +:+ s) = true.
Proof.
  induction p as [|a p IH]; [by destruct s|].
  change (String.prefix (String a p) (String a (p +:+ s)) = true).
  cbn [String.prefix]. by destruct (ascii_dec a a).
Qed.

Lemma str_contains_prefix p s : String.prefix p s = true → str_contains p s = true.
Proof. intros H. destruct s; cbn [str_contains]; by rewrite H. Qed.

Lemma split_from_skip sep p s : ∀ piece,
  split_from sep (String.length p) piece (p +:+ s) = split_from sep 0 piece s.
Proof.
  induction p as [|a p IH]; intros piece; [reflexivity|].
  change (split_from sep (S (String.length p)) piece (String a (p +:+ s))
          = split_from sep 0 piece s).
  cbn [split_from]. apply IH.
Qed.

Lemma split_from_leading a p s piece :
  split_from (String a p) 0 piece (String a p +:+ s)
  = piece :: split_from (String a p) 0 "" s.
Proof.
  pose proof (prefix_append (String a p) s) as Hp.
  change (String a p +:+ s) with (String a (p +:+ s)) in *.
  cbn [split_from]. rewrite Hp. f_equal.
  cbn [String.length]. rewrite Nat.sub_1_r. cbn [Nat.pred]. apply split_from_skip.
Qed.


Lemma connect_reads_session q :
  str_contains "session_uuid=" q = true →
  ∃ first rest more session others,
    str_split "session_uuid=" q = first :: rest :: more
    ∧ str_split "&" rest = session :: others
    ∧ session_of_query q = Some session.
Proof.
  intros Hin. unfold session_of_query, str_split. rewrite Hin.
  destruct (split_from_found "session_uuid=" q "" ltac:(done) Hin) as (first & rest & more & ->).
  destruct (split_from_cons "&" rest 0 "") as (session & others & Hs).
  exists first, rest, more, session, others. cbn. rewrite Hs. done.
Qed.

(** ** connect *)

Lemma connect_rejected c q u io w :
  shutdown_initiated w = true →
  connect c q u io w =
    (Ok (), with_trace (λ t, t ++ [Log WARNING RejectingNewConnection; Close c 1001]) w).
Proof.
  intros Hs. destruct w as [ac si ht h ts ca co t tr]. cbn in Hs. subst si.
  unfold connect. run_handler. cbn. unfold with_trace. cbn. by rewrite <- app_assoc.
Qed.

Lemma connect_accepted c q u io w s :
  shutdown_initiated w = false →
  consumers w !! c = Some s →
  layer_up io = true →
  cache_up io = true →
  ∃ w', connect c (Text q) u io w = (Ok (), w')
    ∧ session_id <$> consumers w' !! c = Some (Some (default u (session_of_query q)))
    ∧ count_of c w' = Some (default (message_count s) (recovered q w))
    ∧ trace w' = trace w
        ++ match session_of_query q with
           | Some session =>
               CacheGet (cache_key session)
               :: match cache_get (cache_key session) w with
                  | Some n => [Log INFO (RecoveredSession session n)]
                  | None => []
                  end
           | None => []
           end
        ++ [Accept c; GroupAdd "broadcast" c;
            Log INFO (WebSocketConnected c (Some (default u (session_of_query q)))
                        (default (message_count s) (recovered q w))
                        (size ({[c]} ∪ active_connections w)))]
    ∧ active_connections w' = {[c]} ∪ active_connections w
    ∧ tasks w' = (if starts_heartbeat c s w then tasks w ++ [Task HbCreated false]
                  else tasks w)
    ∧ cache w' = cache w
    ∧ shutdown_initiated w' = false
    ∧ heartbeat_task w' = heartbeat_task w
    ∧ now w' = now w
    ∧ websocket_heartbeats (collectors w') = websocket_heartbeats (collectors w)
    ∧ websocket_connections (collectors w') = websocket_connections (collectors w) + 1.
Proof.
  intros Hsi Hs Hlayer Hcache. destruct io as [layer store]. cbn in Hlayer, Hcache. subst.
  destruct w as [ac si ht h ts ca co t tr]. cbn in Hsi, Hs. subst si.
  unfold connect, recovered, starts_heartbeat, count_of, via_redis, decode.
  destruct (str_contains "session_uuid=" q) eqn:Hin.
  - destruct (connect_reads_session q Hin)
      as (first & rest & more & session & others & Hsplit & Hsplit' & ->).
    run_handler. cbn -[str_split]. rewrite Hin, Hsplit. cbn -[str_split]. rewrite Hsplit'.
    unfold cache_get. cbn.
    destruct (ca !! cache_key session) as [[n expires]|]; [destruct (t <? expires)|]; cbn.
    all: repeat (rewrite ?lookup_total_alter_eq, ?lookup_alter_eq, ?Hs; cbn).
    all: destruct (own_heartbeat_task s) as [[tid|]|]; [| |destruct ht as [tid|]]; cbn.
    all: try (destruct (bool_decide (size ({[c]} ∪ ac) = 1%nat)); cbn).
    all: eexists; (split; [reflexivity|]); cbn.
    all: rewrite <- ?app_assoc; cbn [app].
    all: repeat (rewrite ?lookup_total_alter_eq, ?lookup_alter_eq, ?Hs; cbn).
    all: repeat split; try done; lia.
  - unfold session_of_query. rewrite Hin. run_handler. cbn. rewrite Hin. cbn.
    all: repeat (rewrite ?lookup_total_alter_eq, ?lookup_alter_eq, ?Hs; cbn).
    all: destruct (own_heartbeat_task s) as [[tid|]|]; [| |destruct ht as [tid|]]; cbn.
    all: try (destruct (bool_decide (size ({[c]} ∪ ac) = 1%nat)); cbn).
    all: eexists; (split; [reflexivity|]); cbn.
    all: rewrite <- ?app_assoc; cbn [app].
    all: repeat (rewrite ?lookup_total_alter_eq, ?lookup_alter_eq, ?Hs; cbn).
    all: repeat split; try done; lia.
Qed.

(** [connect] outside a shutdown, whatever the query string and the
    state of Redis. *)
Lemma connect_run c query u io w s :
  shutdown_initiated w = false →
  consumers w !! c = Some s →
  ∃ w', connect c query u io w = (Ok (), w')
    ∧ session_id <$> consumers w' !! c
      = Some match query with
             | Text q => Some (default u (session_of_query q))
             | NotUTF8 => session_id s
             end
    ∧ count_of c w'
      = Some match query with
             | Text q => if cache_up io then default (message_count s) (recovered q w)
                         else message_count s
             | NotUTF8 => message_count s
             end
    ∧ active_connections w'
      = (if admitted query io then {[c]} ∪ active_connections w else active_connections w)
    ∧ websocket_connections (collectors w')
      = websocket_connections (collectors w) + (if admitted query io then 1 else 0)
    ∧ closes_of c (trace w')
      = closes_of c (trace w) ++ (if admitted query io && layer_up io then [] else [1011])
    ∧ websocket_errors (collectors w') connection_error
      = websocket_errors (collectors w) connection_error
        + (if admitted query io && layer_up io then 0 else 1)
    ∧ cache w' = cache w
    ∧ cache_reads (trace w')
      = cache_reads (trace w)
        ++ match query with
           | Text q =>
               match session_of_query q with
               | Some session => if cache_up io then [cache_key session] else []
               | None => []
               end
           | NotUTF8 => []
           end
    ∧ tasks w'
      = (if admitted query io && layer_up io && starts_heartbeat c s w
         then tasks w ++ [Task HbCreated false] else tasks w).
Proof.
  intros Hsi Hs. destruct w as [ac si ht h ts ca co t tr]. cbn in Hsi, Hs. subst si.
  unfold connect, recovered, count_of, via_redis, decode, admitted, closes_of, cache_reads,
    starts_heartbeat.
  destruct query as [q|].
  - destruct (str_contains "session_uuid=" q) eqn:Hin.
    + destruct (connect_reads_session q Hin)
        as (first & rest & more & session & others & Hsplit & Hsplit' & ->).
      destruct io as [[|] [|]]; run_handler; cbn -[str_split]; rewrite Hin, Hsplit;
        cbn -[str_split]; rewrite Hsplit'; unfold cache_get; cbn.
      all: try (destruct (ca !! cache_key session) as [[n expires]|];
                [destruct (t <? expires)|]; cbn).
      all: repeat (rewrite ?lookup_total_alter_eq, ?lookup_alter_eq, ?Hs; cbn).
      all: try (destruct (own_heartbeat_task s) as [[tid|]|]; [| |destruct ht as [tid|]]; cbn).
      all: try (destruct (bool_decide (size ({[c]} ∪ ac) = 1%nat)); cbn).
      all: eexists; (split; [reflexivity|]); cbn.
      all: rewrite ?omap_app; cbn.
      all: repeat (rewrite ?lookup_total_alter_eq, ?lookup_alter_eq, ?Hs; cbn).
      all: rewrite ?decide_True by done.
      all: rewrite ?app_nil_r, ?Z.add_0_r.
      all: repeat split; try done; try lia; by destruct s.
    + unfold session_of_query. rewrite Hin.
      destruct io as [[|] [|]]; run_handler; cbn; rewrite Hin; cbn.
      all: repeat (rewrite ?lookup_total_alter_eq, ?lookup_alter_eq, ?Hs; cbn).
      all: try (destruct (own_heartbeat_task s) as [[tid|]|]; [| |destruct ht as [tid|]]; cbn).
      all: try (destruct (bool_decide (size ({[c]} ∪ ac) = 1%nat)); cbn).
      all: eexists; (split; [reflexivity|]); cbn.
      all: rewrite ?omap_app; cbn.
      all: repeat (rewrite ?lookup_total_alter_eq, ?lookup_alter_eq, ?Hs; cbn).
      all: rewrite ?decide_True by done.
      all: rewrite ?app_nil_r, ?Z.add_0_r.
      all: repeat split; try done; try lia; by destruct s.
  - destruct io as [[|] [|]]; run_handler; cbn.
    all: repeat (rewrite ?lookup_total_alter_eq, ?lookup_alter_eq, ?Hs; cbn).
    all: eexists; (split; [reflexivity|]); cbn.
    all: rewrite ?omap_app; cbn.
    all: repeat (rewrite ?lookup_total_alter_eq, ?lookup_alter_eq, ?Hs; cbn).
    all: rewrite ?decide_True by done.
    all: rewrite ?app_nil_r, ?Z.add_0_r.
    all: repeat split; try done; try lia; by destruct s.
Qed.

(** C3.  A [connect] attempted while the shutdown flag is set returns
    after closing the connection with code 1001 and nothing else: the
    registry, the gauge of active connections, every consumer (so the
    session identifier of the rejected one, which stays unset), the cache
    and the list of cache reads are as before, the socket is not
    accepted.  As a step of the process, the consumer created for the
    rejected socket keeps [session_id = None] and is not registered. *)
Theorem C3_connect_rejected_during_shutdown
    (c : nat) (q : decode_result) (u : string) (io : backend) (w : world) :
  shutdown_initiated w = true →
  (∃ w', connect c q u io w = (Ok (), w')
     ∧ closes_of c (trace w') = closes_of c (trace w) ++ [1001]
     ∧ active_connections w' = active_connections w
     ∧ websocket_connections (collectors w') = websocket_connections (collectors w)
     ∧ consumers w' = consumers w
     ∧ cache_reads (trace w') = cache_reads (trace w)
     ∧ cache w' = cache w
     ∧ trace w' = trace w ++ [Log WARNING RejectingNewConnection; Close c 1001])
  ∧ (∀ connection_uuid,
       consumers w !! c = None →
       let w' := step (Connects c connection_uuid q u io) w in
       session_id <$> consumers w' !! c = Some None
       ∧ active_connections w' = active_connections w
       ∧ websocket_connections (collectors w') = websocket_connections (collectors w)
       ∧ cache_reads (trace w') = cache_reads (trace w)
       ∧ closes_of c (trace w') = closes_of c (trace w) ++ [1001]).
Proof.
  intros Hflag. split.
  - rewrite (connect_rejected _ _ _ _ _ Hflag). eexists. split; [reflexivity|].
    cbn [trace with_trace active_connections collectors consumers cache].
    rewrite closes_of_app, cache_reads_app.
    unfold closes_of at 2, cache_reads at 2. cbn. rewrite decide_True by done.
    rewrite app_nil_r. done.
  - intros connection_uuid Hfresh. cbn zeta. unfold step. rewrite Hfresh.
    unfold exec. rewrite connect_rejected by exact Hflag.
    cbn [snd trace with_trace with_consumers active_connections collectors consumers].
    rewrite lookup_insert_eq, closes_of_app, cache_reads_app.
    unfold closes_of at 2, cache_reads at 2. cbn. rewrite decide_True by done.
    rewrite app_nil_r. done.
Qed.

Lemma C3_connect_rejected_during_shutdown_witness :
  shutdown_initiated stopping = true
  ∧ let w' := step (Connects 2 "c-2" (Text "session_uuid=abc") "s-2" redis_up) stopping in
    session_id <$> consumers w' !! 2%nat = Some None
    ∧ active_connections w' = active_connections stopping
    ∧ closes_of 2 (trace w') = [1001].
Proof.
  split; [reflexivity|].
  destruct (C3_connect_rejected_during_shutdown 2 (Text "session_uuid=abc") "s-2" redis_up
              stopping eq_refl) as [_ Hstep].
  destruct (Hstep "c-2" eq_refl) as (Hsession & Hactive & _ & _ & Hclose).
  cbn zeta. split; [exact Hsession|]. split; [exact Hactive|]. exact Hclose.
Defined.




(** ** Session records *)


Lemma connects_fresh c connection_uuid q u io w :
  shutdown_initiated w = false →
  consumers w !! c = None →
  layer_up io = true →
  cache_up io = true →
  session_id <$> consumers (step (Connects c connection_uuid (Text q) u io) w) !! c
    = Some (Some (default u (session_of_query q)))
  ∧ count_of c (step (Connects c connection_uuid (Text q) u io) w)
    = Some (default 0 (recovered q w))
  ∧ active_connections (step (Connects c connection_uuid (Text q) u io) w)
    = {[c]} ∪ active_connections w
  ∧ tasks (step (Connects c connection_uuid (Text q) u io) w)
    = if bool_decide (size ({[c]} ∪ active_connections w) = 1%nat)
         && negb (bool_decide (is_Some (heartbeat_task w)))
      then tasks w ++ [Task HbCreated false] else tasks w.
Proof.
  intros Hflag Hfresh Hlayer Hcache. unfold step. rewrite Hfresh. unfold exec.
  destruct (connect_accepted c q u io
              (with_consumers (λ h, <[c := init connection_uuid]> h) w)
              (init connection_uuid) Hflag)
    as (w' & -> & Hsession & Hcount & _ & Hactive & Htasks & _);
    [apply lookup_insert_eq | done | done |].
  cbn [snd]. split; [exact Hsession|]. split; [exact Hcount|].
  split; [exact Hactive | exact Htasks].
Qed.





(** ** graceful_shutdown *)

Lemma message_count_alter_graceful (h : gmap nat consumer) c c' :
  message_count (alter (set_graceful_close true) c h !!! c') = message_count (h !!! c').
Proof.
  rewrite lookup_total_alter. destruct (decide (c = c')) as [->|]; [|done].
  rewrite lookup_total_alt. by destruct (h !! c').
Qed.

Lemma say_goodbye_run socks snapshot : ∀ pending w,
  ∃ w', say_goodbye socks snapshot pending w
        = (Ok (pending ++ map (λ c, (c, 1001)) snapshot), w')
    ∧ trace w' = trace w ++ map (goodbye_effect socks w) snapshot
    ∧ (∀ c, message_count (consumers w' !!! c) = message_count (consumers w !!! c))
    ∧ active_connections w' = active_connections w
    ∧ shutdown_initiated w' = shutdown_initiated w
    ∧ heartbeat_task w' = heartbeat_task w
    ∧ tasks w' = tasks w
    ∧ cache w' = cache w
    ∧ collectors w' = collectors w
    ∧ now w' = now w.
Proof.
  induction snapshot as [|c rest IH]; intros pending w.
  - exists w. cbn. rewrite !app_nil_r. done.
  - cbn [say_goodbye]. do 2 step.
    erewrite bind_ok by apply swallowed_send. cbv beta.
    destruct w as [ac si ht h ts ca co t tr]. fields.
    rewrite message_count_alter_graceful.
    match goal with
    | |- context [say_goodbye _ _ _ ?w] => set (w1 := w)
    end.
    destruct (IH (pending ++ [(c, 1001)]) w1) as (w' & -> & Htrace & Hcount & Hrest).
    unfold w1 in *. clear w1.
    exists w'. rewrite <- app_assoc. split; [done|]. fields_in Htrace. fields_in Hcount.
    split; [|split; [|exact Hrest]].
    + rewrite Htrace, <- app_assoc. cbn [app map]. do 2 f_equal.
      apply map_ext. intros c'. unfold goodbye_effect. fields.
      by rewrite message_count_alter_graceful.
    + intros c'. by rewrite Hcount, message_count_alter_graceful.
Qed.

Lemma start_all_run pending : ∀ w,
  start_all pending w
  = (Ok (), with_trace (λ t, t ++ map (λ p, Close p.1 p.2) pending) w).
Proof.
  induction pending as [|[c code] rest IH]; intros w.
  - destruct w; cbn. unfold with_trace; cbn. by rewrite app_nil_r.
  - cbn [start_all]. run_handler. rewrite IH. destruct w; cbn.
    unfold with_trace; cbn. by rewrite <- app_assoc.
Qed.

Lemma gather_done_bound lat snapshot d :
  closing_time lat snapshot = Some d → d < milliseconds SHUTDOWN_WAIT.
Proof.
  unfold closing_time. destruct (gather_done _ _) as [d'|]; [|discriminate].
  destruct (Z.ltb_spec d' (milliseconds SHUTDOWN_WAIT)); [|discriminate].
  by intros [= <-].
Qed.

Lemma graceful_shutdown_run socks lat w :
  ∃ w', graceful_shutdown socks lat w
        = (match closing_time lat (elements (active_connections w)) with
           | Some _ => Ok ()
           | None => Raise TimeoutError
           end, w')
    ∧ trace w' = trace w
        ++ Log INFO (StartingGracefulShutdown (size (active_connections w)))
        :: map (goodbye_effect socks w) (elements (active_connections w))
        ++ map (λ c, Close c 1001) (elements (active_connections w))
        ++ match closing_time lat (elements (active_connections w)) with
           | Some d => [Log INFO (GracefulShutdownCompleted d)]
           | None => []
           end
    ∧ websocket_shutdown_duration (collectors w')
      = websocket_shutdown_duration (collectors w)
        ++ match closing_time lat (elements (active_connections w)) with
           | Some d => [d]
           | None => []
           end
    ∧ now w' = now w + match closing_time lat (elements (active_connections w)) with
                       | Some d => d
                       | None => milliseconds SHUTDOWN_WAIT
                       end
    ∧ shutdown_initiated w' = true
    ∧ tasks w' = match heartbeat_task w with
                 | Some tid => alter request_cancel tid (tasks w)
                 | None => tasks w
                 end
    ∧ active_connections w' = active_connections w
    ∧ heartbeat_task w' = heartbeat_task w
    ∧ cache w' = cache w
    ∧ websocket_heartbeats (collectors w') = websocket_heartbeats (collectors w)
    ∧ (∀ c, message_count (consumers w' !!! c) = message_count (consumers w !!! c)).
Proof.
  destruct w as [ac si ht h ts ca co t tr].
  unfold graceful_shutdown. fields.
  do 4 step. fields.
  set (w0 := {| active_connections := ac; shutdown_initiated := true; heartbeat_task := ht;
                consumers := h;
                tasks := match ht with
                         | Some tid => alter request_cancel tid ts
                         | None => ts
                         end;
                cache := ca; collectors := co; now := t;
                trace := tr ++ [Log INFO (StartingGracefulShutdown (size ac))] |}).
  step. fields.
  rewrite (bind_ok _ _ _ () w0) by (destruct ht; reflexivity). cbv beta.
  step. change (active_connections w0) with ac.
  destruct (say_goodbye_run socks (elements ac) [] w0)
    as (w1 & Hbye & Htrace & Hcount & Hac & Hsi & Hht & Hts & Hca & Hco & Hnow).
  rewrite (bind_ok _ _ _ _ _ Hbye). cbv beta. cbn [app].
  change (map (goodbye_effect socks w0) (elements ac))
    with (map (goodbye_effect socks
                 {| active_connections := ac; shutdown_initiated := si;
                    heartbeat_task := ht; consumers := h; tasks := ts;
                    cache := ca; collectors := co; now := t; trace := tr |})
              (elements ac)) in Htrace.
  unfold closing_time.
  destruct (elements ac) as [|c0 rest] eqn:Hel.
  - cbn [map gather_done]. do 3 step.
    change (0 <? milliseconds SHUTDOWN_WAIT) with true. cbn match.
    eexists. split; [reflexivity|].
    destruct w1 as [ac1 si1 ht1 h1 ts1 ca1 co1 t1 tr1]. cbn in *. subst.
    rewrite Z.sub_diag, Z.add_0_r, <- !app_assoc. cbn. repeat split; done.
  - cbn [map]. cbv iota.
    destruct w1 as [ac1 si1 ht1 h1 ts1 ca1 co1 t1 tr1].
    cbn in Htrace, Hcount, Hac, Hsi, Hht, Hts, Hca, Hco, Hnow. subst.
    destruct (gather_done lat _) as [d|] eqn:Hg;
      [destruct (d <? milliseconds SHUTDOWN_WAIT) eqn:Hle|].
    + erewrite bind_ok;
        [|unfold wait_for_gather; erewrite bind_ok by apply start_all_run;
          cbv beta; rewrite Hg, Hle; reflexivity].
      cbv beta. do 2 step. eexists. split; [reflexivity|]. cbn.
      rewrite <- !app_assoc, map_map. cbn.
      replace (t + d - t) with d by lia. repeat split; try done.
    + erewrite bind_raise;
        [|unfold wait_for_gather; erewrite bind_ok by apply start_all_run;
          cbv beta; rewrite Hg, Hle; reflexivity].
      eexists. split; [reflexivity|]. cbn.
      rewrite <- !app_assoc, map_map, !app_nil_r. cbn.
      repeat split; try done.
    + erewrite bind_raise;
        [|unfold wait_for_gather; erewrite bind_ok by apply start_all_run;
          cbv beta; rewrite Hg; reflexivity].
      eexists. split; [reflexivity|]. cbn.
      rewrite <- !app_assoc, map_map, !app_nil_r. cbn.
      repeat split; try done.
Qed.

(** ** What every handler leaves alone *)

Section Keeps.
Context (R : relation world) `{!Frame R}.

Lemma keeps_ret {A} (a : A) : keeps R (mret a).
Proof. intros w. reflexivity. Qed.

Lemma keeps_raise {A} e : keeps R (raise (A := A) e).
Proof. intros w. reflexivity. Qed.

Lemma keeps_gets {A} (f : world → A) : keeps R (gets f).
Proof. intros w. reflexivity. Qed.

Lemma keeps_modify f : (∀ w, R w (f w)) → keeps R (modify f).
Proof. intros H w. apply H. Qed.

Lemma keeps_bind {A B} (m : M A) (k : A → M B) :
  keeps R m → (∀ a, keeps R (k a)) → keeps R (m ≫= k).
Proof.
  intros Hm Hk w. specialize (Hm w). unfold mbind, M_bind.
  destruct (m w) as [[a|e] w1]; cbn in *; [|done].
  etrans; [exact Hm | apply Hk].
Qed.

Lemma keeps_try_except {A} (body : M A) handler :
  keeps R body → (∀ e h, handler e = Some h → keeps R h) →
  keeps R (try_except body handler).
Proof.
  intros Hbody Hh w. specialize (Hbody w). unfold try_except.
  destruct (body w) as [[a|e] w1]; cbn in *; [done|].
  destruct (handler e) as [h|] eqn:He; [|done].
  etrans; [exact Hbody | by apply (Hh e)].
Qed.

Lemma keeps_emit e : is_publish e = false → keeps R (emit e).
Proof. intros He. apply keeps_modify. intros w. by apply frame_emit. Qed.

Lemma keeps_setattr g c : keeps R (setattr g c).
Proof. apply keeps_modify. intros w. apply frame_consumers. Qed.

Lemma keeps_attr {A} (f : consumer → A) c : keeps R (attr f c).
Proof. apply keeps_gets. Qed.

Lemma keeps_collect f :
  (∀ m, websocket_heartbeats (f m) = websocket_heartbeats m) → keeps R (collect f).
Proof. intros Hf. apply keeps_modify. intros w. by apply frame_collect. Qed.

Lemma keeps_send c sock v : keeps R (send c sock v).
Proof.
  destruct sock; cbn [send]; [by apply keeps_emit|].
  apply keeps_bind; [by apply keeps_emit | intros _; apply keeps_raise].
Qed.

Lemma keeps_close c code : keeps R (close c code).
Proof. by apply keeps_emit. Qed.

Lemma keeps_cancel tid : keeps R (cancel tid).
Proof. apply keeps_modify. intros w. apply frame_tasks. Qed.

Lemma keeps_create_task : keeps R create_task.
Proof.
  apply keeps_bind; [apply keeps_gets | intros tid].
  apply keeps_bind; [|intros _; apply keeps_ret].
  apply keeps_modify. intros w. apply frame_tasks.
Qed.

Lemma keeps_decode query : keeps R (decode query).
Proof. destruct query; [apply keeps_ret | apply keeps_raise]. Qed.

Lemma keeps_via_redis {A} up (call : M A) : keeps R call → keeps R (via_redis up call).
Proof. intros Hcall. destruct up; [exact Hcall | apply keeps_raise]. Qed.

Lemma keeps_subscript {A} (l : list A) i : keeps R (subscript l i).
Proof. unfold subscript. destruct (l !! i); [apply keeps_ret | apply keeps_raise]. Qed.

Lemma keeps_get_cached_session session : keeps R (get_cached_session session).
Proof.
  apply keeps_bind; [by apply keeps_emit | intros _; apply keeps_gets].
Qed.

Lemma keeps_cache_session session n : keeps R (cache_session session n).
Proof.
  apply keeps_bind; [by apply keeps_emit | intros _].
  apply keeps_modify. intros w. apply frame_cache.
Qed.

Lemma keeps_swallow {A} (m : M A) (a : A) :
  keeps R m → keeps R (try_except m (λ _, Some (mret a))).
Proof.
  intros Hm. apply keeps_try_except; [done|]. intros e h [= <-]. apply keeps_ret.
Qed.

Ltac keeps_prim :=
  first
    [ apply keeps_ret | apply keeps_raise | apply keeps_gets | apply keeps_attr
    | apply keeps_decode
    | apply keeps_setattr | apply keeps_send | apply keeps_close | apply keeps_cancel
    | apply keeps_create_task | apply keeps_subscript | apply keeps_get_cached_session
    | apply keeps_cache_session
    | apply keeps_emit; reflexivity
    | apply keeps_collect; intros []; reflexivity
    | apply keeps_modify; intros ?;
      first [apply frame_active | apply frame_shutdown | apply frame_now] ].

Ltac keeps_auto :=
  repeat first
    [ keeps_prim
    | apply keeps_swallow
    | apply keeps_via_redis
    | apply keeps_bind; [|intros ?]
    | match goal with
      | |- keeps _ (match ?x with _ => _ end) => destruct x
      | |- keeps _ (let _ := _ in _) => cbv zeta
      end ].

Lemma keeps_receive c sock frame : keeps R (receive c sock frame).
Proof.
  unfold receive, log, self_heartbeat_task. apply keeps_try_except.
  - unfold json_loads, dict_get, py_len, log. keeps_auto.
  - intros e h He. destruct e; cbn in He; try discriminate He;
      injection He as <-; unfold log; keeps_auto.
Qed.

Lemma keeps_connect c q u io : keeps R (connect c q u io).
Proof.
  unfold connect, log, self_heartbeat_task. apply keeps_try_except.
  - keeps_auto.
  - intros e h He. destruct e; cbn in He; try discriminate He;
      injection He as <-; keeps_auto.
Qed.

Lemma keeps_disconnect c sock code io : keeps R (disconnect c sock code io).
Proof.
  unfold disconnect, log, self_heartbeat_task. apply keeps_try_except.
  - keeps_auto.
  - intros e h He. destruct e; cbn in He; try discriminate He;
      injection He as <-; keeps_auto.
Qed.

Lemma keeps_broadcast_message c sock event : keeps R (broadcast_message c sock event).
Proof. unfold broadcast_message. keeps_auto. Qed.

Lemma keeps_say_goodbye socks snapshot : ∀ pending,
  keeps R (say_goodbye socks snapshot pending).
Proof.
  induction snapshot as [|c rest IH]; intros pending; cbn [say_goodbye].
  - apply keeps_ret.
  - keeps_auto. apply IH.
Qed.

Lemma keeps_start_all pending : keeps R (start_all pending).
Proof.
  induction pending as [|[c code] rest IH]; cbn [start_all]; keeps_auto. apply IH.
Qed.

Lemma keeps_graceful_shutdown socks lat : keeps R (graceful_shutdown socks lat).
Proof.
  unfold graceful_shutdown, wait_for_gather, sleep, log.
  keeps_auto; try apply keeps_say_goodbye; try apply keeps_start_all.
Qed.

(** Every step of the process keeps [R], provided the heartbeat loop
    does. *)
Lemma frame_step :
  (∀ tid timestamp, keeps R (heartbeat_loop tid timestamp)) →
  ∀ e w, R w (step e w).
Proof.
  intros Hloop e w. destruct e; cbn [step].
  - apply frame_now.
  - destruct (consumers w !! c); [reflexivity|].
    etrans; [apply frame_consumers | apply keeps_connect].
  - apply keeps_receive.
  - apply keeps_disconnect.
  - apply keeps_broadcast_message.
  - apply keeps_graceful_shutdown.
  - apply Hloop.
Qed.

Lemma frame_run :
  (∀ tid timestamp, keeps R (heartbeat_loop tid timestamp)) →
  ∀ events w, R w (run events w).
Proof.
  intros Hloop events. induction events as [|e events IH]; intros w; [reflexivity|].
  rewrite run_cons. etrans; [by apply frame_step | apply IH].
Qed.
End Keeps.

(** ** The bounded wait of the shutdown *)

Lemma gather_done_Some lat snapshot m :
  gather_done lat (map (λ c, (c, 1001)) snapshot) = Some m →
  0 <= m ∧ ∀ c, c ∈ snapshot → ∃ d, lat c = Some d ∧ d <= m.
Proof.
  revert m. induction snapshot as [|c0 rest IH]; intros m; cbn [map gather_done].
  - intros [= <-]. split; [done|]. intros c Hc. by apply elem_of_nil in Hc.
  - destruct (lat c0) as [d0|] eqn:Hd0; [|discriminate].
    destruct (gather_done lat _) as [m'|]; [|discriminate].
    intros [= <-]. destruct (IH m' eq_refl) as [Hpos Hrest]. split; [lia|].
    intros c [-> | Hc]%elem_of_cons.
    + exists d0. split; [done | lia].
    + destruct (Hrest c Hc) as (d & Hd & Hle). exists d. split; [done | lia].
Qed.

Lemma gather_done_within lat snapshot bound :
  0 < bound →
  (∀ c, c ∈ snapshot → ∃ d, lat c = Some d ∧ d < bound) →
  ∃ m, gather_done lat (map (λ c, (c, 1001)) snapshot) = Some m ∧ m < bound.
Proof.
  intros Hbound. induction snapshot as [|c0 rest IH]; intros Hall; cbn [map gather_done].
  - by exists 0.
  - destruct (Hall c0) as (d0 & -> & Hd0); [by left|].
    destruct IH as (m & -> & Hm); [intros c Hc; apply Hall; by right|].
    exists (Z.max d0 m). split; [done | lia].
Qed.

Lemma closing_time_late lat snapshot c :
  c ∈ snapshot →
  lat c = None ∨ (∃ d, lat c = Some d ∧ milliseconds SHUTDOWN_WAIT <= d) →
  closing_time lat snapshot = None.
Proof.
  intros Hc Hlate. unfold closing_time.
  destruct (gather_done lat _) as [m|] eqn:Hm; [|done].
  destruct (gather_done_Some _ _ _ Hm) as [_ Hall].
  destruct (Hall c Hc) as (d & Hd & Hle).
  destruct Hlate as [Hnone | (d' & Hd' & Hlate)]; [congruence|].
  assert (d' = d) as -> by congruence.
  destruct (Z.ltb_spec m (milliseconds SHUTDOWN_WAIT)); [lia | done].
Qed.

Lemma closing_time_in_time lat snapshot :
  (∀ c, c ∈ snapshot → ∃ d, lat c = Some d ∧ d < milliseconds SHUTDOWN_WAIT) →
  ∃ d, closing_time lat snapshot = Some d ∧ 0 <= d < milliseconds SHUTDOWN_WAIT.
Proof.
  intros Hall. unfold closing_time.
  destruct (gather_done_within lat snapshot (milliseconds SHUTDOWN_WAIT)) as (m & Hm & Hle).
  { done. }
  { exact Hall. }
  rewrite Hm. destruct (gather_done_Some _ _ _ Hm) as [Hpos _].
  destruct (Z.ltb_spec m (milliseconds SHUTDOWN_WAIT)); [|lia].
  exists m. split; [done | lia].
Qed.

Lemma filter_completion_frames socks w snapshot :
  List.filter is_completion (map (goodbye_effect socks w) snapshot) = [].
Proof.
  induction snapshot as [|c rest IH]; [done|]. cbn [map List.filter].
  unfold goodbye_effect at 1. by destruct (socks c).
Qed.

Lemma filter_completion_closes snapshot :
  List.filter is_completion (map (λ c, Close c 1001) snapshot) = [].
Proof. by induction snapshot. Qed.

(** C7 (as amended).  [graceful_shutdown] spends at most the 9 seconds of
    its budget in the wait for the closes.  If every registered
    connection closes in less than the budget, it returns normally,
    records the time spent as one sample of the shutdown duration and
    logs completion.  If the close of some registered connection takes
    the 9 seconds or longer, or never returns, the wait ends after
    exactly 9 seconds and
    [asyncio.TimeoutError] leaves [graceful_shutdown]: no sample is
    recorded and completion is not logged. *)
Theorem C7_shutdown_wait_is_bounded
    (socks : nat → socket) (close_latency : nat → option Z) (w : world) :
  ∃ r w', graceful_shutdown socks close_latency w = (r, w')
    ∧ now w' - now w <= 9 * 1000
    ∧ ((∀ c, c ∈ active_connections w → ∃ d, close_latency c = Some d ∧ d < 9 * 1000) →
         r = Ok ()
         ∧ websocket_shutdown_duration (collectors w')
           = websocket_shutdown_duration (collectors w) ++ [now w' - now w]
         ∧ List.filter is_completion (trace w')
           = List.filter is_completion (trace w)
             ++ [Log INFO (GracefulShutdownCompleted (now w' - now w))])
    ∧ ((∃ c, c ∈ active_connections w
             ∧ (close_latency c = None ∨ ∃ d, close_latency c = Some d ∧ 9 * 1000 <= d)) →
         r = Raise TimeoutError
         ∧ now w' - now w = 9 * 1000
         ∧ websocket_shutdown_duration (collectors w')
           = websocket_shutdown_duration (collectors w)
         ∧ List.filter is_completion (trace w') = List.filter is_completion (trace w)).
Proof.
  destruct (graceful_shutdown_run socks close_latency w)
    as (w' & Hrun & Htrace & Hsamples & Hnow & _).
  eexists _, w'. split; [exact Hrun|].
  rewrite Htrace, Hsamples, Hnow.
  rewrite !List.filter_app. cbn [List.filter is_completion].
  rewrite !List.filter_app, filter_completion_frames, filter_completion_closes.
  cbn [app]. split; [|split].
  - destruct (closing_time _ _) as [d|] eqn:Hd.
    + apply gather_done_bound in Hd. unfold milliseconds, SHUTDOWN_WAIT in Hd. lia.
    + unfold milliseconds, SHUTDOWN_WAIT. lia.
  - intros Hall.
    destruct (closing_time_in_time close_latency (elements (active_connections w)))
      as (d & -> & _).
    { intros c Hc. apply elem_of_elements in Hc. apply (Hall c Hc). }
    cbn. replace (now w + d - now w) with d by lia. done.
  - intros (c & Hc & Hlate).
    rewrite (closing_time_late close_latency _ c); [|by apply elem_of_elements|exact Hlate].
    cbn. rewrite !app_nil_r. unfold milliseconds, SHUTDOWN_WAIT.
    repeat split; try done. lia.
Qed.

Lemma C7_shutdown_wait_is_bounded_witness :
  (1%nat ∈ active_connections fresh_connection)
  ∧ ∃ w', graceful_shutdown (λ _, SockOpen) (λ _, Some 12000) fresh_connection
          = (Raise TimeoutError, w')
      ∧ now w' - now fresh_connection = 9 * 1000.
Proof.
  split; [vm_compute; set_solver|].
  destruct (C7_shutdown_wait_is_bounded (λ _, SockOpen) (λ _, Some 12000) fresh_connection)
    as (r & w' & Hrun & _ & _ & Hlate).
  destruct Hlate as (-> & Hnow & _).
  { exists 1%nat. split; [vm_compute; set_solver|]. right. exists 12000. split; [done | lia]. }
  exists w'. split; [exact Hrun | exact Hnow].
Defined.

(** C7 as the specification words it fails when a close does not return:
    the timeout leaves [graceful_shutdown] as an exception, and neither is
    the shutdown duration recorded nor completion logged. *)
Lemma C7_timeout_leaves_graceful_shutdown :
  let outcome := graceful_shutdown (λ _, SockOpen) (λ _, None) fresh_connection in
  outcome.1 = Raise TimeoutError
  ∧ websocket_shutdown_duration (collectors outcome.2) = []
  ∧ List.filter is_completion (trace outcome.2) = [].
Proof. cbn zeta. repeat split; vm_compute; reflexivity. Qed.

(** ** Re-entering the shutdown *)

Lemma closes_of_cons c e tr : closes_of c (e :: tr) = closes_of c [e] ++ closes_of c tr.
Proof. apply (closes_of_app c [e] tr). Qed.

Lemma attempts_to_cons c e tr :
  attempts_to c (e :: tr) = attempts_to c [e] ++ attempts_to c tr.
Proof. apply (attempts_to_app c [e] tr). Qed.

Lemma closes_of_closes c snapshot :
  NoDup snapshot →
  closes_of c (map (λ c', Close c' 1001) snapshot)
  = if bool_decide (c ∈ snapshot) then [1001] else [].
Proof.
  induction 1 as [|c0 rest Hnotin Hnodup IH]; [done|].
  cbn [map]. rewrite closes_of_cons.
  rewrite IH. unfold closes_of. cbn.
  destruct (decide (c0 = c)) as [->|Hne].
  - rewrite (bool_decide_eq_false_2 _ Hnotin), bool_decide_eq_true_2 by by left. done.
  - destruct (bool_decide_reflect (c ∈ rest)) as [Hin|Hnin].
    + rewrite bool_decide_eq_true_2 by by right. done.
    + rewrite bool_decide_eq_false_2; [done|]. intros [?|?]%elem_of_cons; done.
Qed.

Lemma attempts_to_goodbyes socks w c snapshot :
  NoDup snapshot →
  attempts_to c (map (goodbye_effect socks w) snapshot)
  = if bool_decide (c ∈ snapshot) then [goodbye (message_count (consumers w !!! c))] else [].
Proof.
  induction 1 as [|c0 rest Hnotin Hnodup IH]; [done|].
  cbn [map]. rewrite attempts_to_cons.
  rewrite IH. unfold attempts_to, goodbye_effect. 
  destruct (decide (c0 = c)) as [->|Hne].
  - rewrite (bool_decide_eq_false_2 _ Hnotin), bool_decide_eq_true_2 by by left.
    destruct (socks c); cbn; by rewrite decide_True.
  - assert (omap (λ e, match e with
                       | Send c' v | SendFailed c' v => if decide (c' = c) then Some v else None
                       | _ => None
                       end)
              [match socks c0 with
               | SockOpen => Send c0 (goodbye (message_count (consumers w !!! c0)))
               | SockGone => SendFailed c0 (goodbye (message_count (consumers w !!! c0)))
               end] = []) as ->.
    { destruct (socks c0); cbn; by rewrite decide_False. }
    destruct (bool_decide_reflect (c ∈ rest)) as [Hin|Hnin].
    + rewrite bool_decide_eq_true_2 by by right. done.
    + rewrite bool_decide_eq_false_2; [done|]. intros [?|?]%elem_of_cons; done.
Qed.

Lemma closes_of_goodbyes socks w c snapshot :
  closes_of c (map (goodbye_effect socks w) snapshot) = [].
Proof.
  induction snapshot as [|c0 rest IH]; [done|]. cbn [map].
  rewrite closes_of_cons.
  rewrite IH. unfold goodbye_effect. by destruct (socks c0).
Qed.

Lemma attempts_to_closes c snapshot :
  attempts_to c (map (λ c', Close c' 1001) snapshot) = [].
Proof. by induction snapshot. Qed.

Lemma bool_decide_elements (c : nat) (X : gset nat) :
  bool_decide (c ∈ elements X) = bool_decide (c ∈ X).
Proof. apply bool_decide_ext, elem_of_elements. Qed.

(** What one invocation of [graceful_shutdown] does to the connections. *)
Lemma graceful_shutdown_again socks lat w :
  ∃ r w', graceful_shutdown socks lat w = (r, w')
    ∧ shutdown_initiated w' = true
    ∧ active_connections w' = active_connections w
    ∧ (∀ c, message_count (consumers w' !!! c) = message_count (consumers w !!! c))
    ∧ (∀ c, closes_of c (trace w')
            = closes_of c (trace w)
              ++ if bool_decide (c ∈ active_connections w) then [1001] else [])
    ∧ (∀ c, attempts_to c (trace w')
            = attempts_to c (trace w)
              ++ if bool_decide (c ∈ active_connections w)
                 then [goodbye (message_count (consumers w !!! c))] else [])
    ∧ (r = Ok () →
         List.length (websocket_shutdown_duration (collectors w'))
         = S (List.length (websocket_shutdown_duration (collectors w))))
    ∧ (active_connections w = ∅ →
         r = Ok ()
         ∧ trace w' = trace w ++ [Log INFO (StartingGracefulShutdown 0);
                                  Log INFO (GracefulShutdownCompleted 0)]
         ∧ websocket_shutdown_duration (collectors w')
           = websocket_shutdown_duration (collectors w) ++ [0]).
Proof.
  destruct (graceful_shutdown_run socks lat w)
    as (w' & Hrun & Htrace & Hsamples & _ & Hflag & _ & Hactive & _ & _ & _ & Hcount).
  eexists _, w'. split; [exact Hrun|]. split; [exact Hflag|]. split; [exact Hactive|].
  split; [exact Hcount|]. split; [|split; [|split]].
  - intros c. rewrite Htrace, closes_of_app.
    rewrite closes_of_cons.
    rewrite !closes_of_app, closes_of_goodbyes, closes_of_closes by apply NoDup_elements.
    rewrite bool_decide_elements.
    assert (closes_of c match closing_time lat (elements (active_connections w)) with
                        | Some d => [Log INFO (GracefulShutdownCompleted d)]
                        | None => []
                        end = []) as -> by by destruct (closing_time _ _).
    by rewrite app_nil_r.
  - intros c. rewrite Htrace, attempts_to_app.
    rewrite attempts_to_cons.
    rewrite !attempts_to_app, attempts_to_closes, attempts_to_goodbyes
      by apply NoDup_elements.
    rewrite bool_decide_elements.
    assert (attempts_to c match closing_time lat (elements (active_connections w)) with
                          | Some d => [Log INFO (GracefulShutdownCompleted d)]
                          | None => []
                          end = []) as -> by by destruct (closing_time _ _).
    by rewrite !app_nil_r.
  - rewrite Hsamples. destruct (closing_time _ _); [|discriminate].
    intros _. rewrite length_app. cbn. lia.
  - intros Hempty. rewrite Htrace, Hsamples, Hempty, elements_empty, size_empty. done.
Qed.

(** C8 (as amended).  [graceful_shutdown] has no guard against re-entry:
    every invocation, whether or not the shutdown flag is already set,
    leaves the flag set and the registry as it is, tries to send the
    goodbye to each connection that is registered at that time and
    requests its close with code 1001, and, when it returns normally,
    records one more sample of the shutdown duration.  An invocation is
    silent only towards connections that are not registered any more:
    with an empty registry it sends and closes nothing, and still logs
    start and completion and records a sample of 0. *)
Theorem C8_shutdown_reentry_repeats
    (socks : nat → socket) (close_latency : nat → option Z) (w : world) :
  ∃ r w', graceful_shutdown socks close_latency w = (r, w')
    ∧ shutdown_initiated w' = true
    ∧ active_connections w' = active_connections w
    ∧ (∀ c, c ∈ active_connections w →
         closes_of c (trace w') = closes_of c (trace w) ++ [1001]
         ∧ attempts_to c (trace w')
           = attempts_to c (trace w) ++ [goodbye (message_count (consumers w !!! c))])
    ∧ (∀ c, c ∉ active_connections w →
         closes_of c (trace w') = closes_of c (trace w)
         ∧ attempts_to c (trace w') = attempts_to c (trace w))
    ∧ (r = Ok () →
         List.length (websocket_shutdown_duration (collectors w'))
         = S (List.length (websocket_shutdown_duration (collectors w))))
    ∧ (active_connections w = ∅ →
         r = Ok ()
         ∧ trace w' = trace w ++ [Log INFO (StartingGracefulShutdown 0);
                                  Log INFO (GracefulShutdownCompleted 0)]
         ∧ websocket_shutdown_duration (collectors w')
           = websocket_shutdown_duration (collectors w) ++ [0]).
Proof.
  destruct (graceful_shutdown_again socks close_latency w)
    as (r & w' & Hrun & Hflag & Hactive & _ & Hclose & Hbye & Hsample & Hempty).
  exists r, w'. split; [exact Hrun|]. split; [exact Hflag|]. split; [exact Hactive|].
  split; [|split; [|split; [exact Hsample | exact Hempty]]].
  - intros c Hc. rewrite Hclose, Hbye, !bool_decide_eq_true_2 by done. done.
  - intros c Hc. rewrite Hclose, Hbye, !bool_decide_eq_false_2 by done.
    by rewrite !app_nil_r.
Qed.

Lemma C8_shutdown_reentry_repeats_witness :
  shutdown_initiated stopping = true
  ∧ (1%nat ∈ active_connections stopping)
  ∧ ∃ w', graceful_shutdown (λ _, SockOpen) (λ _, Some 5) stopping = (Ok (), w')
      ∧ closes_of 1 (trace w') = [1001; 1001]
      ∧ attempts_to 1 (trace w') = [goodbye 0; goodbye 0]
      ∧ List.length (websocket_shutdown_duration (collectors w')) = 2%nat.
Proof.
  split; [reflexivity|]. split; [vm_compute; set_solver|].
  destruct (C8_shutdown_reentry_repeats (λ _, SockOpen) (λ _, Some 5) stopping)
    as (r & w' & Hrun & _ & _ & Hin & _ & Hsample & _).
  assert (r = Ok ()) as -> by (vm_compute in Hrun; congruence).
  destruct (Hin 1%nat) as [Hclose Hbye]; [vm_compute; set_solver|].
  exists w'. split; [exact Hrun|]. split; [exact Hclose|]. split; [exact Hbye|].
  exact (Hsample eq_refl).
Defined.

(** C8 as the specification words it fails: told to stop a second time
    while its one connection is still registered, the process sends the
    goodbye again, requests the close again and records a second sample
    of the shutdown duration. *)
Lemma C8_second_shutdown_is_not_a_no_op :
  let again := step (Sigterm (λ _, SockOpen) (λ _, Some 5)) stopping in
  attempts_to 1 (trace stopping) = [goodbye 0]
  ∧ attempts_to 1 (trace again) = [goodbye 0; goodbye 0]
  ∧ closes_of 1 (trace stopping) = [1001]
  ∧ closes_of 1 (trace again) = [1001; 1001]
  ∧ websocket_shutdown_duration (collectors stopping) = [5]
  ∧ websocket_shutdown_duration (collectors again) = [5; 5]
  ∧ again ≠ stopping.
Proof.
  cbn zeta. repeat split; try (vm_compute; reflexivity).
  intros Heq. apply (f_equal (λ w, List.length (trace w))) in Heq.
  vm_compute in Heq. discriminate Heq.
Qed.

(** ** The class attribute [heartbeat_task] *)

Global Instance same_class_task_frame : Frame same_class_task.
Proof.
  split; try (intros; unfold same_class_task; reflexivity).
  constructor.
  - intros w. reflexivity.
  - intros w1 w2 w3. unfold same_class_task. congruence.
Qed.

Lemma heartbeat_loop_same_class_task tid timestamp :
  keeps same_class_task (heartbeat_loop tid timestamp).
Proof.
  intros w. unfold same_class_task, heartbeat_loop. run_handler.
  destruct (tasks w !! tid) as [[p canc]|]; [|reflexivity].
  destruct p, canc; cbn; try reflexivity;
    repeat (match goal with |- context [if ?b then _ else _] => destruct b end; cbn);
    reflexivity.
Qed.

(** No assignment of the module targets [ChatConsumer.heartbeat_task]:
    the class attribute is [None] for as long as the process runs. *)
Lemma class_heartbeat_task_unset w : reachable w → heartbeat_task w = None.
Proof.
  intros (epoch & events & ->).
  apply (frame_run same_class_task heartbeat_loop_same_class_task events (initial epoch)).
Qed.

(** ** After the shutdown flag is set *)

Global Instance quiet_after_shutdown_frame : Frame quiet_after_shutdown.
Proof.
  split.
  - split; [intros w Hw; done|].
    intros w1 w2 w3 H12 H23 Hw. destruct (H12 Hw) as (Hw2 & Hp & Hh).
    destruct (H23 Hw2) as (Hw3 & Hp' & Hh'). repeat split; congruence.
  - intros f w Hw; done.
  - intros f w Hw; done.
  - intros f w Hw; done.
  - intros f w Hw; done.
  - intros t w Hw; done.
  - intros w Hw; done.
  - intros e w He Hw. split; [done|]. split; [|done].
    unfold published. cbn. rewrite List.filter_app. cbn. rewrite He. apply app_nil_r.
  - intros f w Hf Hw. split; [done|]. split; [done|]. cbn. apply Hf.
Qed.

Lemma heartbeat_loop_quiet tid timestamp :
  keeps quiet_after_shutdown (heartbeat_loop tid timestamp).
Proof.
  intros w Hw. destruct w as [ac si ht h ts ca co t tr]. cbn in Hw. subst si.
  unfold heartbeat_loop. run_handler. cbn.
  destruct (ts !! tid) as [[p canc]|]; [|done].
  destruct p, canc; cbn; try done;
    repeat (match goal with |- context [if ?b then _ else _] => destruct b end; cbn);
    try done.
  all: unfold published; cbn; rewrite List.filter_app; cbn; by rewrite app_nil_r.
Qed.

Lemma quiet_run w events : quiet_after_shutdown w (run events w).
Proof. apply (frame_run quiet_after_shutdown heartbeat_loop_quiet). Qed.

Lemma cancelled_sleeper_leaves w tid wake_at timestamp :
  tasks w !! tid = Some (Task (HbSleeping wake_at) true) →
  heartbeat_loop tid timestamp w
  = (Ok (), with_tasks (alter (λ t, Task HbDone (cancel_requested t)) tid) w).
Proof.
  intros Ht. unfold heartbeat_loop. run_handler. by rewrite Ht.
Qed.

(** C6.  Once the shutdown flag is set, whatever happens next (any
    sequence of connects, frames, disconnects, broadcasts, further
    shutdown requests, clock ticks and resumptions of heartbeat tasks),
    the flag stays set, no heartbeat is published to the channel layer
    and the heartbeat counter does not move; this holds in particular
    for the second part of every execution that starts from the initial
    process.  A heartbeat task that is cancelled while it sleeps leaves
    its loop at its next resumption, whether or not the 30 seconds have
    elapsed, without publishing and without touching a collector. *)
Theorem C6_no_heartbeat_after_shutdown :
  (∀ w events,
     shutdown_initiated w = true →
     shutdown_initiated (run events w) = true
     ∧ published (run events w) = published w
     ∧ websocket_heartbeats (collectors (run events w))
       = websocket_heartbeats (collectors w))
  ∧ (∀ epoch before after,
       shutdown_initiated (run before (initial epoch)) = true →
       published (run (before ++ after) (initial epoch))
       = published (run before (initial epoch))
       ∧ websocket_heartbeats (collectors (run (before ++ after) (initial epoch)))
         = websocket_heartbeats (collectors (run before (initial epoch))))
  ∧ (∀ w tid wake_at timestamp,
       tasks w !! tid = Some (Task (HbSleeping wake_at) false) →
       let w1 := exec (cancel tid) w in
       let w2 := step (Resumes tid timestamp) w1 in
       tasks w1 !! tid = Some (Task (HbSleeping wake_at) true)
       ∧ tasks w2 !! tid = Some (Task HbDone true)
       ∧ trace w2 = trace w
       ∧ collectors w2 = collectors w).
Proof.
  split; [|split].
  - intros w events Hw. exact (quiet_run w events Hw).
  - intros epoch before after Hw. rewrite run_app.
    destruct (quiet_run (run before (initial epoch)) after Hw) as (_ & Hp & Hh). done.
  - intros w tid wake_at timestamp Ht. cbn zeta.
    assert (Ht1 : tasks (exec (cancel tid) w) !! tid = Some (Task (HbSleeping wake_at) true)).
    { destruct w; cbn in *. by rewrite list_lookup_alter_eq, Ht. }
    split; [exact Ht1|]. unfold step, exec at 1 3 5.
    rewrite (cancelled_sleeper_leaves _ _ _ _ Ht1).
    destruct w; cbn in *. rewrite !list_lookup_alter_eq, Ht. done.
Qed.

Lemma C6_no_heartbeat_after_shutdown_witness :
  tasks heartbeat_asleep !! 0%nat = Some (Task (HbSleeping 30001) false)
  ∧ published (run [Tick 30000; Resumes 0 "t1"] heartbeat_asleep)
    = [GroupSend "broadcast" (broadcast_event "t1")]
  ∧ shutdown_initiated (step (Sigterm (λ _, SockOpen) (λ _, Some 5)) heartbeat_asleep) = true
  ∧ published (run [Tick 30000; Resumes 0 "t1"]
                 (step (Sigterm (λ _, SockOpen) (λ _, Some 5)) heartbeat_asleep)) = []
  ∧ tasks (step (Resumes 0 "t1") (exec (cancel 0) heartbeat_asleep)) !! 0%nat
    = Some (Task HbDone true)
  ∧ tasks (run [Disconnects 1 SockGone 1000 redis_up; Resumes 0 "t1"] heartbeat_asleep)
    = [Task HbDone true]
  ∧ published (run [Disconnects 1 SockGone 1000 redis_up; Resumes 0 "t1"] heartbeat_asleep) = [].
Proof.
  split; [vm_compute; reflexivity|]. split; [vm_compute; reflexivity|].
  split; [vm_compute; reflexivity|].
  destruct C6_no_heartbeat_after_shutdown as (Hquiet & _ & Hcancel).
  split; [|split; [|split; vm_compute; reflexivity]].
  - destruct (Hquiet (step (Sigterm (λ _, SockOpen) (λ _, Some 5)) heartbeat_asleep)
                [Tick 30000; Resumes 0 "t1"]) as (_ & Hp & _); [vm_compute; reflexivity|].
    rewrite Hp. vm_compute. reflexivity.
  - destruct (Hcancel heartbeat_asleep 0%nat 30001 "t1") as (_ & Hdone & _);
      [vm_compute; reflexivity|]. exact Hdone.
Defined.

(** ** The heartbeat task and the registry *)

(** C4 (the code departs from it).  In every reachable state outside a
    shutdown, [connect] creates a heartbeat task whenever the new
    connection is the only member of the registry, whatever tasks are
    still running, provided it gets as far: its query string decodes and
    its calls to Redis return.  After the registry has emptied through the
    disconnect of a connection that did not create the heartbeat task,
    that task is still asleep in its loop; the next connection finds the
    registry empty and creates a second task.  Both tasks are then active
    at the same time, and both publish a heartbeat when their 30 seconds
    have elapsed. *)
Theorem C4_second_heartbeat_task_is_started :
  (∀ w c connection_uuid q u io,
     reachable w → shutdown_initiated w = false → consumers w !! c = None →
     tasks (step (Connects c connection_uuid q u io) w)
     = if admitted q io && layer_up io
          && bool_decide (size ({[c]} ∪ active_connections w) = 1%nat)
       then tasks w ++ [Task HbCreated false] else tasks w)
  ∧ let w := run [Connects 3 "c-3" (Text "") "s-3" redis_up; Resumes 1 "t0"]
               registry_emptied in
    active_connections registry_emptied = ∅
    ∧ active_heartbeats registry_emptied = 1%nat
    ∧ elements (active_connections w) = [3%nat]
    ∧ tasks w = [Task (HbSleeping 30001) false; Task (HbSleeping 30001) false]
    ∧ active_heartbeats w = 2%nat
    ∧ published (run [Tick 30000; Resumes 0 "t1"; Resumes 1 "t2"] w)
      = [GroupSend "broadcast" (broadcast_event "t1");
         GroupSend "broadcast" (broadcast_event "t2")].
Proof.
  split; [|cbn zeta; repeat split; vm_compute; reflexivity].
  intros w c connection_uuid q u io Hw Hflag Hfresh.
  unfold step. rewrite Hfresh. unfold exec.
  destruct (connect_run c q u io (with_consumers (λ h, <[c := init connection_uuid]> h) w)
              (init connection_uuid) Hflag)
    as (w' & -> & _ & _ & _ & _ & _ & _ & _ & _ & Htasks); [apply lookup_insert_eq|].
  cbn [snd]. rewrite Htasks. unfold starts_heartbeat.
  cbn [own_heartbeat_task init active_connections with_consumers heartbeat_task tasks].
  rewrite (class_heartbeat_task_unset w Hw).
  by destruct (admitted q io && layer_up io),
       (bool_decide (size ({[c]} ∪ active_connections w) = 1%nat)).
Qed.

Lemma registry_emptied_reachable : reachable registry_emptied.
Proof. by eexists 1, _. Qed.

Lemma C4_second_heartbeat_task_is_started_witness :
  reachable registry_emptied
  ∧ tasks registry_emptied = [Task (HbSleeping 30001) false]
  ∧ tasks (step (Connects 3 "c-3" (Text "") "s-3" redis_up) registry_emptied)
    = [Task (HbSleeping 30001) false; Task HbCreated false].
Proof.
  split; [exact registry_emptied_reachable|]. split; [vm_compute; reflexivity|].
  destruct C4_second_heartbeat_task_is_started as [Hcreate _].
  rewrite (Hcreate registry_emptied 3%nat "c-3" (Text "") "s-3" redis_up
             registry_emptied_reachable);
    vm_compute; reflexivity.
Defined.

(** C5 (the code departs from it).  [graceful_shutdown] cancels the task
    named by the class attribute [heartbeat_task], which no reachable
    state sets: told to stop, the process leaves every heartbeat task as
    it is.  The disconnect that empties the registry cancels the task
    recorded in the instance of the disconnecting connection, and none if
    that instance has none: it cancels the heartbeat task only when it
    comes from the connection that created it, and only when its calls
    to Redis return.  After both connections
    of [registry_emptied] have left, the creator first, the task is
    asleep and no cancellation is requested. *)
Theorem C5_heartbeat_is_not_cancelled :
  (∀ w socks close_latency,
     reachable w → tasks (step (Sigterm socks close_latency) w) = tasks w)
  ∧ (∀ w c s sock close_code io,
       reachable w → consumers w !! c = Some s →
       tasks (step (Disconnects c sock close_code io) w)
       = match own_heartbeat_task s with
         | Some (Some tid) =>
             if runs_through io s
                && bool_decide (size (active_connections w ∖ {[c]}) = 0%nat)
             then alter request_cancel tid (tasks w) else tasks w
         | _ => tasks w
         end)
  ∧ active_connections registry_emptied = ∅
  ∧ tasks registry_emptied = [Task (HbSleeping 30001) false].
Proof.
  split; [|split; [|split; vm_compute; reflexivity]].
  - intros w socks close_latency Hw. unfold step, exec.
    destruct (graceful_shutdown_run socks close_latency w)
      as (w' & -> & _ & _ & _ & _ & Htasks & _).
    cbn [snd]. by rewrite Htasks, (class_heartbeat_task_unset w Hw).
  - intros w c s sock close_code io Hw Hs. unfold step, exec.
    destruct (disconnect_run c sock close_code io w s Hs)
      as (w' & -> & _ & _ & _ & Htasks & _).
    cbn [snd]. rewrite Htasks. unfold cancelled_by_disconnect.
    rewrite (class_heartbeat_task_unset w Hw).
    destruct (runs_through io s), (own_heartbeat_task s) as [[tid|]|];
      by destruct (bool_decide (size (active_connections w ∖ {[c]}) = 0%nat)).
Qed.

Lemma C5_heartbeat_is_not_cancelled_witness :
  reachable heartbeat_asleep
  ∧ tasks (step (Sigterm (λ _, SockOpen) (λ _, Some 5)) heartbeat_asleep)
    = [Task (HbSleeping 30001) false].
Proof.
  assert (Hreach : reachable heartbeat_asleep).
  { exists 1, [Connects 1 "c-1" (Text "") "s-1" redis_up; Resumes 0 "t0"]. reflexivity. }
  split; [exact Hreach|].
  destruct C5_heartbeat_is_not_cancelled as [Hstop _].
  rewrite (Hstop heartbeat_asleep (λ _, SockOpen) (λ _, Some 5) Hreach).
  vm_compute. reflexivity.
Defined.

(** * Further properties *)

(** ** The session identifier in the query string *)

Lemma str_length_app s1 s2 :
  String.length (s1 +:+ s2) = (String.length s1 + String.length s2)%nat.
Proof.
  induction s1 as [|a s1 IH]; [reflexivity|].
  change (S (String.length (s1 +:+ s2)) = S (String.length s1 + String.length s2)).
  by rewrite IH.
Qed.

(** Whether [sep] starts a string is decided by its first [length sep]
    characters. *)
Lemma prefix_app_long sep : ∀ x y,
  (String.length sep ≤ String.length x)%nat →
  String.prefix sep (x +:+ y) = String.prefix sep x.
Proof.
  induction sep as [|a sep IH]; intros x y Hlen.
  - by destruct x, y.
  - destruct x as [|b x]; [cbn in Hlen; lia|].
    change (String.prefix (String a sep) (String b (x +:+ y))
            = String.prefix (String a sep) (String b x)).
    cbn [String.prefix]. destruct (ascii_dec a b); [|done].
    apply IH. cbn in Hlen. lia.
Qed.

(** The text before the first separator: if no separator starts within
    [p], also not one that runs over its end, the first piece is [p]. *)
Lemma split_from_first init last p : ∀ piece rest,
  str_contains (init +:+ String last "") (p +:+ init) = false →
  split_from (init +:+ String last "") 0 piece (p +:+ (init +:+ String last "") +:+ rest)
  = (piece +:+ p) :: split_from (init +:+ String last "") 0 "" rest.
Proof.
  induction p as [|b p IH]; intros piece rest Hnone.
  - rewrite str_app_nil_r. change ("" +:+ ?s) with s.
    destruct init as [|a init]; apply split_from_leading.
  - change (String b p +:+ ?s) with (String b (p +:+ s)) in *.
    cbn [str_contains] in Hnone.
    destruct (String.prefix _ (String b (p +:+ init))) eqn:Hp; [discriminate|].
    cbn [split_from].
    replace (String b (p +:+ (init +:+ String last "") +:+ rest))
      with (String b (p +:+ init) +:+ (String last "" +:+ rest)).
    2:{ change (String b (p +:+ init) +:+ ?s) with (String b ((p +:+ init) +:+ s)).
        by rewrite !str_app_assoc. }
    rewrite prefix_app_long, Hp.
    2:{ cbn [String.length]. rewrite !str_length_app. cbn. lia. }
    rewrite IH by done. by rewrite str_app_assoc.
Qed.

Lemma str_contains_app_sep sep p rest : str_contains sep (p +:+ sep +:+ rest) = true.
Proof.
  induction p as [|b p IH].
  - change ("" +:+ ?s) with s. apply str_contains_prefix, prefix_append.
  - change (String b p +:+ ?s) with (String b (p +:+ s)).
    cbn [str_contains]. rewrite IH. by destruct (String.prefix _ _).
Qed.

Lemma prefix_empty s : String.prefix "" s = true.
Proof. by destruct s. Qed.

Lemma amp_free_snoc piece a s :
  str_contains "&" piece = false →
  String.prefix "&" (String a s) = false →
  str_contains "&" (piece +:+ String a "") = false.
Proof.
  intros Hpiece Ha. cbn [String.prefix] in Ha.
  induction piece as [|b piece IH].
  - change (str_contains "&" (String a "") = false). cbn [str_contains String.prefix].
    destruct (ascii_dec "&" a); [by rewrite prefix_empty in Ha | done].
  - change (str_contains "&" (String b (piece +:+ String a "")) = false).
    cbn [str_contains String.prefix] in Hpiece |- *.
    destruct (ascii_dec "&" b); [by rewrite prefix_empty in Hpiece|].
    by apply IH.
Qed.

Lemma split_amp_head s : ∀ piece x l,
  str_contains "&" piece = false →
  split_from "&" 0 piece s = x :: l →
  str_contains "&" x = false.
Proof.
  induction s as [|a s IH]; intros piece x l Hpiece; cbn [split_from].
  - by intros [= <- _].
  - destruct (String.prefix "&" (String a s)) eqn:Ha.
    + by intros [= <- _].
    + apply IH. by apply (amp_free_snoc _ _ s).
Qed.

(** The parameter among others: after any text [p] in which the
    parameter does not start, and followed by a value [v] without
    ampersand that runs to the end or to the next ampersand. *)
Lemma session_of_query_among (p v t : string) :
  str_contains "session_uuid=" (p +:+ SESSION_PARAMETER) = false →
  str_contains "session_uuid=" (v +:+ t) = false →
  str_contains "&" v = false →
  (t = "" ∨ ∃ t', t = "&" +:+ t') →
  session_of_query (p +:+ "session_uuid=" +:+ v +:+ t) = Some v.
Proof.
  intros Hp Hvt Hv Ht. unfold session_of_query, str_split.
  rewrite str_contains_app_sep.
  assert (Hfirst : split_from "session_uuid=" 0 "" (p +:+ "session_uuid=" +:+ v +:+ t)
                   = p :: split_from "session_uuid=" 0 "" (v +:+ t))
    by exact (split_from_first SESSION_PARAMETER "=" p "" (v +:+ t) Hp).
  rewrite Hfirst, (split_from_absent _ _ _ Hvt). cbn.
  change ("" +:+ ?s) with s.
  destruct Ht as [-> | [t' ->]].
  - rewrite str_app_nil_r, (split_from_absent _ _ _ Hv). reflexivity.
  - assert (Hamp : split_from "&" 0 "" (v +:+ "&" +:+ t')
                   = v :: split_from "&" 0 "" t').
    { apply (split_from_first "" "&" v "" t'). by rewrite str_app_nil_r. }
    by rewrite Hamp.
Qed.

Lemma session_of_query_shape (q : string) :
  (session_of_query q = None ↔ str_contains "session_uuid=" q = false)
  ∧ (∀ session, session_of_query q = Some session → str_contains "&" session = false).
Proof.
  split.
  - split.
    + intros Hnone. destruct (str_contains "session_uuid=" q) eqn:Hin; [|done].
      destruct (connect_reads_session q Hin) as (? & ? & ? & session & ? & _ & _ & Hsome).
      congruence.
    + intros Hin. unfold session_of_query. by rewrite Hin.
  - intros session Hq. unfold session_of_query in Hq.
    destruct (str_contains "session_uuid=" q); [|discriminate].
    destruct (str_split "session_uuid=" q !! 1%nat) as [rest|]; [|discriminate].
    cbn in Hq. unfold str_split in Hq.
    destruct (split_from "&" 0 "" rest) as [|x l] eqn:Hsplit; [discriminate|].
    cbn in Hq. injection Hq as ->. by apply (split_amp_head rest "" session l).
Qed.

(** X1.  Outside a shutdown, a [connect] whose query string decodes to a
    text in which [session_uuid=] occurs once, after any text [p] and
    followed by a value [v] without ampersand that runs to the end or to
    the next ampersand, returns with the session identifier of the
    connection set to [v]: other parameters before and after do not
    matter, and neither does the state of Redis. *)
Theorem X1_session_of_query_among_parameters
    (c : nat) (p v t u : string) (io : backend) (w : world) (s : consumer) :
  shutdown_initiated w = false →
  consumers w !! c = Some s →
  str_contains "session_uuid=" (p +:+ SESSION_PARAMETER) = false →
  str_contains "session_uuid=" (v +:+ t) = false →
  str_contains "&" v = false →
  (t = "" ∨ ∃ t', t = "&" +:+ t') →
  ∃ w', connect c (Text (p +:+ "session_uuid=" +:+ v +:+ t)) u io w = (Ok (), w')
    ∧ session_id <$> consumers w' !! c = Some (Some v).
Proof.
  intros Hflag Hs Hp Hvt Hv Ht.
  destruct (connect_run c (Text (p +:+ "session_uuid=" +:+ v +:+ t)) u io w s Hflag Hs)
    as (w' & Hrun & Hsession & _).
  exists w'. split; [exact Hrun|].
  by rewrite Hsession, (session_of_query_among p v t Hp Hvt Hv Ht).
Qed.

Lemma X1_session_of_query_among_parameters_witness :
  ∃ w', connect 2 (Text "room=7&session_uuid=abc-123&lang=en") "s-2" (Backend true false)
          second_socket = (Ok (), w')
    ∧ session_id <$> consumers w' !! 2%nat = Some (Some "abc-123").
Proof.
  apply (X1_session_of_query_among_parameters 2 "room=7&" "abc-123" "&lang=en" "s-2"
           (Backend true false) second_socket (init "c-2"));
    [reflexivity | reflexivity | reflexivity | reflexivity | reflexivity
    | right; by exists "lang=en"].
Defined.

(** X2.  What [connect] makes of the query string.  During a shutdown it
    does not look at it: the session identifier stays as it was and the
    socket is closed with 1001.  Outside a shutdown, if the bytes do not
    decode, the session identifier stays as it was and the socket is
    closed with 1011; if they decode, [connect] reads the session
    identifier from the text exactly when [session_uuid=] occurs in it
    (the two subscripts never raise [IndexError]), that identifier never
    contains an ampersand, and without the parameter the identifier is
    the fresh UUID. *)
Theorem X2_session_of_query_shape
    (c : nat) (query : decode_result) (u : string) (io : backend) (w : world)
    (s : consumer) :
  consumers w !! c = Some s →
  ∃ w', connect c query u io w = (Ok (), w')
    ∧ (shutdown_initiated w = true →
         session_id <$> consumers w' !! c = Some (session_id s)
         ∧ closes_of c (trace w') = closes_of c (trace w) ++ [1001])
    ∧ (shutdown_initiated w = false → query = NotUTF8 →
         session_id <$> consumers w' !! c = Some (session_id s)
         ∧ closes_of c (trace w') = closes_of c (trace w) ++ [1011])
    ∧ (∀ q, shutdown_initiated w = false → query = Text q →
         (str_contains "session_uuid=" q = true →
            ∃ session,
              session_id <$> consumers w' !! c = Some (Some session)
              ∧ session_of_query q = Some session
              ∧ str_contains "&" session = false)
         ∧ (str_contains "session_uuid=" q = false →
              session_id <$> consumers w' !! c = Some (Some u))).
Proof.
  intros Hs. destruct (shutdown_initiated w) eqn:Hflag.
  - rewrite (connect_rejected c query u io w Hflag). eexists. split; [reflexivity|].
    split; [|split; [discriminate | intros q; discriminate]].
    intros _. destruct w as [ac si ht h ts ca co t tr]. cbn in Hs. fields.
    rewrite Hs, closes_of_app. unfold closes_of at 2. cbn. by rewrite decide_True.
  - destruct (connect_run c query u io w s Hflag Hs)
      as (w' & Hrun & Hsession & _ & _ & _ & Hcloses & _).
    exists w'. split; [exact Hrun|]. split; [discriminate|]. split.
    + intros _ ->. split; [exact Hsession | exact Hcloses].
    + intros q _ ->. rewrite Hsession.
      destruct (session_of_query_shape q) as [Hnone Hamp]. split.
      * intros Hin.
        assert (Hcases : session_of_query q = None
                         ∨ ∃ session, session_of_query q = Some session)
          by (destruct (session_of_query q); eauto).
        destruct Hcases as [Hq | [session Hq]].
        -- apply Hnone in Hq. congruence.
        -- exists session. rewrite Hq. split; [done|]. split; [done | by apply Hamp].
      * intros Hin. apply Hnone in Hin. by rewrite Hin.
Qed.

Lemma X2_session_of_query_shape_witness :
  ∃ w', connect 2 NotUTF8 "s-2" redis_up second_socket = (Ok (), w')
    ∧ session_id <$> consumers w' !! 2%nat = Some None
    ∧ closes_of 2 (trace w') = [1011].
Proof.
  destruct (X2_session_of_query_shape 2 NotUTF8 "s-2" redis_up second_socket (init "c-2")
              eq_refl) as (w' & Hrun & _ & Hbytes & _).
  destruct (Hbytes eq_refl eq_refl) as [Hsession Hcloses].
  exists w'. split; [exact Hrun|]. split; [exact Hsession | exact Hcloses].
Defined.

(** ** receive on every frame and every socket *)

Lemma receive_outcome c sock frame w s :
  consumers w !! c = Some s →
  ∃ r w', receive c sock frame w = (r, w')
    ∧ count_of c w' = Some (message_count s + (if decodes_to_object frame then 1 else 0))
    ∧ websocket_messages (collectors w')
      = websocket_messages (collectors w) + (if decodes_to_object frame then 1 else 0)
    ∧ r = match sock with SockOpen => Ok () | SockGone => Raise ConnectionClosed end
    ∧ (sock = SockGone → sent_to c (trace w') = sent_to c (trace w))
    ∧ (sock = SockGone → ∀ k,
         websocket_errors (collectors w') k
         = websocket_errors (collectors w) k
           + (if decide (k = match frame with
                             | NotJSON => invalid_json
                             | _ => receive_error
                             end) then 1 else 0))
    ∧ closes_of c (trace w') = closes_of c (trace w)
    ∧ active_connections w' = active_connections w.
Proof.
  intros Hs. destruct w as [ac si ht h ts ca co t tr]. cbn in Hs.
  unfold count_of.
  destruct frame as [v| | |]; [destruct v as [| | | | | |items]| | |]; destruct sock;
    unfold receive; run_handler; cbn.
  all: try (fold (message_of items); destruct (len_of (message_of items)); cbn).
  all: rewrite ?(lookup_total_Some _ _ _ Hs), ?(lookup_total_alter_Some _ _ _ _ Hs); cbn.
  all: eexists _, _; (split; [reflexivity|]); cbn.
  all: rewrite ?lookup_alter_eq, Hs; cbn.
  all: rewrite ?Z.add_0_r.
  all: unfold sent_to, closes_of; rewrite ?omap_app; cbn; rewrite ?app_nil_r.
  all: repeat split; try done.
  all: try (by destruct s).
  all: try (intros _ k; destruct (decide _); lia).
Qed.

(** X3.  Whatever the frame and whether or not the client can still be
    reached, [receive] moves the count of the connection and the counter
    [websocket_messages_total] by the same amount: by one if the frame
    decodes to a JSON object (whatever its members, and also when the
    reply cannot be delivered or the length of the message cannot be
    taken), by nothing otherwise.  It closes nothing and leaves the
    registry alone. *)
Theorem X3_receive_count_and_counter_agree
    (c : nat) (sock : socket) (frame : loads_result) (w : world) (s : consumer) :
  consumers w !! c = Some s →
  let w' := step (Receives c sock frame) w in
  let d := if decodes_to_object frame then 1 else 0 in
  count_of c w' = Some (message_count s + d)
  ∧ websocket_messages (collectors w') = websocket_messages (collectors w) + d
  ∧ closes_of c (trace w') = closes_of c (trace w)
  ∧ active_connections w' = active_connections w.
Proof.
  intros Hs. cbn zeta. unfold step, exec.
  destruct (receive_outcome c sock frame w s Hs)
    as (r & w' & -> & Hcount & Hmessages & _ & _ & _ & Hcloses & Hactive).
  done.
Qed.

Lemma X3_receive_count_and_counter_agree_witness :
  count_of 1 (step (Receives 1 SockGone (Decoded (JObj [("message", JInt 7)])))
                fresh_connection) = Some 1
  ∧ websocket_messages
      (collectors (step (Receives 1 SockGone (Decoded (JObj [("message", JInt 7)])))
                     fresh_connection)) = 1.
Proof.
  destruct (X3_receive_count_and_counter_agree 1 SockGone
              (Decoded (JObj [("message", JInt 7)])) fresh_connection _ eq_refl)
    as (Hcount & Hmessages & _).
  split; [exact Hcount | exact Hmessages].
Defined.

(** X4.  When the client can no longer be reached, [receive] does not
    return: the send of the reply fails, the handler that counts the
    error tries to send the error frame, and the failure of that send
    leaves [receive] as an exception.  Nothing is delivered, and exactly
    one error is counted: under [invalid_json] for a frame on which
    [json.loads] raises [JSONDecodeError], and under [receive_error] for
    every other frame, that is for a frame on which [json.loads] raises
    [ValueError] or [RecursionError] and for every frame that decodes,
    also a well-formed message. *)
Theorem X4_receive_on_closed_socket_raises
    (c : nat) (frame : loads_result) (w : world) (s : consumer) :
  consumers w !! c = Some s →
  ∃ w', receive c SockGone frame w = (Raise ConnectionClosed, w')
    ∧ sent_to c (trace w') = sent_to c (trace w)
    ∧ ∀ k, websocket_errors (collectors w') k
           = websocket_errors (collectors w) k
             + (if decide (k = match frame with
                               | NotJSON => invalid_json
                               | _ => receive_error
                               end) then 1 else 0).
Proof.
  intros Hs.
  destruct (receive_outcome c SockGone frame w s Hs)
    as (r & w' & Hrun & _ & _ & -> & Hsent & Herrors & _).
  exists w'. split; [exact Hrun|]. split; [by apply Hsent | by apply Herrors].
Qed.

Lemma X4_receive_on_closed_socket_raises_witness :
  ∃ w', receive 1 SockGone (chat "hello") fresh_connection = (Raise ConnectionClosed, w')
    ∧ sent_to 1 (trace w') = []
    ∧ websocket_errors (collectors w') receive_error = 1.
Proof.
  destruct (X4_receive_on_closed_socket_raises 1 (chat "hello") fresh_connection _ eq_refl)
    as (w' & Hrun & Hsent & Herrors).
  exists w'. split; [exact Hrun|]. split; [exact Hsent|]. exact (Herrors receive_error).
Defined.

(** X5.  A frame that decodes to an object whose [message] member has no
    length (a number, a boolean or [null]) is counted and answered with
    the count, and then answered a second time with the internal-error
    frame: [len(message)] is evaluated for the debug record after the
    reply was sent, and its [TypeError] reaches the generic handler. *)
Theorem X5_receive_message_without_length
    (c : nat) (items : list (string * json)) (w : world) (s : consumer) :
  consumers w !! c = Some s →
  len_of (message_of items) = None →
  ∃ w', receive c SockOpen (Decoded (JObj items)) w = (Ok (), w')
    ∧ count_of c w' = Some (message_count s + 1)
    ∧ trace w' = trace w ++ [Send c (count_reply (message_count s + 1));
                             Log ERROR (ReceiveError TypeError);
                             Send c (error_reply "Internal error")]
    ∧ websocket_messages (collectors w') = websocket_messages (collectors w) + 1
    ∧ websocket_errors (collectors w') receive_error
      = websocket_errors (collectors w) receive_error + 1.
Proof.
  intros Hs Hlen. destruct w as [ac si ht h ts ca co t tr]. cbn in Hs.
  unfold receive, count_of. run_handler. cbn. fold (message_of items). rewrite Hlen. cbn.
  rewrite ?(lookup_total_Some _ _ _ Hs), ?(lookup_total_alter_Some _ _ _ _ Hs). cbn.
  eexists. split; [reflexivity|]. cbn.
  rewrite lookup_alter_eq, Hs, <- !app_assoc. cbn. done.
Qed.

Lemma X5_receive_message_without_length_witness :
  ∃ w', receive 1 SockOpen (Decoded (JObj [("message", JInt 7)])) fresh_connection = (Ok (), w')
    ∧ count_of 1 w' = Some 1
    ∧ sent_to 1 (trace w') = [count_reply 1; error_reply "Internal error"].
Proof.
  destruct (X5_receive_message_without_length 1 [("message", JInt 7)] fresh_connection _
              eq_refl eq_refl) as (w' & Hrun & Hcount & Htrace & _).
  exists w'. split; [exact Hrun|]. split; [exact Hcount|].
  rewrite Htrace. vm_compute. reflexivity.
Defined.

(** ** The heartbeat task *)

Lemma published_emit e w :
  published (with_trace (λ t, t ++ [e]) w)
  = published w ++ (if is_publish e then [e] else []).
Proof. unfold published. cbn. rewrite List.filter_app. cbn. by destruct (is_publish e). Qed.

Global Instance heartbeats_accounted_frame : Frame heartbeats_accounted.
Proof.
  split; try (intros; unfold heartbeats_accounted; reflexivity).
  - constructor.
    + intros w. reflexivity.
    + intros w1 w2 w3. unfold heartbeats_accounted. congruence.
  - intros e w He. unfold heartbeats_accounted.
    rewrite published_emit, He, app_nil_r. reflexivity.
  - intros f w Hf. unfold heartbeats_accounted. cbn. by rewrite Hf.
Qed.

Lemma heartbeat_loop_accounted tid timestamp :
  keeps heartbeats_accounted (heartbeat_loop tid timestamp).
Proof.
  intros w. destruct w as [ac si ht h ts ca co t tr].
  unfold heartbeats_accounted, heartbeat_loop. run_handler. cbn.
  destruct (ts !! tid) as [[p canc]|]; [|done].
  destruct p, canc; cbn; try done;
    repeat (match goal with |- context [if ?b then _ else _] => destruct b end; cbn);
    try done.
  all: unfold published; cbn; rewrite List.filter_app, length_app; cbn; lia.
Qed.

Global Instance publishes_heartbeats_frame : Frame publishes_heartbeats.
Proof.
  split; try (intros; unfold publishes_heartbeats, only_heartbeats; done).
  - constructor.
    + intros w. unfold publishes_heartbeats. done.
    + intros w1 w2 w3. unfold publishes_heartbeats. auto.
  - intros e w He. unfold publishes_heartbeats, only_heartbeats.
    rewrite published_emit, He, app_nil_r. done.
Qed.

Lemma heartbeat_loop_publishes_heartbeats tid timestamp :
  keeps publishes_heartbeats (heartbeat_loop tid timestamp).
Proof.
  intros w Hw. destruct w as [ac si ht h ts ca co t tr].
  unfold only_heartbeats in *. unfold heartbeat_loop. run_handler. cbn.
  destruct (ts !! tid) as [[p canc]|]; [|done].
  destruct p, canc; cbn; try done;
    repeat (match goal with |- context [if ?b then _ else _] => destruct b end; cbn);
    try done.
  all: unfold published in *; cbn in *; rewrite List.filter_app; cbn;
    rewrite ?app_nil_r; try done.
  intros e [He | ->%list_elem_of_singleton]%elem_of_app; [by apply Hw|].
  by exists timestamp.
Qed.

(** X6.  The counter [websocket_heartbeats_total] counts exactly the
    heartbeats handed to the channel layer: over any sequence of events
    the counter and the number of published heartbeats grow by the same
    amount, so in every state the process can reach from its start the
    two are equal. *)
Theorem X6_heartbeat_counter_counts_publishes :
  (∀ w events,
     websocket_heartbeats (collectors (run events w)) - websocket_heartbeats (collectors w)
     = Z.of_nat (List.length (published (run events w)))
       - Z.of_nat (List.length (published w)))
  ∧ (∀ epoch events,
       websocket_heartbeats (collectors (run events (initial epoch)))
       = Z.of_nat (List.length (published (run events (initial epoch))))).
Proof.
  assert (Hrun : ∀ w events, heartbeats_accounted w (run events w))
    by (intros w events; apply (frame_run heartbeats_accounted heartbeat_loop_accounted)).
  split.
  - intros w events. specialize (Hrun w events). unfold heartbeats_accounted in Hrun. lia.
  - intros epoch events. specialize (Hrun (initial epoch) events).
    unfold heartbeats_accounted in Hrun. cbn in Hrun. lia.
Qed.

(** X7.  Whatever the process has published to the channel layer is a
    heartbeat for the group [broadcast]: an event of type
    [broadcast_message] whose [message] member is [{"ts": timestamp}].
    When the channel layer delivers it to a consumer, [broadcast_message]
    finds the member and forwards exactly [{"ts": timestamp}] to the
    client.  An event without a [message] member makes
    [broadcast_message] raise [KeyError] without sending anything. *)
Theorem X7_published_events_are_deliverable :
  (∀ epoch events group event,
     GroupSend group event ∈ trace (run events (initial epoch)) →
     group = "broadcast"
     ∧ ∃ timestamp,
         event = JObj [("type", JStr "broadcast_message");
                       ("message", JObj [("ts", JStr timestamp)])]
         ∧ ∀ c w, broadcast_message c SockOpen event w
                  = (Ok (), with_trace (λ t, t ++ [Send c (JObj [("ts", JStr timestamp)])]) w))
  ∧ (∀ c sock items w,
       assoc "message" items = None →
       broadcast_message c sock (JObj items) w = (Raise KeyError, w)).
Proof.
  split.
  - intros epoch events group event Hin.
    assert (Hall : only_heartbeats (run events (initial epoch))).
    { apply (frame_run publishes_heartbeats heartbeat_loop_publishes_heartbeats).
      intros e He. unfold published in He. cbn in He. by apply elem_of_nil in He. }
    destruct (Hall (GroupSend group event)) as [timestamp Heq].
    { unfold published. apply list_elem_of_In, filter_In. split; [|done].
      by apply list_elem_of_In. }
    injection Heq as -> ->. split; [done|]. exists timestamp. split; [done|].
    intros c w. reflexivity.
  - intros c sock items w Hnone. unfold broadcast_message. run_handler. by rewrite Hnone.
Qed.

Lemma X7_published_events_are_deliverable_witness :
  ∃ timestamp,
    ∀ c w, broadcast_message c SockOpen (broadcast_event "t1") w
           = (Ok (), with_trace (λ t, t ++ [Send c (JObj [("ts", JStr timestamp)])]) w).
Proof.
  destruct X7_published_events_are_deliverable as [Hpublished _].
  destruct (Hpublished 1 [Connects 1 "c-1" (Text "") "s-1" redis_up; Resumes 0 "t0"; Tick 30000; Resumes 0 "t1"]
              "broadcast" (broadcast_event "t1")) as (_ & timestamp & _ & Hdeliver).
  { apply list_elem_of_In. vm_compute. do 3 right. left. reflexivity. }
  by exists timestamp.
Defined.






(** ** What a handler keeps, update by update *)

Section Rules.
Context (R : relation world) {attr_ok active_ok cache_ok collect_ok emit_ok}
  `{!Rules R attr_ok active_ok cache_ok collect_ok emit_ok}.

Lemma holds_ret {A} (a : A) : keeps R (mret a).
Proof. intros w. reflexivity. Qed.

Lemma holds_raise {A} e : keeps R (raise (A := A) e).
Proof. intros w. reflexivity. Qed.

Lemma holds_gets {A} (f : world → A) : keeps R (gets f).
Proof. intros w. reflexivity. Qed.

Lemma holds_attr {A} (f : consumer → A) c : keeps R (attr f c).
Proof. apply holds_gets. Qed.

Lemma holds_modify f : (∀ w, R w (f w)) → keeps R (modify f).
Proof. intros H w. apply H. Qed.

Lemma holds_bind {A B} (m : M A) (k : A → M B) :
  keeps R m → (∀ a, keeps R (k a)) → keeps R (m ≫= k).
Proof.
  intros Hm Hk w. specialize (Hm w). unfold mbind, M_bind.
  destruct (m w) as [[a|e] w1]; cbn in *; [|done].
  etrans; [exact Hm | apply Hk].
Qed.

Lemma holds_try_except {A} (body : M A) handler :
  keeps R body → (∀ e h, handler e = Some h → keeps R h) →
  keeps R (try_except body handler).
Proof.
  intros Hbody Hh w. specialize (Hbody w). unfold try_except.
  destruct (body w) as [[a|e] w1]; cbn in *; [done|].
  destruct (handler e) as [h|] eqn:He; [|done].
  etrans; [exact Hbody | by apply (Hh e)].
Qed.

Lemma holds_swallow {A} (m : M A) (a : A) :
  keeps R m → keeps R (try_except m (λ _, Some (mret a))).
Proof.
  intros Hm. apply holds_try_except; [done|]. intros e h [= <-]. apply holds_ret.
Qed.

Lemma holds_emit e : emit_ok e → keeps R (emit e).
Proof. intros He. apply holds_modify. intros w. by apply rules_emit. Qed.

Lemma holds_setattr g c : attr_ok g c → keeps R (setattr g c).
Proof. intros Hg. apply holds_modify. intros w. by apply rules_setattr. Qed.

Lemma holds_collect f : collect_ok f → keeps R (collect f).
Proof. intros Hf. apply holds_modify. intros w. by apply rules_collect. Qed.

Lemma holds_register f : active_ok f → keeps R (modify (with_active f)).
Proof. intros Hf. apply holds_modify. intros w. by apply rules_active. Qed.

Lemma holds_send c sock v :
  emit_ok (Send c v) → emit_ok (SendFailed c v) → keeps R (send c sock v).
Proof.
  intros Hsend Hfailed. destruct sock; cbn [send]; [by apply holds_emit|].
  apply holds_bind; [by apply holds_emit | intros _; apply holds_raise].
Qed.

Lemma holds_cancel tid : keeps R (cancel tid).
Proof. apply holds_modify. intros w. apply rules_tasks. Qed.

Lemma holds_set_pc tid p : keeps R (set_pc tid p).
Proof. apply holds_modify. intros w. apply rules_tasks. Qed.

Lemma holds_create_task : keeps R create_task.
Proof.
  apply holds_bind; [apply holds_gets | intros tid].
  apply holds_bind; [|intros _; apply holds_ret].
  apply holds_modify. intros w. apply rules_tasks.
Qed.

Lemma holds_decode query : keeps R (decode query).
Proof. destruct query; [apply holds_ret | apply holds_raise]. Qed.

Lemma holds_via_redis {A} up (call : M A) : keeps R call → keeps R (via_redis up call).
Proof. intros Hcall. destruct up; [exact Hcall | apply holds_raise]. Qed.

Lemma holds_subscript {A} (l : list A) i : keeps R (subscript l i).
Proof. unfold subscript. destruct (l !! i); [apply holds_ret | apply holds_raise]. Qed.

Lemma holds_get_cached_session session :
  emit_ok (CacheGet (cache_key session)) → keeps R (get_cached_session session).
Proof.
  intros He. apply holds_bind; [by apply holds_emit | intros _; apply holds_gets].
Qed.

Lemma holds_cache_session session n :
  emit_ok (CacheSet (cache_key session) n SESSION_TIMEOUT) →
  (∀ expires, cache_ok (λ m, <[cache_key session := (n, expires)]> m)) →
  keeps R (cache_session session n).
Proof.
  intros He Hcache. apply holds_bind; [by apply holds_emit | intros _].
  apply holds_modify. intros w. apply rules_cache, Hcache.
Qed.

Lemma holds_sleep d : keeps R (sleep d).
Proof. apply holds_modify. intros w. apply rules_now. Qed.

Lemma holds_set_shutdown : keeps R (modify (with_shutdown true)).
Proof. apply holds_modify. intros w. apply rules_shutdown. Qed.

Lemma holds_loop_head tid : keeps R (loop_head tid).
Proof.
  apply holds_bind; [apply holds_gets | intros w].
  destruct (_ && _); apply holds_set_pc.
Qed.

Lemma holds_say_goodbye socks snapshot :
  (∀ c, attr_ok (set_graceful_close true) c) →
  (∀ e, to_client_or_log e = true → emit_ok e) →
  ∀ pending, keeps R (say_goodbye socks snapshot pending).
Proof.
  intros Hattr Hemit.
  induction snapshot as [|c rest IH]; intros pending; cbn [say_goodbye].
  - apply holds_ret.
  - apply holds_bind; [by apply holds_setattr | intros _].
    apply holds_bind; [apply holds_attr | intros total].
    apply holds_bind; [|intros _; apply IH].
    apply holds_swallow, holds_send; by apply Hemit.
Qed.

Lemma holds_start_all pending :
  (∀ e, to_client_or_log e = true → emit_ok e) → keeps R (start_all pending).
Proof.
  intros Hemit. induction pending as [|[c code] rest IH]; cbn [start_all].
  - apply holds_ret.
  - apply holds_bind; [|intros _; apply IH]. apply holds_emit. by apply Hemit.
Qed.

Lemma holds_wait_for_gather lat pending timeout :
  (∀ e, to_client_or_log e = true → emit_ok e) →
  keeps R (wait_for_gather lat pending timeout).
Proof.
  intros Hemit. unfold wait_for_gather.
  apply holds_bind; [by apply holds_start_all | intros _].
  destruct (gather_done lat pending) as [d|]; [destruct (d <? milliseconds timeout)|].
  - apply holds_sleep.
  - apply holds_bind; [apply holds_sleep | intros _; apply holds_raise].
  - apply holds_bind; [apply holds_sleep | intros _; apply holds_raise].
Qed.

(** What follows the goodbyes in [graceful_shutdown]. *)
Lemma holds_after_goodbyes lat (pending : list (nat * Z)) shutdown_start :
  (∀ e, to_client_or_log e = true → emit_ok e) →
  (∀ d, collect_ok (observe_shutdown_duration d)) →
  keeps R (match pending with
           | [] => mret ()
           | _ => wait_for_gather lat pending SHUTDOWN_WAIT
           end ;;
           t ← gets now;
           let shutdown_duration := t - shutdown_start in
           collect (observe_shutdown_duration shutdown_duration) ;;
           log INFO (GracefulShutdownCompleted shutdown_duration)).
Proof.
  intros Hemit Hcollect.
  apply holds_bind; [|intros _].
  { destruct pending; [apply holds_ret | by apply holds_wait_for_gather]. }
  apply holds_bind; [apply holds_gets | intros t]. cbv zeta.
  apply holds_bind; [by apply holds_collect | intros _].
  apply holds_emit. by apply Hemit.
Qed.

Lemma holds_graceful_shutdown socks lat :
  (∀ c, attr_ok (set_graceful_close true) c) →
  (∀ e, to_client_or_log e = true → emit_ok e) →
  (∀ d, collect_ok (observe_shutdown_duration d)) →
  keeps R (graceful_shutdown socks lat).
Proof.
  intros Hattr Hemit Hcollect. unfold graceful_shutdown.
  apply holds_bind; [apply holds_gets | intros shutdown_start].
  apply holds_bind; [apply holds_set_shutdown | intros _].
  apply holds_bind; [apply holds_gets | intros active].
  apply holds_bind; [apply holds_emit; by apply Hemit | intros _].
  apply holds_bind; [apply holds_gets | intros running].
  apply holds_bind; [destruct running; [apply holds_cancel | apply holds_ret] | intros _].
  apply holds_bind; [apply holds_gets | intros snapshot].
  apply holds_bind; [by apply holds_say_goodbye | intros pending].
  by apply holds_after_goodbyes.
Qed.

End Rules.

(** [holds side] takes a handler apart down to its updates and leaves
    the condition of each update to [side]. *)
Ltac holds_by lem := eapply lem; [typeclasses eauto | ..].

Ltac holds_prim side :=
  lazymatch goal with
  | |- keeps _ (mret _) => holds_by @holds_ret
  | |- keeps _ (raise _) => holds_by @holds_raise
  | |- keeps _ (gets _) => holds_by @holds_gets
  | |- keeps _ (attr _ _) => holds_by @holds_attr
  | |- keeps _ (cancel _) => holds_by @holds_cancel
  | |- keeps _ (set_pc _ _) => holds_by @holds_set_pc
  | |- keeps _ create_task => holds_by @holds_create_task
  | |- keeps _ (subscript _ _) => holds_by @holds_subscript
  | |- keeps _ (decode _) => holds_by @holds_decode
  | |- keeps _ (sleep _) => holds_by @holds_sleep
  | |- keeps _ (modify (with_shutdown true)) => holds_by @holds_set_shutdown
  | |- keeps _ (loop_head _) => holds_by @holds_loop_head
  | |- keeps _ (setattr _ _) => holds_by @holds_setattr; side
  | |- keeps _ (send _ _ _) => holds_by @holds_send; side
  | |- keeps _ (get_cached_session _) => holds_by @holds_get_cached_session; side
  | |- keeps _ (cache_session _ _) => holds_by @holds_cache_session; side
  | |- keeps _ (emit _) => holds_by @holds_emit; side
  | |- keeps _ (collect _) => holds_by @holds_collect; side
  | |- keeps _ (modify (with_active _)) => holds_by @holds_register; side
  end.

Ltac holds side :=
  repeat first
    [ holds_prim side
    | lazymatch goal with
      | |- keeps _ (try_except _ (λ _, Some (mret _))) => holds_by @holds_swallow
      | |- keeps _ (via_redis _ _) => holds_by @holds_via_redis
      | |- keeps _ (_ ≫= _) => holds_by @holds_bind; [|intros ?]
      | |- keeps _ (match ?x with _ => _ end) => destruct x
      | |- keeps _ (let _ := _ in _) => cbv zeta
      end ].

Ltac holds_handler side :=
  holds_by @holds_try_except;
  [ holds side
  | let e := fresh "e" in let h := fresh "h" in let He := fresh "He" in
    intros e h He; destruct e; cbn in He; try discriminate He;
    injection He as <-; holds side ].

Ltac holds_receive side :=
  unfold receive, json_loads, dict_get, py_len, log; holds_handler side.

Ltac holds_connect side :=
  unfold connect, close, log, self_heartbeat_task; holds_handler side.

Ltac holds_disconnect side :=
  unfold disconnect, log, self_heartbeat_task; holds_handler side.

Ltac holds_broadcast_message side :=
  unfold broadcast_message; holds side.

Ltac holds_heartbeat_loop side :=
  unfold heartbeat_loop, log; holds side.

(** *** The instances of a process stay *)

Global Instance same_instances_rules :
  Rules same_instances (λ _ _, True) (λ _, True) (λ _, True) (λ _, True) (λ _, True).
Proof.
  split; try (intros; unfold same_instances; reflexivity).
  - constructor.
    + intros w. reflexivity.
    + intros w1 w2 w3. unfold same_instances. congruence.
  - intros g c w _. unfold same_instances. cbn. apply dom_alter_L.
Qed.

Lemma same_instances_receive c sock frame : keeps same_instances (receive c sock frame).
Proof. holds_receive done. Qed.

Lemma same_instances_connect c q u io : keeps same_instances (connect c q u io).
Proof. holds_connect done. Qed.

Lemma same_instances_disconnect c sock code io :
  keeps same_instances (disconnect c sock code io).
Proof. holds_disconnect done. Qed.

Lemma same_instances_broadcast_message c sock event :
  keeps same_instances (broadcast_message c sock event).
Proof. holds_broadcast_message done. Qed.

Lemma same_instances_heartbeat_loop tid timestamp :
  keeps same_instances (heartbeat_loop tid timestamp).
Proof. holds_heartbeat_loop done. Qed.

Lemma same_instances_graceful_shutdown socks lat :
  keeps same_instances (graceful_shutdown socks lat).
Proof. by apply (holds_graceful_shutdown same_instances). Qed.

(** No event removes a consumer instance. *)
Lemma same_instances_step e w :
  dom (consumers w) ⊆ dom (consumers (step e w)).
Proof.
  destruct e as [dt | c uuid q u io | c sock frame | c sock code io | c sock ev | socks lat
                 | tid timestamp]; cbn [step]; unfold exec.
  - by destruct w.
  - destruct (consumers w !! c) eqn:Hc; [done|].
    rewrite (same_instances_connect c q u io _). destruct w; cbn. set_solver.
  - by rewrite (same_instances_receive c sock frame w).
  - by rewrite (same_instances_disconnect c sock code io w).
  - by rewrite (same_instances_broadcast_message c sock ev w).
  - by rewrite (same_instances_graceful_shutdown socks lat w).
  - by rewrite (same_instances_heartbeat_loop tid timestamp w).
Qed.

(** *** The attributes of one connection *)

Global Instance same_attr_rules {A} (f : consumer → A) (c : nat) :
  Rules (same_attr f c) (λ g c', c' ≠ c ∨ ∀ s, f (g s) = f s)
    (λ _, True) (λ _, True) (λ _, True) (λ _, True).
Proof.
  split; try (intros; unfold same_attr; reflexivity).
  - constructor.
    + intros w. reflexivity.
    + intros w1 w2 w3. unfold same_attr. congruence.
  - intros g c' w Hg. unfold same_attr. cbn.
    destruct (decide (c' = c)) as [->|Hne].
    + destruct Hg as [|Hg]; [done|]. rewrite lookup_alter_eq.
      destruct (consumers w !! c); cbn; [by rewrite Hg | done].
    + by rewrite lookup_alter_ne.
Qed.

Ltac attr_side := first [done | by left | right; intros []; reflexivity].

(** Every event but a frame for [c] leaves the count of [c] alone; every
    event leaves alone what [connect] has set. *)
Lemma same_attr_step {A} (f : consumer → A) c e w s :
  consumers w !! c = Some s →
  (∀ n s', f (set_message_count n s') = f s') ∨ is_object_for c e = false
    ∧ (∀ sock frame, e ≠ Receives c sock frame) →
  (∀ b s', f (set_graceful_close b s') = f s') →
  (∀ t s', f (set_own_heartbeat_task t s') = f s') →
  same_attr f c w (step e w).
Proof.
  intros Hs Hcount Hgraceful Htask.
  destruct e as [dt | c' uuid q u io | c' sock frame | c' sock code io | c' sock ev | socks lat
                 | tid timestamp]; cbn [step]; unfold exec.
  - by destruct w.
  - destruct (consumers w !! c') eqn:Hc'; [done|].
    assert (Hne : c' ≠ c) by congruence.
    assert (H : keeps (same_attr f c) (connect c' q u io)) by (holds_connect attr_side).
    etrans; [|apply H]. unfold same_attr. destruct w; cbn. by rewrite lookup_insert_ne.
  - assert (H : keeps (same_attr f c) (receive c' sock frame)); [|apply H].
    destruct Hcount as [Hcount | [_ Hne]].
    + holds_receive ltac:(first [done | right; intros s'; apply Hcount]).
    + assert (c' ≠ c) by (intros ->; by apply (Hne sock frame)).
      holds_receive attr_side.
  - assert (H : keeps (same_attr f c) (disconnect c' sock code io)); [|apply H].
    holds_disconnect ltac:(first [done | right; intros s'; apply Htask]).
  - assert (H : keeps (same_attr f c) (broadcast_message c' sock ev)); [|apply H].
    holds_broadcast_message attr_side.
  - apply (holds_graceful_shutdown (same_attr f c)); [|done|done].
    intros c'. right. intros s'. apply Hgraceful.
  - assert (H : keeps (same_attr f c) (heartbeat_loop tid timestamp)); [|apply H].
    holds_heartbeat_loop attr_side.
Qed.

Lemma count_step c e w s :
  consumers w !! c = Some s →
  count_of c (step e w)
  = Some (message_count s + (if is_object_for c e then 1 else 0)).
Proof.
  intros Hs.
  assert (Hother : is_object_for c e = false → (∀ sock frame, e ≠ Receives c sock frame) →
                   count_of c (step e w) = Some (message_count s + 0)).
  { intros Hnot Hne. rewrite Z.add_0_r. unfold count_of.
    rewrite (same_attr_step message_count c e w s Hs); [by rewrite Hs | | done | done].
    by right. }
  destruct e as [dt | c' uuid q u io | c' sock frame | c' sock code io | c' sock ev | socks lat
                 | tid timestamp]; try (by apply Hother).
  destruct (decide (c' = c)) as [->|Hne].
  - cbn [step is_object_for]. unfold exec.
    destruct (receive_outcome c sock frame w s Hs) as (r & w' & -> & Hcount & _).
    rewrite bool_decide_eq_true_2 by done. exact Hcount.
  - cbn [is_object_for]. rewrite bool_decide_eq_false_2 by done.
    apply Hother; [cbn; by rewrite bool_decide_eq_false_2 | congruence].
Qed.

Lemma objects_received_cons c e events :
  objects_received c (e :: events)
  = (if is_object_for c e then 1 else 0) + objects_received c events.
Proof.
  unfold objects_received. cbn [List.filter].
  destruct (is_object_for c e); cbn [List.length]; lia.
Qed.

Lemma run_count c events : ∀ w s,
  consumers w !! c = Some s →
  count_of c (run events w) = Some (message_count s + objects_received c events).
Proof.
  induction events as [|e events IH]; intros w s Hs.
  - unfold count_of, objects_received. cbn. rewrite Hs. cbn. f_equal. lia.
  - rewrite run_cons, objects_received_cons.
    pose proof (count_step c e w s Hs) as Hstep. unfold count_of in Hstep.
    destruct (consumers (step e w) !! c) as [s1|] eqn:Hs1; [|discriminate].
    injection Hstep as Hstep. rewrite (IH _ s1 Hs1). f_equal. lia.
Qed.

Lemma run_identity c events : ∀ w s,
  consumers w !! c = Some s →
  identity <$> consumers (run events w) !! c = Some (identity s).
Proof.
  induction events as [|e events IH]; intros w s Hs.
  - cbn. by rewrite Hs.
  - rewrite run_cons.
    assert (Hstep : same_attr identity c w (step e w)).
    { apply (same_attr_step identity c e w s Hs);
        [left; by intros ? [] | by intros ? [] | by intros ? []]. }
    unfold same_attr in Hstep. rewrite Hs in Hstep.
    destruct (consumers (step e w) !! c) as [s1|] eqn:Hs1; [|discriminate].
    rewrite (IH _ s1 Hs1). cbn in Hstep. congruence.
Qed.

(** X9.  The count of a connection after any sequence of events is its
    count before plus the number of frames it received meanwhile that
    decode to a JSON object.  Nothing else moves it: not the frames,
    connects and disconnects of other connections, not a frame that is not
    an object, not a broadcast, a heartbeat or a shutdown, and not its own
    disconnect. *)
Theorem X9_count_is_objects_received
    (c : nat) (events : list event) (w : world) (s : consumer) :
  consumers w !! c = Some s →
  count_of c (run events w) = Some (message_count s + objects_received c events).
Proof. apply run_count. Qed.

Lemma X9_count_is_objects_received_witness :
  count_of 1 (run [Receives 1 SockOpen (chat "a"); Connects 2 "c-2" (Text "") "s-2" redis_up;
                   Receives 2 SockOpen (chat "b"); Receives 1 SockOpen NotJSON;
                   Sigterm (λ _, SockOpen) (λ _, Some 5);
                   Receives 1 SockGone (Decoded (JObj []))] fresh_connection)
  = Some 2.
Proof.
  exact (X9_count_is_objects_received 1
           [Receives 1 SockOpen (chat "a"); Connects 2 "c-2" (Text "") "s-2" redis_up;
            Receives 2 SockOpen (chat "b"); Receives 1 SockOpen NotJSON;
            Sigterm (λ _, SockOpen) (λ _, Some 5);
            Receives 1 SockGone (Decoded (JObj []))] fresh_connection _ eq_refl).
Defined.

(** X10.  Once a consumer exists, no event removes it, and its session
    identifier, its connection identifier and its start time stay what
    they are: the session under which [disconnect] stores the count is
    the one [connect] chose. *)
Theorem X10_identity_is_fixed
    (c : nat) (events : list event) (w : world) (s : consumer) :
  consumers w !! c = Some s →
  ∃ s', consumers (run events w) !! c = Some s'
    ∧ session_id s' = session_id s
    ∧ connection_id s' = connection_id s
    ∧ connection_start s' = connection_start s.
Proof.
  intros Hs. pose proof (run_identity c events w s Hs) as Hrun.
  destruct (consumers (run events w) !! c) as [s'|]; [|discriminate].
  exists s'. injection Hrun as Hsession Hid Hstart. done.
Qed.

Lemma X10_identity_is_fixed_witness :
  ∃ s', consumers (run [Receives 1 SockOpen (chat "a");
                        Sigterm (λ _, SockOpen) (λ _, Some 5);
                        Disconnects 1 SockGone 1001 redis_up] fresh_connection) !! 1%nat = Some s'
    ∧ session_id s' = Some "s-1"
    ∧ connection_id s' = "c-1"
    ∧ connection_start s' = 1.
Proof.
  exact (X10_identity_is_fixed 1 [Receives 1 SockOpen (chat "a");
                                  Sigterm (λ _, SockOpen) (λ _, Some 5);
                                  Disconnects 1 SockGone 1001 redis_up] fresh_connection _ eq_refl).
Defined.

Lemma cache_writes_farewell c sock code s : cache_writes (farewell c sock code s) = [].
Proof. unfold farewell. destruct (_ && _); [by destruct sock | done]. Qed.

(** X11.  Whatever happens between the moment a consumer exists and its
    disconnect, the record [disconnect] writes is determined by the
    session the consumer was given, the object frames it received and
    the state of Redis: with a session that is neither [None] nor empty,
    a final count [n > 0], the count before plus the objects received,
    and both [group_discard] and the write to the cache returning, it
    writes [n] under the key of that session with a lifetime of 300
    seconds; otherwise, in particular when one of the two calls raises,
    it writes nothing. *)
Theorem X11_record_after_any_run
    (c : nat) (events : list event) (sock : socket) (close_code : Z) (io : backend)
    (w : world) (s : consumer) :
  consumers w !! c = Some s →
  let w1 := run events w in
  let w2 := step (Disconnects c sock close_code io) w1 in
  let n := message_count s + objects_received c events in
  let record := match truthy_session (session_id s) with
                | Some session =>
                    if (0 <? n) && layer_up io && cache_up io then Some (session, n)
                    else None
                | None => None
                end in
  cache_writes (trace w2)
  = cache_writes (trace w1)
    ++ match record with
       | Some (session, n) => [(cache_key session, n, SESSION_TIMEOUT)]
       | None => []
       end
  ∧ cache w2 = match record with
               | Some (session, n) =>
                   <[cache_key session := (n, now w1 + milliseconds SESSION_TIMEOUT)]> (cache w1)
               | None => cache w1
               end.
Proof.
  intros Hs. cbn zeta.
  pose proof (run_count c events w s Hs) as Hcount.
  pose proof (run_identity c events w s Hs) as Hid.
  unfold count_of in Hcount.
  destruct (consumers (run events w) !! c) as [s1|] eqn:Hs1; [|discriminate].
  injection Hcount as Hcount. injection Hid as Hsession _ _.
  cbn [step]. unfold exec.
  destruct (disconnect_run c sock close_code io _ s1 Hs1) as (w2 & -> & Htrace & Hcache & _).
  cbn [snd]. rewrite Htrace, Hcache. unfold runs_through, persisted.
  rewrite Hsession, Hcount, !cache_writes_app.
  destruct (layer_up io), (cache_up io), (truthy_session (session_id s)) as [session|];
    try (destruct (0 <? _)); cbn [andb orb];
    rewrite ?cache_writes_app, ?cache_writes_farewell; cbn; by rewrite ?app_nil_r.
Qed.

Lemma X11_record_after_any_run_witness :
  cache_writes
    (trace (step (Disconnects 1 SockGone 1006 redis_up)
              (run [Receives 1 SockOpen (chat "a"); Sigterm (λ _, SockOpen) (λ _, Some 5);
                    Receives 1 SockGone (chat "b")] fresh_connection)))
  = [(cache_key "s-1", 2, SESSION_TIMEOUT)].
Proof.
  destruct (X11_record_after_any_run 1
              [Receives 1 SockOpen (chat "a"); Sigterm (λ _, SockOpen) (λ _, Some 5);
               Receives 1 SockGone (chat "b")] SockGone 1006 redis_up fresh_connection _
              eq_refl) as [Hwrites _].
  rewrite Hwrites. vm_compute. reflexivity.
Defined.

(** *** The registry and its gauge *)

Global Instance same_registry_rules :
  Rules same_registry (λ _ _, True) (λ f, ∀ a, f a = a) (λ _, True)
    (λ f, ∀ m, websocket_connections (f m) = websocket_connections m) (λ _, True).
Proof.
  split; try (intros; unfold same_registry; done).
  - constructor.
    + intros w. done.
    + intros w1 w2 w3 [? ?] [? ?]. split; congruence.
  - intros f w Hf. split; [apply Hf | done].
  - intros f w Hf. split; [done | apply Hf].
Qed.

Ltac registry_side := first [done | intros []; reflexivity].

Lemma same_registry_receive c sock frame : keeps same_registry (receive c sock frame).
Proof. holds_receive registry_side. Qed.

Lemma same_registry_broadcast_message c sock event :
  keeps same_registry (broadcast_message c sock event).
Proof. holds_broadcast_message registry_side. Qed.

Lemma same_registry_heartbeat_loop tid timestamp :
  keeps same_registry (heartbeat_loop tid timestamp).
Proof. holds_heartbeat_loop registry_side. Qed.

Lemma same_registry_graceful_shutdown socks lat :
  keeps same_registry (graceful_shutdown socks lat).
Proof. apply (holds_graceful_shutdown same_registry); [done | done | by intros d []]. Qed.

Lemma registry_joined (c : nat) (X : gset nat) (h : gmap nat consumer) s :
  h !! c = None → X ⊆ dom h →
  Z.of_nat (size ({[c]} ∪ X)) = Z.of_nat (size X) + 1
  ∧ {[c]} ∪ X ⊆ dom (<[c := s]> h)
  ∧ X ⊆ dom (<[c := s]> h).
Proof.
  intros Hc Hsub. rewrite dom_insert_L.
  assert (Hnew : c ∉ X).
  { intros Hin. apply Hsub, elem_of_dom in Hin. rewrite Hc in Hin. by destruct Hin. }
  split; [|split].
  - rewrite size_union by (by apply disjoint_singleton_l). rewrite size_singleton. lia.
  - by apply union_mono_l.
  - by apply union_subseteq_r'.
Qed.

Lemma registry_left (c : nat) (X D : gset nat) :
  c ∈ X → X ⊆ D →
  Z.of_nat (size (X ∖ {[c]})) = Z.of_nat (size X) - 1
  ∧ X ∖ {[c]} ⊆ D.
Proof.
  intros Hin Hsub.
  assert (Hc : ({[c]} : gset nat) ⊆ X) by (by apply singleton_subseteq_l).
  split.
  - rewrite size_difference by done. rewrite size_singleton.
    apply subseteq_size in Hc. rewrite size_singleton in Hc. lia.
  - by apply subseteq_difference_l.
Qed.

Lemma gauge_in_step_kept w w' :
  same_registry w w' → same_instances w w' → gauge_in_step w → gauge_in_step w'.
Proof.
  intros [Hactive Hgauge] Hdom [Hw Hsub]. unfold gauge_in_step, same_instances in *.
  rewrite Hactive, Hgauge, Hdom. done.
Qed.

Lemma gauge_in_step_step e w :
  gauge_in_step w → of_registered e w = true → gauge_in_step (step e w).
Proof.
  intros Hw He.
  destruct e as [dt | c uuid q u io | c sock frame | c sock code io | c sock ev | socks lat
                 | tid timestamp]; cbn [step]; unfold exec.
  - by destruct w.
  - destruct (consumers w !! c) eqn:Hc; [done|].
    destruct Hw as [Hgauge Hsub].
    destruct (registry_joined c _ _ (init uuid) Hc Hsub) as (Hsize & Hjoined & Hstays).
    set (w0 := with_consumers (λ h, <[c := init uuid]> h) w).
    pose proof (same_instances_connect c q u io w0) as Hdom. unfold same_instances in Hdom.
    destruct (shutdown_initiated w) eqn:Hsi.
    + rewrite connect_rejected in * by (by destruct w). by destruct w.
    + destruct (connect_run c q u io w0 (init uuid)) as (w' & Hrun & Hrest);
        [by destruct w | by (destruct w; cbn; rewrite lookup_insert_eq)|].
      rewrite Hrun in *. cbn [snd] in *.
      destruct Hrest as (_ & _ & Hactive & Hconnections & _).
      split.
      * rewrite Hconnections, Hactive. destruct (admitted q io), w; cbn in *; lia.
      * rewrite Hactive, Hdom. by destruct (admitted q io), w.
  - apply (gauge_in_step_kept w); [apply same_registry_receive | apply same_instances_receive
                                   | done].
  - cbn in He. apply bool_decide_eq_true_1 in He. destruct Hw as [Hgauge Hsub].
    assert (Hc : is_Some (consumers w !! c)) by (by apply elem_of_dom, Hsub).
    destruct Hc as [s Hs].
    pose proof (same_instances_disconnect c sock code io w) as Hdom.
    unfold same_instances in Hdom.
    destruct (disconnect_run c sock code io w s Hs) as (w' & Hrun & Hrest).
    rewrite Hrun in *. cbn [snd] in *.
    destruct Hrest as (_ & _ & Hactive & _ & _ & _ & _ & _ & Hconnections & _).
    destruct (registry_left c _ _ He Hsub) as [Hsize Hleft].
    split; [rewrite Hconnections, Hactive; lia | by rewrite Hactive, Hdom].
  - apply (gauge_in_step_kept w); [apply same_registry_broadcast_message
                                   | apply same_instances_broadcast_message | done].
  - apply (gauge_in_step_kept w); [apply same_registry_graceful_shutdown
                                   | apply same_instances_graceful_shutdown | done].
  - apply (gauge_in_step_kept w); [apply same_registry_heartbeat_loop
                                   | apply same_instances_heartbeat_loop | done].
Qed.

(** X12.  As long as [disconnect] is only called for connections that
    are registered, the gauge [websocket_connections_active] shows the
    number of registered connections, in every state the process can
    reach: each accepted handshake adds one to both, each disconnect
    takes one from both, and nothing else touches either. *)
Theorem X12_gauge_shows_registry (events : list event) :
  ∀ w, gauge_in_step w → orderly events w = true →
       websocket_connections (collectors (run events w))
       = Z.of_nat (size (active_connections (run events w))).
Proof.
  assert (Hrun : ∀ w, gauge_in_step w → orderly events w = true →
                      gauge_in_step (run events w)).
  { induction events as [|e events IH]; intros w Hw Horderly; [done|].
    cbn [orderly] in Horderly. apply andb_prop in Horderly as [He Horderly].
    rewrite run_cons. apply IH; [by apply gauge_in_step_step | done]. }
  intros w Hw Horderly. by destruct (Hrun w Hw Horderly).
Qed.

Lemma X12_gauge_shows_registry_witness :
  websocket_connections
    (collectors (run [Connects 1 "c-1" (Text "") "s-1" redis_up; Connects 2 "c-2" (Text "") "s-2" redis_up;
                      Receives 1 SockOpen (chat "a"); Disconnects 1 SockOpen 1000 redis_up;
                      Sigterm (λ _, SockOpen) (λ _, Some 5); Connects 3 "c-3" (Text "") "s-3" redis_up]
                   (initial 1)))
  = Z.of_nat (size (active_connections
                      (run [Connects 1 "c-1" (Text "") "s-1" redis_up; Connects 2 "c-2" (Text "") "s-2" redis_up;
                            Receives 1 SockOpen (chat "a"); Disconnects 1 SockOpen 1000 redis_up;
                            Sigterm (λ _, SockOpen) (λ _, Some 5); Connects 3 "c-3" (Text "") "s-3" redis_up]
                         (initial 1)))).
Proof.
  apply X12_gauge_shows_registry; [|vm_compute; reflexivity].
  split; [reflexivity|]. cbn. apply empty_subseteq.
Defined.

(** *** A connection that was turned away *)

(** X14.  A handshake that arrives while the process shuts down is
    closed with 1001 without being registered or counted in the gauge,
    but the [disconnect] that follows it takes one from the gauge all the
    same: from then on the gauge shows one connection fewer than are
    registered.  That disconnect records no duration (the start time was
    never set) and writes no session record (no session was read); it
    tries to send the goodbye with total 0 if the close code is not 1001
    and [group_discard] returns, and nothing otherwise. *)
Theorem X14_rejected_connection_lowers_gauge
    (c : nat) (connection_uuid : string) (q : decode_result) (u : string)
    (io io' : backend) (sock : socket) (close_code : Z) (w : world) :
  shutdown_initiated w = true →
  consumers w !! c = None →
  gauge_in_step w →
  let w1 := step (Connects c connection_uuid q u io) w in
  let w2 := step (Disconnects c sock close_code io') w1 in
  closes_of c (trace w1) = closes_of c (trace w) ++ [1001]
  ∧ active_connections w2 = active_connections w
  ∧ websocket_connections (collectors w2)
    = Z.of_nat (size (active_connections w2)) - 1
  ∧ websocket_connection_duration (collectors w2) = websocket_connection_duration (collectors w)
  ∧ cache w2 = cache w
  ∧ attempts_to c (trace w2)
    = attempts_to c (trace w)
      ++ (if layer_up io' && negb (close_code =? 1001) then [goodbye 0] else []).
Proof.
  intros Hsi Hc [Hgauge Hsub]. cbn zeta. cbn [step]. rewrite Hc. unfold exec.
  rewrite connect_rejected by (by destruct w). cbn [snd].
  set (w1 := with_trace _ (with_consumers _ w)).
  assert (Hs : consumers w1 !! c = Some (init connection_uuid))
    by (destruct w; cbn; by rewrite lookup_insert_eq).
  assert (Hnew : c ∉ active_connections w).
  { intros Hin. apply Hsub, elem_of_dom in Hin. rewrite Hc in Hin. by destruct Hin. }
  destruct (disconnect_run c sock close_code io' w1 _ Hs)
    as (w2 & Hrun & Htrace & Hcache & Hactive & _ & _ & _ & _ & _ & Hconnections & _ & _
        & _ & Hdurations).
  rewrite Hrun in *. cbn [snd] in *.
  assert (Hsame : active_connections w2 = active_connections w).
  { rewrite Hactive. destruct w; cbn. by apply difference_disjoint_L, disjoint_singleton_r. }
  split; [|split; [|split; [|split; [|split]]]].
  - unfold w1. destruct w; fields. rewrite closes_of_app. unfold closes_of at 2. cbn.
    by rewrite decide_True.
  - exact Hsame.
  - rewrite Hconnections, Hsame. unfold w1. destruct w; cbn in *. lia.
  - rewrite Hdurations. unfold w1. destruct w; cbn. apply app_nil_r.
  - rewrite Hcache. unfold w1. by destruct (layer_up io' && cache_up io'), w.
  - rewrite Htrace. unfold w1, runs_through, farewell, persisted, attempts_to.
    destruct w; cbn. rewrite !omap_app.
    destruct (layer_up io'), (cache_up io'), (close_code =? 1001); cbn;
      try destruct sock; cbn; rewrite ?decide_True by done; by rewrite ?app_nil_r.
Qed.

Lemma X14_rejected_connection_lowers_gauge_witness :
  websocket_connections
    (collectors (run [Connects 2 "c-2" (Text "") "s-2" redis_up;
                      Disconnects 2 SockGone 1006 redis_up] stopping)) = 0
  ∧ size (active_connections
            (run [Connects 2 "c-2" (Text "") "s-2" redis_up;
                  Disconnects 2 SockGone 1006 redis_up] stopping)) = 1%nat.
Proof.
  assert (Hstep : gauge_in_step stopping).
  { unfold stopping, fresh_connection.
    apply gauge_in_step_step; [|reflexivity]. apply gauge_in_step_step; [|reflexivity].
    split; [reflexivity | apply empty_subseteq]. }
  destruct (X14_rejected_connection_lowers_gauge 2 "c-2" (Text "") "s-2" redis_up redis_up
              SockGone 1006 stopping eq_refl eq_refl Hstep) as (_ & Hactive & Hgauge & _).
  cbn [run foldl]. split; [rewrite Hgauge, Hactive; reflexivity | by rewrite Hactive].
Defined.

(** ** A shutdown followed by the disconnects *)

(** The rest of the world as far as the attributes of [c] go. *)
Lemma say_goodbye_marks socks c snapshot : ∀ pending w s,
  consumers w !! c = Some s →
  consumers (say_goodbye socks snapshot pending w).2 !! c
  = Some (if bool_decide (c ∈ snapshot) then set_graceful_close true s else s).
Proof.
  induction snapshot as [|c0 rest IH]; intros pending w s Hs.
  - cbn. by rewrite Hs.
  - cbn [say_goodbye]. do 2 step.
    erewrite bind_ok by apply swallowed_send. cbv beta.
    destruct (decide (c0 = c)) as [->|Hne].
    + rewrite (IH _ _ (set_graceful_close true s)).
      * rewrite (bool_decide_eq_true_2 (c ∈ c :: rest)) by (by left).
        by destruct (bool_decide (c ∈ rest)).
      * destruct w; cbn in *. by rewrite lookup_alter_eq, Hs.
    + rewrite (IH _ _ s).
      * apply f_equal, (f_equal (λ b : bool, if b then _ else _)).
        apply bool_decide_ext. rewrite elem_of_cons.
        split; [by right | intros [?|?]; [congruence | done]].
      * destruct w; cbn in *. by rewrite lookup_alter_ne.
Qed.

Lemma graceful_shutdown_marks socks lat c w s :
  consumers w !! c = Some s →
  consumers (graceful_shutdown socks lat w).2 !! c
  = Some (if bool_decide (c ∈ active_connections w) then set_graceful_close true s else s).
Proof.
  intros Hs. destruct w as [ac si ht h ts ca co t tr]. cbn in Hs.
  unfold graceful_shutdown. fields.
  do 4 step. fields.
  match goal with
  | |- context [(gets heartbeat_task ≫= _) ?w] => set (w0 := w)
  end.
  step. fields.
  rewrite (bind_ok _ _ _ () (match ht with
                             | Some tid => with_tasks (alter request_cancel tid) w0
                             | None => w0
                             end)) by (destruct ht; reflexivity).
  cbv beta. step.
  match goal with
  | |- context [(say_goodbye socks ?l ?p ≫= _) ?w] =>
      set (w1 := w); set (snapshot := l);
      pose proof (say_goodbye_marks socks c l p w1 s) as Hmarks;
      destruct (say_goodbye_run socks l p w1) as (w2 & Hbye & _)
  end.
  rewrite Hbye in Hmarks. cbn [snd] in Hmarks.
  rewrite (bind_ok _ _ _ _ _ Hbye). cbv beta.
  match goal with
  | |- context [(?m ≫= ?k) w2] =>
      pose proof (holds_after_goodbyes (same_attr id c) lat
                    ([] ++ map (λ c, (c, 1001)) snapshot) t) as Hafter
  end.
  specialize (Hafter ltac:(done) ltac:(done) w2).
  unfold same_attr in Hafter. rewrite !option_fmap_id in Hafter.
  etrans; [exact Hafter|]. rewrite Hmarks by (unfold w1, w0; by destruct ht).
  unfold snapshot, w1, w0. destruct ht; cbn; by rewrite bool_decide_elements.
Qed.

Global Instance stays_marked_rules (c : nat) :
  Rules (stays_marked c)
    (λ g c', c' ≠ c ∨ ∀ s, graceful_close s = true → graceful_close (g s) = true)
    (λ _, True) (λ _, True) (λ _, True) (λ _, True).
Proof.
  split; try (intros; unfold stays_marked; done).
  - constructor.
    + intros w Hw. exact Hw.
    + intros w1 w2 w3. unfold stays_marked. auto.
  - intros g c' w Hg. unfold stays_marked. cbn.
    destruct (decide (c' = c)) as [->|Hne].
    + destruct Hg as [|Hg]; [done|]. rewrite lookup_alter_eq.
      destruct (consumers w !! c); cbn; [|done]. intros [= Hs]. by rewrite Hg.
    + by rewrite lookup_alter_ne.
Qed.

Ltac marked_side := first [done | by left | right; by intros []].

(** Nothing lowers [graceful_close]. *)
Lemma stays_marked_step c e w : stays_marked c w (step e w).
Proof.
  destruct e as [dt | c' uuid q u io | c' sock frame | c' sock code io | c' sock ev | socks lat
                 | tid timestamp]; cbn [step]; unfold exec.
  - destruct w. intros Hw. exact Hw.
  - destruct (consumers w !! c') eqn:Hc'; [intros Hw; exact Hw|].
    destruct (decide (c' = c)) as [->|Hne]; [intros Hw; by rewrite Hc' in Hw|].
    assert (H : keeps (stays_marked c) (connect c' q u io)) by (holds_connect marked_side).
    etrans; [|apply H]. unfold stays_marked. destruct w; cbn. by rewrite lookup_insert_ne.
  - assert (H : keeps (stays_marked c) (receive c' sock frame)); [|apply H].
    holds_receive marked_side.
  - assert (H : keeps (stays_marked c) (disconnect c' sock code io)); [|apply H].
    holds_disconnect marked_side.
  - assert (H : keeps (stays_marked c) (broadcast_message c' sock ev)); [|apply H].
    holds_broadcast_message marked_side.
  - apply (holds_graceful_shutdown (stays_marked c)); [|done|done].
    intros c'. by right.
  - assert (H : keeps (stays_marked c) (heartbeat_loop tid timestamp)); [|apply H].
    holds_heartbeat_loop marked_side.
Qed.

Lemma stays_marked_run c events : ∀ w, stays_marked c w (run events w).
Proof.
  induction events as [|e events IH]; intros w; [intros Hw; exact Hw|].
  rewrite run_cons. intros Hw. by apply IH, stays_marked_step.
Qed.

Lemma farewell_marked c sock code s :
  graceful_close s = true → farewell c sock code s = [].
Proof. intros Hs. unfold farewell. by rewrite Hs. Qed.

(** X15.  A shutdown tries to send each registered connection exactly
    one goodbye, with the count the connection has at that moment, and
    marks it; the mark is never removed, so the [disconnect] of that
    connection, whenever it comes, whatever its close code and whether
    or not Redis answers, sends nothing more.  Frames that arrive in between are still counted: the
    total of the goodbye is the count at the time of the shutdown, which
    can be less than the count the connection ends with. *)
Theorem X15_shutdown_says_the_only_goodbye
    (c : nat) (socks : nat → socket) (lat : nat → option Z) (events : list event)
    (sock : socket) (close_code : Z) (io : backend) (w : world) (s : consumer) :
  consumers w !! c = Some s →
  c ∈ active_connections w →
  let w1 := step (Sigterm socks lat) w in
  let w2 := run events w1 in
  let w3 := step (Disconnects c sock close_code io) w2 in
  attempts_to c (trace w1) = attempts_to c (trace w) ++ [goodbye (message_count s)]
  ∧ attempts_to c (trace w3) = attempts_to c (trace w2)
  ∧ count_of c w3 = Some (message_count s + objects_received c events).
Proof.
  intros Hs Hin. cbn zeta. cbn [step]. unfold exec.
  pose proof (graceful_shutdown_marks socks lat c w s Hs) as Hmarks.
  rewrite bool_decide_eq_true_2 in Hmarks by done.
  destruct (graceful_shutdown_run socks lat w) as (w1 & Hrun & Htrace & _).
  rewrite Hrun in *. cbn [snd] in *.
  pose proof (stays_marked_run c events w1) as Hstays.
  unfold stays_marked in Hstays. rewrite Hmarks in Hstays. specialize (Hstays eq_refl).
  pose proof (run_count c events w1 _ Hmarks) as Hcount. unfold count_of in Hcount.
  destruct (consumers (run events w1) !! c) as [s2|] eqn:Hs2; [|discriminate].
  injection Hstays as Hmarked. injection Hcount as Hcount.
  destruct (disconnect_run c sock close_code io _ s2 Hs2)
    as (w3 & Hrun3 & Htrace3 & _ & _ & _ & _ & _ & _ & _ & _ & Hcount3 & _).
  rewrite Hrun3. cbn [snd].
  split; [|split].
  - rewrite Htrace, attempts_to_app, attempts_to_cons, !attempts_to_app.
    rewrite attempts_to_goodbyes by apply NoDup_elements.
    rewrite attempts_to_closes, bool_decide_elements, bool_decide_eq_true_2 by done.
    rewrite (lookup_total_Some _ _ _ Hs).
    destruct (closing_time lat _); cbn; by rewrite ?app_nil_r.
  - rewrite Htrace3, (farewell_marked _ _ _ _ Hmarked), !attempts_to_app.
    destruct (layer_up io), (cache_up io), (runs_through io s2),
      (persisted s2) as [[session n]|]; cbn; by rewrite app_nil_r.
  - rewrite Hcount3, Hcount. by destruct s.
Qed.

Lemma X15_shutdown_says_the_only_goodbye_witness :
  attempts_to 1 (trace (step (Sigterm (λ _, SockOpen) (λ _, Some 5)) fresh_connection))
  = [goodbye 0]
  ∧ count_of 1 (step (Disconnects 1 SockOpen 1000 redis_up)
                  (run [Receives 1 SockOpen (chat "late")]
                     (step (Sigterm (λ _, SockOpen) (λ _, Some 5)) fresh_connection)))
    = Some 1
  ∧ attempts_to 1 (trace (step (Disconnects 1 SockOpen 1000 redis_up)
                            (run [Receives 1 SockOpen (chat "late")]
                               (step (Sigterm (λ _, SockOpen) (λ _, Some 5))
                                  fresh_connection))))
    = [goodbye 0; count_reply 1].
Proof.
  destruct (X15_shutdown_says_the_only_goodbye 1 (λ _, SockOpen) (λ _, Some 5)
              [Receives 1 SockOpen (chat "late")] SockOpen 1000 redis_up fresh_connection _
              eq_refl)
    as (Hbye & Hquiet & Hcount).
  { vm_compute. reflexivity. }
  split; [exact Hbye|]. split; [exact Hcount|].
  rewrite Hquiet. vm_compute. reflexivity.
Defined.

(** ** Session records side by side *)

Lemma cache_key_inj session other : cache_key session = cache_key other → session = other.
Proof. unfold cache_key. intros H. by simplify_eq/=. Qed.

(** X16.  A session record is stored under a key that belongs to its
    session alone: after [cache_session] for one session, a later
    [get_cached_session] for that session finds the count just stored,
    whatever was stored for it before, as long as fewer than 300 seconds
    have passed and nothing after that; for any other session it finds
    what it would have found without the write. *)
Theorem X16_session_records_are_separate
    (session other : string) (count : Z) (dt : N) (w : world) :
  let w' := step (Tick dt) (exec (cache_session session count) w) in
  (get_cached_session other w').1
  = Ok (if decide (other = session)
        then (if Z.of_N dt <? milliseconds SESSION_TIMEOUT then Some count else None)
        else cache_get (cache_key other) (step (Tick dt) w)).
Proof.
  cbn zeta. destruct w as [ac si ht h ts ca co t tr].
  unfold get_cached_session, cache_session, exec, cache_get. run_handler. cbn.
  destruct (decide (other = session)) as [->|Hne].
  - rewrite lookup_insert_eq.
    destruct (Z.ltb_spec (t + Z.of_N dt) (t + milliseconds SESSION_TIMEOUT));
      destruct (Z.ltb_spec (Z.of_N dt) (milliseconds SESSION_TIMEOUT)); (done || lia).
  - rewrite lookup_insert_ne; [done|]. intros Heq. by apply Hne, eq_sym, cache_key_inj.
Qed.

(** ** Where session records come from *)

Global Instance same_cache_rules :
  Rules same_cache (λ _ _, True) (λ _, True) (λ f, ∀ m, f m = m) (λ _, True)
    (λ e, is_cache_set e = false).
Proof.
  split; try (intros; unfold same_cache; done).
  - constructor.
    + intros w. done.
    + intros w1 w2 w3 [? ?] [? ?]. split; congruence.
  - intros f w Hf. split; [apply Hf | done].
  - intros e w He. split; [done|]. cbn. rewrite cache_writes_app.
    destruct e; try discriminate He; apply app_nil_r.
Qed.

Ltac cache_side := first [done | reflexivity].

Lemma same_cache_step e w : is_disconnect e = false → same_cache w (step e w).
Proof.
  intros He.
  destruct e as [dt | c uuid q u io | c sock frame | c sock code io | c sock ev | socks lat
                 | tid timestamp]; cbn [step]; unfold exec; try discriminate He.
  - by destruct w.
  - destruct (consumers w !! c); [done|].
    assert (H : keeps same_cache (connect c q u io)) by (holds_connect cache_side).
    etrans; [|apply H]. by destruct w.
  - assert (H : keeps same_cache (receive c sock frame)); [|apply H].
    holds_receive cache_side.
  - assert (H : keeps same_cache (broadcast_message c sock ev)); [|apply H].
    holds_broadcast_message cache_side.
  - apply (holds_graceful_shutdown same_cache); [done | by intros [] | done].
  - assert (H : keeps same_cache (heartbeat_loop tid timestamp)); [|apply H].
    holds_heartbeat_loop cache_side.
Qed.

(** X19.  Session records are written by [disconnect] and by nothing
    else: over any sequence of events without a disconnect the cache
    holds the same entries and no write is issued.  In particular
    [graceful_shutdown] stores no count; the count of a connection it
    closes is kept only if the [disconnect] of that connection runs
    afterwards. *)
Theorem X19_only_disconnect_writes_records (w : world) (events : list event) :
  Forall (λ e, is_disconnect e = false) events →
  cache (run events w) = cache w
  ∧ cache_writes (trace (run events w)) = cache_writes (trace w).
Proof.
  intros Hevents. revert w.
  induction Hevents as [|e events He _ IH]; intros w; [done|].
  rewrite run_cons. destruct (same_cache_step e w He) as [Hcache Hwrites].
  destruct (IH (step e w)) as [Hcache' Hwrites']. split; congruence.
Qed.

Lemma X19_only_disconnect_writes_records_witness :
  cache (run [Receives 1 SockOpen (chat "d"); Sigterm (λ _, SockOpen) (λ _, Some 5);
              Tick 600000] three_messages) = ∅
  ∧ count_of 1 (run [Receives 1 SockOpen (chat "d"); Sigterm (λ _, SockOpen) (λ _, Some 5);
                     Tick 600000] three_messages) = Some 4.
Proof.
  destruct (X19_only_disconnect_writes_records three_messages
              [Receives 1 SockOpen (chat "d"); Sigterm (λ _, SockOpen) (λ _, Some 5);
               Tick 600000]) as [Hcache _].
  { repeat (apply Forall_cons_2; [reflexivity|]). apply Forall_nil_2. }
  split; [rewrite Hcache; reflexivity | vm_compute; reflexivity].
Defined.

(** ** The lifespan protocol and the probes *)

Lemma serve_lifespan_until_shutdown before after : ∀ sv,
  "lifespan.shutdown" ∉ before →
  serve_lifespan (before ++ "lifespan.shutdown" :: after) sv
  = Some {| app_ready := app_ready sv; app_healthy := app_healthy sv;
            asgi_trace := asgi_trace sv
              ++ map (λ _, AsgiSend "lifespan.startup.complete")
                   (List.filter (λ type, bool_decide (type = "lifespan.startup")) before)
              ++ [AsgiSend "lifespan.shutdown.complete"];
            chat_process := chat_process sv |}.
Proof.
  induction before as [|type before IH]; intros sv Hnot.
  - cbn. by destruct sv.
  - apply not_elem_of_cons in Hnot as [Hne Hnot]. cbn [app serve_lifespan List.filter].
    destruct (bool_decide_reflect (type = "lifespan.startup")) as [->|Hother].
    + rewrite IH by done. cbn. by rewrite <- app_assoc.
    + rewrite bool_decide_eq_false_2 by congruence. by rewrite IH.
Qed.

Lemma serve_lifespan_waits messages : ∀ sv,
  "lifespan.shutdown" ∉ messages → serve_lifespan messages sv = None.
Proof.
  induction messages as [|type messages IH]; intros sv Hnot; [done|].
  apply not_elem_of_cons in Hnot as [Hne Hnot]. cbn [serve_lifespan].
  destruct (bool_decide (type = "lifespan.startup")); [by apply IH|].
  rewrite bool_decide_eq_false_2 by congruence. by apply IH.
Qed.

(** X17.  On the lifespan channel the application marks itself ready
    and healthy before it reads a message, answers every
    [lifespan.startup] with [lifespan.startup.complete] and ignores every
    other message until the first [lifespan.shutdown].  It answers that
    one with [lifespan.shutdown.complete] at once and only then begins
    the shutdown: it logs, lowers [app_ready] and runs
    [graceful_shutdown].  If all closes are done within the 9 seconds it
    waits half a second more, logs the completion and returns; if not,
    [TimeoutError] leaves the call, and neither the half second nor the
    completion record follows.  Messages after the first
    [lifespan.shutdown] are never read, and without one the call never
    returns. *)
Theorem X17_lifespan_protocol
    (before after : list string) (during : list event)
    (socks : nat → socket) (lat : nat → option Z) (sv : server) :
  "lifespan.shutdown" ∉ before →
  let w := run during (chat_process sv) in
  let closing := closing_time lat (elements (active_connections w)) in
  LifespanApp_call before during socks lat sv = None
  ∧ ∃ sv', LifespanApp_call (before ++ "lifespan.shutdown" :: after) during socks lat sv
           = Some (match closing with Some _ => Ok () | None => Raise TimeoutError end, sv')
      ∧ asgi_trace sv'
        = asgi_trace sv
          ++ [AsgiLog "Application starting up..."]
          ++ map (λ _, AsgiSend "lifespan.startup.complete")
               (List.filter (λ type, bool_decide (type = "lifespan.startup")) before)
          ++ [AsgiSend "lifespan.shutdown.complete";
              AsgiLog "Application shutting down..."]
          ++ match closing with
             | Some _ => [AsgiLog "Application shutdown complete"]
             | None => []
             end
      ∧ app_ready sv' = 0
      ∧ app_healthy sv' = 1
      ∧ shutdown_initiated (chat_process sv') = true
      ∧ now (chat_process sv')
        = now w + match closing with
                  | Some d => d + 500
                  | None => milliseconds SHUTDOWN_WAIT
                  end.
Proof.
  intros Hnot. cbn zeta. split.
  - unfold LifespanApp_call. by rewrite serve_lifespan_waits.
  - unfold LifespanApp_call. rewrite serve_lifespan_until_shutdown by done.
    cbn [mbind option_bind]. unfold lifespan_shutdown. cbn [chat_process with_chat_process
      set_app_ready asgi_emit lifespan_startup set_app_healthy asgi_trace app_ready app_healthy].
    destruct (graceful_shutdown_run socks lat (run during (chat_process sv)))
      as (w' & Hrun & _ & _ & Hnow & Hflag & _).
    rewrite Hrun.
    destruct (closing_time lat _) as [d|]; eexists; (split; [reflexivity|]); cbn.
    + repeat (rewrite <- ?app_assoc; cbn [app]).
      destruct w'; cbn in *. repeat split; try done. lia.
    + repeat (rewrite <- ?app_assoc; cbn [app]). rewrite ?app_nil_r. repeat split; done.
Qed.

Lemma X17_lifespan_protocol_witness :
  ∃ sv', LifespanApp_call ["lifespan.startup"; "lifespan.shutdown"] []
           (λ _, SockOpen) (λ _, None) (booting fresh_connection)
         = Some (Raise TimeoutError, sv')
    ∧ asgi_trace sv'
      = [AsgiLog "Application starting up..."; AsgiSend "lifespan.startup.complete";
         AsgiSend "lifespan.shutdown.complete"; AsgiLog "Application shutting down..."].
Proof.
  destruct (X17_lifespan_protocol ["lifespan.startup"] [] [] (λ _, SockOpen) (λ _, None)
              (booting fresh_connection)) as [_ (sv' & Hcall & Htrace & _)].
  { intros Hin. apply list_elem_of_singleton in Hin. discriminate Hin. }
  exists sv'. split; [exact Hcall | exact Htrace].
Defined.

Lemma serve_lifespan_gauges messages : ∀ sv sv1,
  serve_lifespan messages sv = Some sv1 →
  app_ready sv1 = app_ready sv ∧ app_healthy sv1 = app_healthy sv.
Proof.
  induction messages as [|type rest IH]; intros sv sv1; [discriminate|].
  cbn [serve_lifespan].
  destruct (bool_decide (type = "lifespan.startup")).
  { intros Hserve. by destruct (IH _ _ Hserve). }
  destruct (bool_decide (type = "lifespan.shutdown")); [|apply IH].
  by intros [= <-].
Qed.

(** X18.  What the probes answer along the life of the process.  Before
    the lifespan handler has started, both probes answer 503.  Once a
    shutdown was requested on the lifespan channel, whether or not it
    completed, the readiness probe answers 503 whatever the state of the
    database, the cache and the static files, while the liveness probe
    still answers 200 with status [healthy]: nothing in the code lowers
    [app_healthy]. *)
Theorem X18_probes_along_the_lifespan
    (messages : list string) (during : list event)
    (socks : nat → socket) (lat : nat → option Z) (w : world)
    (r : result unit) (sv' : server) (env : surroundings) (timestamp : string) :
  LifespanApp_call messages during socks lat (booting w) = Some (r, sv') →
  status_code (health_check timestamp (booting w)) = 503
  ∧ status_code (readiness_check env timestamp (booting w)) = 503
  ∧ status_code (readiness_check env timestamp sv') = 503
  ∧ health_check timestamp sv'
    = Response 200 [("status", JStr "healthy"); ("timestamp", JFloat timestamp);
                    ("service", JStr "django-websocket")].
Proof.
  intros Hcall.
  assert (Hgauges : app_ready sv' = 0 ∧ app_healthy sv' = 1).
  { unfold LifespanApp_call in Hcall.
    destruct (serve_lifespan messages (lifespan_startup (booting w))) as [sv1|] eqn:Hserve;
      [|discriminate].
    destruct (serve_lifespan_gauges _ _ _ Hserve) as [_ Hhealthy].
    cbn [mbind option_bind] in Hcall. injection Hcall as Hcall.
    unfold lifespan_shutdown in Hcall.
    destruct (graceful_shutdown _ _ _) as [[?|?] ?]; injection Hcall as _ <-; done. }
  destruct Hgauges as [Hready Hhealthy].
  split; [done|]. split; [by destruct env as [[?|?] [?|?] ?]|].
  split.
  - unfold readiness_check. rewrite Hready. cbn.
    by destruct env as [[?|?] [?|?] ?].
  - unfold health_check. by rewrite Hhealthy.
Qed.

Lemma X18_probes_along_the_lifespan_witness :
  ∃ r sv', LifespanApp_call ["lifespan.startup"; "lifespan.shutdown"] []
             (λ _, SockOpen) (λ _, Some 5) (booting fresh_connection) = Some (r, sv')
    ∧ status_code (readiness_check (Surroundings (Fine ()) (Fine true) true) "1.5" sv') = 503
    ∧ status_code (health_check "1.5" sv') = 200.
Proof.
  destruct (LifespanApp_call ["lifespan.startup"; "lifespan.shutdown"] []
              (λ _, SockOpen) (λ _, Some 5) (booting fresh_connection))
    as [[r sv']|] eqn:Hcall; [|vm_compute in Hcall; discriminate Hcall].
  exists r, sv'. split; [reflexivity|].
  destruct (X18_probes_along_the_lifespan _ _ _ _ _ _ _
              (Surroundings (Fine ()) (Fine true) true) "1.5" Hcall)
    as (_ & _ & Hreadiness & Hhealth).
  split; [exact Hreadiness | by rewrite Hhealth].
Defined.
